(** * dashboard_llamadas: the category analyser of [categoria_analysis.py]

    A shallow embedding of [ExcelCategoryAnalyzer] and the properties its
    specification states about it.

    Conventions of the embedding.
    - Text is a [string] of ASCII characters.  [str.strip], [str.lower],
      [str.isalnum] and the digits of the date patterns are modelled on
      ASCII, and lengths count the characters of such text; the accent
      folding of [normalize_column_name] is modelled for the two-byte UTF-8
      encodings of the accented Latin letters (lead byte 195), which covers
      the accented entries of the constant tables.
    - A spreadsheet is a header (column name and pandas dtype) with rows of
      cells; a cell is empty, text, an integer or a date-time.  A cell that
      is not text is rendered as Python's [str] renders it; what pandas makes
      of whole numeric or date-time columns in [astype(str)] and [iterrows]
      (floats for integer columns with gaps, date-only texts) is not
      modelled.
    - Python exceptions are values of [exn]; code that may raise returns
      [Exc A].  Logging is not modelled.
    - [pandas.to_datetime], [pandas.read_excel] and the formatting of a
      floating-point percentage belong to the environment and are fields of
      [World].  The percentages of the installer breakdown are float64
      values, each modelled by the rational number it stands for, with the
      rounding of every operation.
    - A date-time is naive or carries a time zone; the bounds of the date
      range are naive. *)

From Stdlib Require Import String Ascii List Bool Arith PeanoNat ZArith QArith Lia.
From Stdlib Require Import DecimalString Qpower Qround Qabs Lqa.
Import ListNotations.

Local Open Scope list_scope.
Local Open Scope string_scope.
Local Open Scope nat_scope.

(** ** Exceptions *)

Inductive exn : Type :=
| ValueError
| AttributeError
| TypeError
| OSError.

Definition Exc (A : Type) : Type := (exn + A)%type.

Definition ret {A} (a : A) : Exc A := inr a.
Definition raise {A} (e : exn) : Exc A := inl e.

Definition bind {A B} (m : Exc A) (k : A -> Exc B) : Exc B :=
  match m with
  | inl e => inl e
  | inr a => k a
  end.

(** [try: m  except Exception: h] *)
Definition try_except {A} (m : Exc A) (h : exn -> Exc A) : Exc A :=
  match m with
  | inl e => h e
  | inr a => inr a
  end.

Notation "x <- m ;; k" := (bind m (fun x => k))
  (at level 61, m at next level, right associativity).

(** ** Python strings *)

Module PyStr.

Definition code (c : ascii) : nat := nat_of_ascii c.

(** [str.isspace] on ASCII: TAB, LF, VT, FF, CR, FS, GS, RS, US, space. *)
Definition is_space (c : ascii) : bool :=
  let n := code c in
  ((9 <=? n) && (n <=? 13)) || ((28 <=? n) && (n <=? 32)).

Definition is_digit (c : ascii) : bool :=
  let n := code c in (48 <=? n) && (n <=? 57).

Definition is_upper (c : ascii) : bool :=
  let n := code c in (65 <=? n) && (n <=? 90).

Definition is_lower (c : ascii) : bool :=
  let n := code c in (97 <=? n) && (n <=? 122).

Definition is_alnum (c : ascii) : bool :=
  is_digit c || is_upper c || is_lower c.

Definition lower_char (c : ascii) : ascii :=
  if is_upper c then ascii_of_nat (code c + 32) else c.

Definition upper_char (c : ascii) : ascii :=
  if is_lower c then ascii_of_nat (code c - 32) else c.

Fixpoint map_chars (f : ascii -> ascii) (s : string) : string :=
  match s with
  | EmptyString => EmptyString
  | String c s' => String (f c) (map_chars f s')
  end.

Fixpoint filter_chars (f : ascii -> bool) (s : string) : string :=
  match s with
  | EmptyString => EmptyString
  | String c s' => if f c then String c (filter_chars f s') else filter_chars f s'
  end.

Definition lower (s : string) : string := map_chars lower_char s.
Definition upper (s : string) : string := map_chars upper_char s.

Fixpoint lstrip (s : string) : string :=
  match s with
  | EmptyString => EmptyString
  | String c s' => if is_space c then lstrip s' else s
  end.

(** Trailing whitespace is dropped from the right end inwards. *)
Fixpoint rstrip (s : string) : string :=
  match s with
  | EmptyString => EmptyString
  | String c s' =>
      match rstrip s' with
      | EmptyString => if is_space c then EmptyString else String c EmptyString
      | r => String c r
      end
  end.

Definition strip (s : string) : string := rstrip (lstrip s).

Definition startswith (s pre : string) : bool := String.prefix pre s.

(** [sub in s] *)
Fixpoint contains (sub s : string) : bool :=
  String.prefix sub s ||
  match s with
  | EmptyString => false
  | String _ s' => contains sub s'
  end.

Fixpoint drop (n : nat) (s : string) : string :=
  match n, s with
  | O, _ => s
  | S _, EmptyString => EmptyString
  | S n', String _ s' => drop n' s'
  end.

Fixpoint take (n : nat) (s : string) : string :=
  match n, s with
  | O, _ => EmptyString
  | S _, EmptyString => EmptyString
  | S n', String c s' => String c (take n' s')
  end.

Fixpoint repeat_str (s : string) (n : nat) : string :=
  match n with
  | O => EmptyString
  | S n' => s ++ repeat_str s n'
  end.

(** [sep.join(parts)] *)
Fixpoint join (sep : string) (parts : list string) : string :=
  match parts with
  | [] => EmptyString
  | [p] => p
  | p :: rest => p ++ sep ++ join sep rest
  end.

(** [s.split(sep)] for a non-empty separator: the leftmost occurrence of
    [sep] ends the current piece and scanning resumes after it.  [cur]
    holds the current piece reversed; [fuel] bounds the number of steps,
    [S (length s)] always suffices. *)
Fixpoint split_go (fuel : nat) (sep s : string) (cur : list ascii) : list string :=
  match fuel with
  | O => [string_of_list_ascii (rev cur)]
  | S fuel' =>
      match s with
      | EmptyString => [string_of_list_ascii (rev cur)]
      | String c s' =>
          if String.prefix sep s
          then string_of_list_ascii (rev cur)
                 :: split_go fuel' sep (drop (String.length sep) s) []
          else split_go fuel' sep s' (c :: cur)
      end
  end.

Definition split (s sep : string) : list string :=
  split_go (S (String.length s)) sep s [].

Definition str_of_nat (n : nat) : string :=
  NilZero.string_of_uint (Nat.to_uint n).

Definition str_of_Z (z : Z) : string :=
  NilZero.string_of_int (Z.to_int z).

(** [f"{s:>w}"] and [f"{s:<w}"]: pad with spaces up to width [w]. *)
Definition pad_left (w : nat) (s : string) : string :=
  repeat_str " " (w - String.length s) ++ s.

Definition pad_right (w : nat) (s : string) : string :=
  s ++ repeat_str " " (w - String.length s).

(** [f"{n:0wd}"] *)
Definition zero_pad (w n : nat) : string :=
  let s := str_of_nat n in repeat_str "0" (w - String.length s) ++ s.

(** The value of a run of decimal digits. *)
Fixpoint nat_of_digits_acc (acc : nat) (s : string) : nat :=
  match s with
  | EmptyString => acc
  | String c s' => nat_of_digits_acc (10 * acc + (code c - 48)) s'
  end.

Definition nat_of_digits (s : string) : nat := nat_of_digits_acc 0 s.

End PyStr.

(** ** Date-times *)

Record DateTime : Type := mkDateTime {
  dt_year : nat;
  dt_month : nat;
  dt_day : nat;
  dt_hour : nat;
  dt_minute : nat;
  dt_second : nat
}.

Definition dt_fields (d : DateTime) : list nat :=
  [dt_year d; dt_month d; dt_day d; dt_hour d; dt_minute d; dt_second d].

Fixpoint lex_compare (a b : list nat) : comparison :=
  match a, b with
  | [], [] => Eq
  | [], _ :: _ => Lt
  | _ :: _, [] => Gt
  | x :: a', y :: b' =>
      match Nat.compare x y with
      | Eq => lex_compare a' b'
      | c => c
      end
  end.

Definition dt_compare (a b : DateTime) : comparison :=
  lex_compare (dt_fields a) (dt_fields b).

(** [a <= b] and [a >= b] on date-times. *)
Definition dt_le (a b : DateTime) : bool :=
  match dt_compare a b with Gt => false | _ => true end.

Definition dt_ge (a b : DateTime) : bool := dt_le b a.

Definition is_leap (y : nat) : bool :=
  ((y mod 4 =? 0) && negb (y mod 100 =? 0)) || (y mod 400 =? 0).

Definition days_in_month (y m : nat) : nat :=
  match m with
  | 1 | 3 | 5 | 7 | 8 | 10 | 12 => 31
  | 4 | 6 | 9 | 11 => 30
  | 2 => if is_leap y then 29 else 28
  | _ => 0
  end.

(** The [datetime(...)] constructor: [ValueError] outside the calendar.  The
    year comes from four digits, so it never exceeds MAXYEAR. *)
Definition make_datetime (y m d hh mm ss : nat) : Exc DateTime :=
  if (1 <=? y) && (1 <=? m) && (m <=? 12)
     && (1 <=? d) && (d <=? days_in_month y m)
     && (hh <=? 23) && (mm <=? 59) && (ss <=? 59)
  then ret (mkDateTime y m d hh mm ss)
  else raise ValueError.

(** [str(d)] of a date-time: [YYYY-MM-DD HH:MM:SS]. *)
Definition str_of_datetime (d : DateTime) : string :=
  PyStr.zero_pad 4 (dt_year d) ++ "-" ++ PyStr.zero_pad 2 (dt_month d) ++ "-"
  ++ PyStr.zero_pad 2 (dt_day d) ++ " " ++ PyStr.zero_pad 2 (dt_hour d) ++ ":"
  ++ PyStr.zero_pad 2 (dt_minute d) ++ ":" ++ PyStr.zero_pad 2 (dt_second d).

(** What the parser yields for a cell that holds a date: a [datetime]
    without a time zone, or a [Timestamp] that carries one, given by its
    offset from UTC in minutes.  [strptime] yields the first kind only;
    [pandas.to_datetime] yields either. *)
Inductive Timestamp : Type :=
| Naive (d : DateTime)
| Aware (d : DateTime) (utcoffset : Z).

(** The offset as [str] writes it: [+HH:MM] or [-HH:MM]. *)
Definition offset_text (utcoffset : Z) : string :=
  (if (utcoffset <? 0)%Z then "-" else "+")
  ++ PyStr.zero_pad 2 (Z.to_nat (Z.abs utcoffset / 60)) ++ ":"
  ++ PyStr.zero_pad 2 (Z.to_nat (Z.abs utcoffset mod 60)).

(** ** The two date patterns

    Both regular expressions are sequences of single-character classes, so a
    match has a fixed length and [search] is the leftmost position at which
    the sequence matches. *)

Inductive CharClass : Type :=
| Digit
| OneOf (alts : string).

Definition class_matches (cl : CharClass) (c : ascii) : bool :=
  match cl with
  | Digit => PyStr.is_digit c
  | OneOf alts => PyStr.contains (String c EmptyString) alts
  end.

Fixpoint match_here (p : list CharClass) (s : string) : bool :=
  match p, s with
  | [], _ => true
  | _ :: _, EmptyString => false
  | cl :: p', String c s' => class_matches cl c && match_here p' s'
  end.

(** [pattern.search(s)]: the text from the start of the leftmost match. *)
Fixpoint regex_search (p : list CharClass) (s : string) : option string :=
  if match_here p s then Some s
  else match s with
       | EmptyString => None
       | String _ s' => regex_search p s'
       end.

Definition ymd_pattern : list CharClass :=
  [Digit; Digit; Digit; Digit; OneOf "-"; Digit; Digit; OneOf "-"; Digit; Digit].

(** [(\d{4}-\d{2}-\d{2})[ _T-](\d{2})[-:](\d{2})[-:](\d{2})] *)
Definition DATE_WITH_TIME_REGEX : list CharClass :=
  ymd_pattern ++ [OneOf " _T-"; Digit; Digit; OneOf "-:"; Digit; Digit;
                  OneOf "-:"; Digit; Digit].

(** [(\d{4}-\d{2}-\d{2})] *)
Definition DATE_ONLY_REGEX : list CharClass := ymd_pattern.

(** [datetime.strptime(s, "%Y-%m-%d")] on the texts group 1 can hold: four
    digits, two digits, two digits.  Month 01..12 and day 01..31 are what the
    directive patterns accept; the constructor checks the calendar. *)
Definition strptime_date (s : string) : Exc DateTime :=
  if match_here ymd_pattern s && (String.length s =? 10)
  then make_datetime (PyStr.nat_of_digits (substring 0 4 s))
                     (PyStr.nat_of_digits (substring 5 2 s))
                     (PyStr.nat_of_digits (substring 8 2 s)) 0 0 0
  else raise ValueError.

(** [datetime.strptime(s, "%Y-%m-%d %H:%M:%S")] on the rebuilt text
    [group1 group2:group3:group4]. *)
Definition strptime_datetime (s : string) : Exc DateTime :=
  if match_here (ymd_pattern ++ [OneOf " "; Digit; Digit; OneOf ":"; Digit; Digit;
                                 OneOf ":"; Digit; Digit]) s
     && (String.length s =? 19)
  then make_datetime (PyStr.nat_of_digits (substring 0 4 s))
                     (PyStr.nat_of_digits (substring 5 2 s))
                     (PyStr.nat_of_digits (substring 8 2 s))
                     (PyStr.nat_of_digits (substring 11 2 s))
                     (PyStr.nat_of_digits (substring 14 2 s))
                     (PyStr.nat_of_digits (substring 17 2 s))
  else raise ValueError.

(** ** Cells and the environment *)

Inductive Cell : Type :=
| CNull                       (* None, NaN, NaT *)
| CStr (s : string)
| CInt (z : Z)
| CDate (d : DateTime)
| CDateTz (d : DateTime) (utcoffset : Z).  (* a date-time with a time zone *)

(** [pd.isna(value)] *)
Definition isna (v : Cell) : bool :=
  match v with CNull => true | _ => false end.

(** [str(value)]; the analyser takes it of cells that are not empty. *)
Definition py_str (v : Cell) : string :=
  match v with
  | CNull => "nan"
  | CStr s => s
  | CInt z => PyStr.str_of_Z z
  | CDate d => str_of_datetime d
  | CDateTz d utcoffset => str_of_datetime d ++ offset_text utcoffset
  end.

Inductive Dtype : Type :=
| DObject
| DInt
| DFloat
| DDatetime                   (* datetime64[ns] *)
| DDatetimeTz.                (* datetime64[ns, tz] *)

Record ColInfo : Type := mkCol {
  col_name : string;
  col_dtype : Dtype
}.

Record DataFrame : Type := mkDF {
  df_header : list ColInfo;
  df_rows : list (list Cell)
}.

(** What the analyser takes from pandas: [to_datetime(text, errors='coerce')]
    gives a date-time, with or without a time zone, NaT ([None]) or raises;
    [read_excel(path)] gives a sheet or raises. *)
Record World : Type := mkWorld {
  pd_to_datetime : string -> Exc (option Timestamp);
  pd_read_excel : string -> Exc DataFrame;
  (** the text of [f"{count / total * 100:{width}.1f}"] for [total > 0],
      a binary floating-point division and rounding *)
  format_percentage : nat -> nat -> nat -> string
}.

(** ** [parse_datetime_value] *)

Definition parse_datetime_value (w : World) (value : Cell) : Exc (option Timestamp) :=
  if isna value then ret None
  else
    let value_str := py_str value in
    let layer3 :=
      try_except (pd_to_datetime w value_str) (fun _ => ret None) in
    let layer2 :=
      match regex_search DATE_ONLY_REGEX value_str with
      | Some m =>
          try_except (d <- strptime_date (substring 0 10 m) ;; ret (Some (Naive d)))
                     (fun _ => layer3)
      | None => layer3
      end in
    match regex_search DATE_WITH_TIME_REGEX value_str with
    | Some m =>
        let dt_str := substring 0 10 m ++ " " ++ substring 11 2 m ++ ":"
                      ++ substring 14 2 m ++ ":" ++ substring 17 2 m in
        try_except (d <- strptime_datetime dt_str ;; ret (Some (Naive d)))
                   (fun _ => layer2)
    | None => layer2
    end.

(** ** Data frames *)

Definition columns (df : DataFrame) : list string :=
  map col_name (df_header df).

Fixpoint index_of (name : string) (names : list string) : option nat :=
  match names with
  | [] => None
  | n :: rest =>
      if (n =? name)%string then Some 0
      else option_map S (index_of name rest)
  end.

(** [row[col]]: every lookup of the analyser uses a name taken from
    [df.columns]; a missing name or a short row reads as the empty cell. *)
Definition cell_at (df : DataFrame) (col : string) (row : list Cell) : Cell :=
  match index_of col (columns df) with
  | Some i => nth i row CNull
  | None => CNull
  end.

(** [df[col]] *)
Definition column_values (df : DataFrame) (col : string) : list Cell :=
  map (cell_at df col) (df_rows df).

(** [df[col].dtype] *)
Definition dtype_of (df : DataFrame) (col : string) : Dtype :=
  match find (fun c => (col_name c =? col)%string) (df_header df) with
  | Some c => col_dtype c
  | None => DObject
  end.

Definition is_object (d : Dtype) : bool :=
  match d with DObject => true | _ => false end.

(** [pd.api.types.is_datetime64_any_dtype] *)
Definition is_datetime64 (d : Dtype) : bool :=
  match d with DDatetime | DDatetimeTz => true | _ => false end.

(** [series.dropna()] *)
Definition dropna (cells : list Cell) : list Cell :=
  filter (fun v => negb (isna v)) cells.

(** [len(df)] *)
Definition len_df (df : DataFrame) : nat := List.length (df_rows df).

(** [df.empty] *)
Definition df_empty (df : DataFrame) : bool :=
  match df_header df, df_rows df with
  | [], _ => true
  | _, [] => true
  | _, _ => false
  end.

(** [df[mask]]: rows are selected, the header with its dtypes is kept. *)
Definition select_rows (keep : list Cell -> bool) (df : DataFrame) : DataFrame :=
  mkDF (df_header df) (filter keep (df_rows df)).

Fixpoint set_nth {A} (i : nat) (x : A) (l : list A) : list A :=
  match i, l with
  | _, [] => []
  | O, _ :: l' => x :: l'
  | S i', y :: l' => y :: set_nth i' x l'
  end.

(** The cell that holds a parsed date: NaT is the empty cell. *)
Definition cell_of_date (v : option Timestamp) : Cell :=
  match v with
  | Some (Naive d) => CDate d
  | Some (Aware d utcoffset) => CDateTz d utcoffset
  | None => CNull
  end.

(** Both without a time zone, or both with the same one. *)
Definition same_zone (a b : Timestamp) : bool :=
  match a, b with
  | Naive _, Naive _ => true
  | Aware _ x, Aware _ y => (x =? y)%Z
  | _, _ => false
  end.

Fixpoint first_date (values : list (option Timestamp)) : option Timestamp :=
  match values with
  | [] => None
  | Some t :: _ => Some t
  | None :: rest => first_date rest
  end.

(** The dtype pandas infers for the results of [apply]: datetime64 when the
    values that are not NaT have no time zone (or there is none),
    datetime64 with a time zone when they all carry the same one, and
    object for a mixture, which is then a column of [Timestamp] objects. *)
Definition infer_dates_dtype (values : list (option Timestamp)) : Dtype :=
  match first_date values with
  | None => DDatetime
  | Some base =>
      if forallb (fun v => match v with
                           | Some t => same_zone base t
                           | None => true
                           end) values
      then match base with
           | Naive _ => DDatetime
           | Aware _ _ => DDatetimeTz
           end
      else DObject
  end.

(** [df[col] = df[col].apply(f)] for an existing column, [values] being
    the results of [f]: the cells are replaced row by row and the column
    takes the inferred dtype.  [apply] on a column without rows gives the
    column back as it is. *)
Definition assign_datetimes (df : DataFrame) (col : string)
           (values : list (option Timestamp)) : DataFrame :=
  match index_of col (columns df), values with
  | None, _ => df
  | Some _, [] => df
  | Some i, _ :: _ =>
      mkDF (set_nth i (mkCol col (infer_dates_dtype values)) (df_header df))
           (map (fun rv => set_nth i (cell_of_date (snd rv)) (fst rv))
                (combine (df_rows df) values))
  end.

(** ** Column matcher *)

(** The base letter of the accented Latin letter encoded by the byte pair
    (195, b): NFKD followed by the removal of the combining mark. *)
Definition fold_accent (b : nat) : option ascii :=
  let within lo hi := (lo <=? b) && (b <=? hi) in
  if within 128 133 then Some "A"%char
  else if b =? 135 then Some "C"%char
  else if within 136 139 then Some "E"%char
  else if within 140 143 then Some "I"%char
  else if b =? 145 then Some "N"%char
  else if within 146 150 then Some "O"%char
  else if within 153 156 then Some "U"%char
  else if b =? 157 then Some "Y"%char
  else if within 160 165 then Some "a"%char
  else if b =? 167 then Some "c"%char
  else if within 168 171 then Some "e"%char
  else if within 172 175 then Some "i"%char
  else if b =? 177 then Some "n"%char
  else if within 178 182 then Some "o"%char
  else if within 185 188 then Some "u"%char
  else if (b =? 189) || (b =? 191) then Some "y"%char
  else None.

Fixpoint strip_accents (s : string) : string :=
  match s with
  | EmptyString => EmptyString
  | String c1 t =>
      match t with
      | EmptyString => s
      | String c2 s' =>
          if PyStr.code c1 =? 195 then
            match fold_accent (PyStr.code c2) with
            | Some a => String a (strip_accents s')
            | None => String c1 (strip_accents t)
            end
          else String c1 (strip_accents t)
      end
  end.

Definition normalize_column_name (name : string) : string :=
  let without_accents := strip_accents name in
  PyStr.filter_chars PyStr.is_alnum (PyStr.lower without_accents).

Definition find_matching_columns (df : DataFrame) (target_name : string) : list string :=
  let norm_target := normalize_column_name target_name in
  filter (fun column =>
            let norm_column := normalize_column_name column in
            if (norm_column =? "")%string then false
            else (norm_target =? norm_column)%string
                 || PyStr.contains norm_target norm_column
                 || PyStr.contains norm_column norm_target)
         (columns df).

(** ** Constant tables *)

Definition CATEGORY_COLUMNS : list string :=
  ["categoria"; "categoría"; "category"; "tipo"; "type";
   "motivo"; "reason"; "clasificacion"; "clasificación";
   "resultado"; "result"; "estado"; "status";
   "categoria_principal"; "categoria_secundaria";
   "categoria_final"; "categoria_detectada"].

Definition SPECIFIC_CATEGORY_COLUMNS : list string :=
  ["categoria_general"; "categoria_especifica"; "subtipo_categoria";
   "categoria_especifica_1"; "subtipo_categoria_1";
   "categoria_especifica_2"; "subtipo_categoria_2";
   "categoria_especifica_3"; "subtipo_categoria_3";
   "categoria"; "tipo"; "motivo"; "subcategoria"; "subtipo"].

Definition INSTALLER_COLUMNS : list string :=
  ["agente_instalador"; "instalador"; "tecnico_instalador";
   "tecnico"; "agenteinstalador"; "instalador_agente"].

Definition SIN_ASIGNAR : string := "Sin asignar".

(** ** Column identifiers *)

(** The loop [for target in targets: matches = ...; if matches: return matches[0]]. *)
Fixpoint first_target_match (df : DataFrame) (targets : list string) : option string :=
  match targets with
  | [] => None
  | target :: rest =>
      match find_matching_columns df target with
      | m :: _ => Some m
      | [] => first_target_match df rest
      end
  end.

(** [any(keyword in text for keyword in keywords)] *)
Definition any_keyword (keywords : list string) (text : string) : bool :=
  existsb (fun keyword => PyStr.contains keyword text) keywords.

Definition identify_installer_column (df : DataFrame) : option string :=
  match first_target_match df INSTALLER_COLUMNS with
  | Some c => Some c
  | None =>
      find (fun col => any_keyword ["instalador"; "tecnico"; "agente"]
                                   (normalize_column_name col))
           (columns df)
  end.

Definition identify_category_column (df : DataFrame) : option string :=
  let candidate_targets := "categoria_general" :: CATEGORY_COLUMNS in
  match first_target_match df candidate_targets with
  | Some c => Some c
  | None =>
      match find (fun col => any_keyword ["categoria"; "category"; "tipo"; "motivo"]
                                         (normalize_column_name col))
                 (columns df) with
      | Some c => Some c
      | None =>
          find (fun col =>
                  is_object (dtype_of df col)
                  && negb (existsb (PyStr.startswith (PyStr.lower col))
                                   ["id"; "fecha"; "date"; "hora"; "time"]))
               (columns df)
      end
  end.

Definition date_column_names : list string :=
  ["fecha"; "date"; "fecha_llamada"; "fecha_hora"; "timestamp";
   "fecha_inicio"; "fecha_fin"; "fecha_creacion"; "created_date";
   "dia"; "day"; "fecha_registro"; "fecha_contacto"; "archivo_procesado"].

(** [for date_col in names: if date_col in lowered: return
    df.columns[lowered.index(date_col)]] *)
Fixpoint first_exact_date_column (cols : list string) (names : list string) : option string :=
  match names with
  | [] => None
  | date_col :: rest =>
      match find (fun col => (PyStr.lower col =? date_col)%string) cols with
      | Some original_col => Some original_col
      | None => first_exact_date_column cols rest
      end
  end.

Definition has_date_pattern (text : string) : bool :=
  match regex_search DATE_WITH_TIME_REGEX text, regex_search DATE_ONLY_REGEX text with
  | None, None => false
  | _, _ => true
  end.

Definition identify_date_column (df : DataFrame) : option string :=
  match first_exact_date_column (columns df) date_column_names with
  | Some c => Some c
  | None =>
      match find (fun col => any_keyword ["fecha"; "date"; "dia"; "time"; "archivo"]
                                         (normalize_column_name col))
                 (columns df) with
      | Some c => Some c
      | None =>
          find (fun col =>
                  match dropna (column_values df col) with
                  | [] => false
                  | sample :: _ => has_date_pattern (py_str sample)
                  end)
               (columns df)
      end
  end.

(** ** Date-range filter *)

Record Analyzer : Type := mkAnalyzer {
  start_date : option DateTime;
  end_date : option DateTime
}.

(** [for x in xs: f(x)] collecting the results; the first raise ends it. *)
Fixpoint map_exc {A B} (f : A -> Exc B) (xs : list A) : Exc (list B) :=
  match xs with
  | [] => ret []
  | x :: rest =>
      y <- f x ;;
      ys <- map_exc f rest ;;
      ret (y :: ys)
  end.

(** The date-time a cell holds that is compared with a bound; NaT
    otherwise. *)
Definition cell_datetime (v : Cell) : option DateTime :=
  match v with CDate d => Some d | _ => None end.

(** [series >= bound] and [series <= bound] on one cell: NaT compares false. *)
Definition cell_ge (bound : DateTime) (v : Cell) : bool :=
  match cell_datetime v with Some d => dt_ge d bound | None => false end.

Definition cell_le (bound : DateTime) (v : Cell) : bool :=
  match cell_datetime v with Some d => dt_le d bound | None => false end.

Definition cell_aware (v : Cell) : bool :=
  match v with CDateTz _ _ => true | _ => false end.

(** The bounds are [datetime] values without a time zone.  Comparing a
    column with such a bound raises [TypeError] when the column has a
    time zone, by its dtype or in one of its [Timestamp] objects. *)
Definition comparison_raises (df : DataFrame) (col : string) : bool :=
  match dtype_of df col with
  | DDatetimeTz => true
  | _ => existsb cell_aware (column_values df col)
  end.

(** [df[test(df[col])]] *)
Definition select_where (test : Cell -> bool) (col : string) (df : DataFrame)
  : Exc DataFrame :=
  if comparison_raises df col then raise TypeError
  else ret (select_rows (fun row => test (cell_at df col row)) df).

(** The assignment [df[date_column] = ...] changes the caller's frame in
    place, so what the [except] branch returns as [df] is the frame with
    the parsed column once the assignment is done ([df1] below), and the
    frame as it was when the raise comes before it. *)
Definition filter_by_date_range (w : World) (self : Analyzer) (df : DataFrame)
  : Exc DataFrame :=
  match start_date self, end_date self with
  | None, None => ret df
  | _, _ =>
      match identify_date_column df with
      | None => ret df
      | Some date_column =>
          match (if is_datetime64 (dtype_of df date_column) then ret df
                 else parsed <- map_exc (parse_datetime_value w)
                                        (column_values df date_column) ;;
                      ret (assign_datetimes df date_column parsed)) with
          | inl _ => ret df
          | inr df1 =>
              try_except
                (filtered1 <- match start_date self with
                              | Some s => select_where (cell_ge s) date_column df1
                              | None => ret df1
                              end ;;
                 filtered2 <- match end_date self with
                              | Some e => select_where (cell_le e) date_column filtered1
                              | None => ret filtered1
                              end ;;
                 ret filtered2)
                (fun _ => ret df1)
          end
      end
  end.

(** ** Counters

    A [collections.Counter] is a dict: keys in insertion order with their
    counts. *)

Definition Counter : Type := list (string * nat).

(** [c[key] = c.get(key, 0) + n] *)
Fixpoint counter_add (key : string) (n : nat) (c : Counter) : Counter :=
  match c with
  | [] => [(key, n)]
  | (k, m) :: c' =>
      if (k =? key)%string then (k, m + n) :: c'
      else (k, m) :: counter_add key n c'
  end.

(** [c[key]], zero when absent *)
Fixpoint counter_get (key : string) (c : Counter) : nat :=
  match c with
  | [] => 0
  | (k, m) :: c' => if (k =? key)%string then m else counter_get key c'
  end.

(** [Counter(iterable)] *)
Definition counter_of (items : list string) : Counter :=
  fold_left (fun c item => counter_add item 1 c) items [].

(** [c.update(other)] *)
Definition counter_update (c other : Counter) : Counter :=
  fold_left (fun acc kv => counter_add (fst kv) (snd kv) acc) other c.

(** [sum(c.values())] *)
Definition counter_total (c : Counter) : nat :=
  fold_right (fun kv acc => snd kv + acc) 0 c.

(** [sorted(items, key=count, reverse=True)]: stable, so equal counts keep
    their insertion order. *)
Fixpoint insert_by_count (x : string * nat) (sorted : list (string * nat))
  : list (string * nat) :=
  match sorted with
  | [] => [x]
  | y :: rest =>
      if snd x <? snd y then y :: insert_by_count x rest
      else x :: sorted
  end.

Definition sort_by_count (c : Counter) : list (string * nat) :=
  fold_right insert_by_count [] c.

(** [c.most_common(n)] and [c.most_common()] *)
Definition most_common (n : option nat) (c : Counter) : list (string * nat) :=
  match n with
  | Some k => firstn k (sort_by_count c)
  | None => sort_by_count c
  end.

(** [series.astype(str).str.strip()] over the non-empty cells, tallied. *)
Definition count_stripped (cells : list Cell) : Counter :=
  counter_of (map (fun v => PyStr.strip (py_str v)) cells).

(** The helper that expands comma lists.  No method of the analyser calls
    it. *)
Definition split_comma_categories (categories_series : list Cell) : list string :=
  flat_map
    (fun category =>
       let category_str := PyStr.strip (py_str category) in
       if PyStr.contains "," category_str
       then filter (fun cat => negb (cat =? "")%string)
                   (map PyStr.strip (PyStr.split category_str ","))
       else [category_str])
    (dropna categories_series).

(** ** Detail records and the bundle *)

Record RouteRecord : Type := mkRoute {
  categoria_general : string;
  categoria_especifica : string;
  subtipo : string;
  ruta_completa : string;
  agente_instalador : string
}.

Record InstallerRecord : Type := mkInstaller {
  ir_route : RouteRecord;
  Frecuencia : nat;
  Porcentaje_Agente : Q
}.

Inductive DetailRecord : Type :=
| RouteRow (r : RouteRecord)
| InstallerRow (r : InstallerRecord).

(** A value of the detailed-analysis dict: a Counter or a list of dicts. *)
Inductive BundleValue : Type :=
| BCounter (c : Counter)
| BList (l : list DetailRecord).

Definition Bundle : Type := list (string * BundleValue).

(** [d[key] = value]: an existing key keeps its position. *)
Fixpoint dict_set {V} (key : string) (value : V) (d : list (string * V))
  : list (string * V) :=
  match d with
  | [] => [(key, value)]
  | (k, v) :: d' =>
      if (k =? key)%string then (k, value) :: d'
      else (k, v) :: dict_set key value d'
  end.

Fixpoint dict_get {V} (key : string) (d : list (string * V)) : option V :=
  match d with
  | [] => None
  | (k, v) :: d' => if (k =? key)%string then Some v else dict_get key d'
  end.

(** ** Combined routes *)

Definition ROUTE_SEP : string := " | ".

(** The scan of [df.columns] that finds the general column (the last one
    whose lowered name is exactly [categoria_general]) and collects the
    specific and the subtype columns in column order. *)
Definition classify_columns (cols : list string)
  : option string * list string * list string :=
  fold_left
    (fun acc col =>
       let '(general, especifica_cols, subtipo_cols) := acc in
       let col_lower := PyStr.lower col in
       if (col_lower =? "categoria_general")%string
       then (Some col, especifica_cols, subtipo_cols)
       else if PyStr.contains "categoria_especifica" col_lower
       then (general, (especifica_cols ++ [col])%list, subtipo_cols)
       else if PyStr.contains "subtipo_categoria" col_lower
       then (general, especifica_cols, (subtipo_cols ++ [col])%list)
       else acc)
    cols (None, [], []).

(** [for c in cols: if not pd.isna(row[c]): parts.append(str(row[c]).strip()); break] *)
Fixpoint first_present (df : DataFrame) (cols : list string) (row : list Cell)
  : list string :=
  match cols with
  | [] => []
  | c :: rest =>
      if isna (cell_at df c row) then first_present df rest row
      else [PyStr.strip (py_str (cell_at df c row))]
  end.

Definition installer_of_row (df : DataFrame) (installer_column : option string)
           (row : list Cell) : string :=
  match installer_column with
  | Some ic =>
      if negb (ic =? "")%string && existsb (String.eqb ic) (columns df) then
        let raw_installer := cell_at df ic row in
        if isna raw_installer
           || (PyStr.strip (py_str raw_installer) =? "")%string
        then SIN_ASIGNAR
        else PyStr.strip (py_str raw_installer)
      else SIN_ASIGNAR
  | None => SIN_ASIGNAR
  end.

Definition combined_parts (df : DataFrame) (general : string)
           (especifica_cols subtipo_cols : list string) (row : list Cell)
  : list string :=
  ([PyStr.strip (py_str (cell_at df general row))]
     ++ first_present df especifica_cols row
     ++ first_present df subtipo_cols row)%list.

(** The dict appended to [combined_details]: the fields are read off the
    list of parts by position. *)
Definition record_of_parts (parts : list string) (installer_value : string)
  : RouteRecord :=
  mkRoute (nth 0 parts "")
          (if 1 <? List.length parts then nth 1 parts "" else "")
          (if 2 <? List.length parts then nth 2 parts "" else "")
          (PyStr.join ROUTE_SEP parts)
          installer_value.

(** One turn of the loop over [df.iterrows()]: the record the row adds, if
    it adds one. *)
Definition route_of_row (df : DataFrame) (general : string)
           (especifica_cols subtipo_cols : list string)
           (installer_column : option string) (row : list Cell)
  : option RouteRecord :=
  if isna (cell_at df general row) then None
  else
    let parts := combined_parts df general especifica_cols subtipo_cols row in
    if 1 <? List.length parts
    then Some (record_of_parts parts (installer_of_row df installer_column row))
    else None.

Definition analyze_combined_categories (df : DataFrame)
  : Counter * list RouteRecord :=
  let '(general, especifica_cols, subtipo_cols) := classify_columns (columns df) in
  let installer_column := identify_installer_column df in
  match general with
  | None => ([], [])
  | Some g =>
      if (g =? "")%string then ([], [])
      else
        fold_left
          (fun acc row =>
             match route_of_row df g especifica_cols subtipo_cols installer_column row with
             | Some r =>
                 (counter_add (ruta_completa r) 1 (fst acc), (snd acc ++ [r])%list)
             | None => acc
             end)
          (df_rows df) ([], [])
  end.

(** ** float64

    A float64 is modelled by the rational number it stands for.
    [float64 q] is the float64 nearest to [q], the one with the even
    significand of two that are equally near: a significand of 53 bits and
    a last place no finer than 2^-1074.  Overflow to infinity is not
    modelled; the numbers rounded by the analyser are counts and
    percentages. *)

(** The integer nearest to [s], the even one of two that are equally near. *)
Definition round_half_even (s : Q) : Z :=
  let f := Qfloor s in
  match (s - inject_Z f ?= 1 # 2)%Q with
  | Lt => f
  | Gt => (f + 1)%Z
  | Eq => if Z.even f then f else (f + 1)%Z
  end.

(** [floor (log2 q)] for [q > 0]: the logarithms of numerator and
    denominator give it up to one. *)
Definition binade (q : Q) : Z :=
  let e0 := (Z.log2 (Qnum q) - Z.log2 (Zpos (Qden q)))%Z in
  if Qle_bool (2 ^ e0)%Q q then e0 else (e0 - 1)%Z.

(** The unit in the last place of the float64 values around [q > 0]. *)
Definition ulp (q : Q) : Q := (2 ^ Z.max (binade q - 52) (-1074))%Q.

Definition float64_pos (q : Q) : Q :=
  (inject_Z (round_half_even (q / ulp q)) * ulp q)%Q.

Definition float64 (q : Q) : Q :=
  match (q ?= 0)%Q with
  | Eq => 0%Q
  | Gt => float64_pos q
  | Lt => (- float64_pos (- q))%Q
  end.

(** An int64 as a float64, and the float64 quotient and product. *)
Definition float_of_int (z : Z) : Q := float64 (inject_Z z).

Definition float_div (a b : Q) : Q := float64 (a / b)%Q.

Definition float_mul (a b : Q) : Q := float64 (a * b)%Q.

(** ** Installer breakdown *)

Definition group_key (r : RouteRecord) : list string :=
  [agente_instalador r; categoria_general r; categoria_especifica r;
   subtipo r; ruta_completa r].

Fixpoint keys_compare (a b : list string) : comparison :=
  match a, b with
  | [], [] => Eq
  | [], _ :: _ => Lt
  | _ :: _, [] => Gt
  | x :: a', y :: b' =>
      match String.compare x y with
      | Eq => keys_compare a' b'
      | c => c
      end
  end.

(** [groupby(keys).size()]: one entry per distinct key, in ascending key
    order, with the number of rows of the group. *)
Fixpoint group_insert (r : RouteRecord) (groups : list (RouteRecord * nat))
  : list (RouteRecord * nat) :=
  match groups with
  | [] => [(r, 1)]
  | (g, n) :: rest =>
      match keys_compare (group_key r) (group_key g) with
      | Lt => (r, 1) :: groups
      | Eq => (g, n + 1) :: rest
      | Gt => (g, n) :: group_insert r rest
      end
  end.

Definition group_sizes (records : list RouteRecord) : list (RouteRecord * nat) :=
  fold_left (fun groups r => group_insert r groups) records [].

(** [groupby('agente_instalador')['Frecuencia'].transform('sum')] for one row *)
Definition total_agente (groups : list (RouteRecord * nat)) (agent : string) : nat :=
  fold_right
    (fun g acc => if (agente_instalador (fst g) =? agent)%string then snd g + acc else acc)
    0 groups.

(** [sort_values(by=[agent, Frecuencia], ascending=[True, False])]:
    [precedes y x] when [y] sorts strictly before [x]; rows that compare
    equal keep their order. *)
Definition precedes (x y : InstallerRecord) : bool :=
  match String.compare (agente_instalador (ir_route x)) (agente_instalador (ir_route y)) with
  | Lt => true
  | Gt => false
  | Eq => Frecuencia y <? Frecuencia x
  end.

Fixpoint insert_sorted (x : InstallerRecord) (sorted : list InstallerRecord)
  : list InstallerRecord :=
  match sorted with
  | [] => [x]
  | y :: rest =>
      if precedes y x then y :: insert_sorted x rest
      else x :: sorted
  end.

Definition sort_breakdown (rows : list InstallerRecord) : list InstallerRecord :=
  fold_right insert_sorted [] rows.

Definition generate_installer_breakdown (combined_details : list RouteRecord)
  : list InstallerRecord :=
  match combined_details with
  | [] => []
  | _ =>
      let df_details :=
        filter (fun r => negb (agente_instalador r =? SIN_ASIGNAR)%string)
               combined_details in
      match df_details with
      | [] => []
      | _ =>
          let grouped := group_sizes df_details in
          let rows :=
            map (fun g =>
                   let total := total_agente grouped (agente_instalador (fst g)) in
                   mkInstaller (fst g) (snd g)
                               (float_mul
                                  (float_div (float_of_int (Z.of_nat (snd g)))
                                             (float_of_int (Z.of_nat total)))
                                  100))
                grouped in
          sort_breakdown rows
      end
  end.

(** ** Per-file analysis *)

Definition Result : Type := (Counter * nat * Bundle)%type.

Definition empty_result : Result := ([], 0, []).

(** The double loop over the candidate names and their matching columns;
    the state is the dict built so far and the set of processed columns. *)
Definition tally_specific_columns (df : DataFrame) : Bundle * list string :=
  fold_left
    (fun state col =>
       fold_left
         (fun st match_ =>
            let '(detailed_analysis, processed_columns) := st in
            if existsb (String.eqb match_) processed_columns then st
            else
              match dropna (column_values df match_) with
              | [] => st
              | values_raw =>
                  (dict_set match_ (BCounter (count_stripped values_raw)) detailed_analysis,
                   match_ :: processed_columns)
              end)
         (find_matching_columns df col) state)
    SPECIFIC_CATEGORY_COLUMNS ([], []).

Definition analyze_detailed_categories (df : DataFrame) : Bundle :=
  let detailed0 := fst (tally_specific_columns df) in
  let '(combined_counter, combined_details) := analyze_combined_categories df in
  let detailed1 :=
    match combined_counter with
    | [] => detailed0
    | _ => dict_set "categoria_combinada" (BCounter combined_counter) detailed0
    end in
  match combined_details with
  | [] => detailed1
  | _ =>
      let detailed2 :=
        dict_set "categoria_combinada_detalle"
                 (BList (map RouteRow combined_details)) detailed1 in
      match identify_installer_column df with
      | None => detailed2
      | Some installer_column =>
          if (installer_column =? "")%string then detailed2
          else
            match generate_installer_breakdown combined_details with
            | [] => detailed2
            | installer_summary =>
                dict_set "agente_instalador_detalle"
                         (BList (map InstallerRow installer_summary)) detailed2
            end
      end
  end.

(** The body of the [try] of [analyze_excel_file]. *)
Definition analyze_excel_file_body (w : World) (self : Analyzer) (file_path : string)
  : Exc Result :=
  df <- pd_read_excel w file_path ;;
  if df_empty df then ret empty_result
  else
    df <- filter_by_date_range w self df ;;
    if df_empty df then ret empty_result
    else
      match identify_category_column df with
      | None => ret ([], len_df df, [])
      | Some category_column =>
          match dropna (column_values df category_column) with
          | [] => ret ([], len_df df, [])
          | categories_raw =>
              let category_counts := count_stripped categories_raw in
              let detailed_analysis := analyze_detailed_categories df in
              ret (category_counts, len_df df, detailed_analysis)
          end
      end.

Definition analyze_excel_file (w : World) (self : Analyzer) (file_path : string)
  : Exc Result :=
  try_except (analyze_excel_file_body w self file_path)
             (fun _ => ret empty_result).

(** ** Multi-file merge *)

(** One turn of [for key, value in file_detailed.items()].  A key that
    already holds a value of the other kind makes the method call fail:
    a list has no [update], a Counter has no [extend]. *)
Definition merge_entry (total : Bundle) (entry : string * BundleValue) : Exc Bundle :=
  let (key, value) := entry in
  match value with
  | BCounter c =>
      match dict_get key total with
      | None => ret (dict_set key (BCounter (counter_update [] c)) total)
      | Some (BCounter t) => ret (dict_set key (BCounter (counter_update t c)) total)
      | Some (BList _) => raise AttributeError
      end
  | BList l =>
      match dict_get key total with
      | None => ret (dict_set key (BList l) total)
      | Some (BList t) => ret (dict_set key (BList (t ++ l)%list) total)
      | Some (BCounter _) => raise AttributeError
      end
  end.

(** A loop whose body may raise. *)
Fixpoint fold_exc {S A} (f : S -> A -> Exc S) (xs : list A) (s : S) : Exc S :=
  match xs with
  | [] => ret s
  | x :: rest =>
      s' <- f s x ;;
      fold_exc f rest s'
  end.

Definition merge_result (total : Result) (file_result : Result) : Exc Result :=
  let '(total_counter, total_rows, total_detailed_analysis) := total in
  let '(file_counter, file_rows, file_detailed) := file_result in
  detailed <- fold_exc merge_entry file_detailed total_detailed_analysis ;;
  ret (counter_update total_counter file_counter, total_rows + file_rows, detailed).

Definition analyze_multiple_files (w : World) (self : Analyzer) (file_paths : list string)
  : Exc Result :=
  fold_exc (fun total file_path =>
              file_result <- analyze_excel_file w self file_path ;;
              merge_result total file_result)
           file_paths empty_result.

(** ** Text report *)

(** List concatenation, where [++] is read on strings. *)
Local Infix "+++" := (@List.app _) (at level 60, right associativity).

Definition NEWLINE : string := String (ascii_of_nat 10) EmptyString.

(** [f"{n:,}"] *)
Fixpoint commas_rev (digits_rev : list ascii) (k : nat) : list ascii :=
  match digits_rev with
  | [] => []
  | d :: rest =>
      if k =? 3 then (","%char :: d :: commas_rev rest 1)%list
      else (d :: commas_rev rest (S k))%list
  end.

Definition format_thousands (n : nat) : string :=
  string_of_list_ascii
    (rev (commas_rev (rev (list_ascii_of_string (PyStr.str_of_nat n))) 0)).

(** [(count / total_rows * 100) if total_rows > 0 else 0] formatted with
    [{:w.1f}] *)
Definition percentage_text (w : World) (width count total_rows : nat) : string :=
  if 0 <? total_rows then format_percentage w width count total_rows
  else PyStr.pad_left width "0.0".

(** [enumerate(items, 1)] *)
Definition enumerate1 {A} (items : list A) : list (nat * A) :=
  combine (seq 1 (List.length items)) items.

(** [value[:45] + "..." if len(value) > 45 else value] *)
Definition display_value (value : string) : string :=
  if 45 <? String.length value then PyStr.take 45 value ++ "..." else value.

(** [bool(v)] and [len(v)] of a bundle value *)
Definition bundle_value_len (v : BundleValue) : nat :=
  match v with
  | BCounter c => List.length c
  | BList l => List.length l
  end.

(** The lines one bundle entry adds to the report.  [most_common] is a
    method of Counter only. *)
Definition detail_section (w : World) (total_rows : nat)
           (entry : string * BundleValue) : Exc (list string) :=
  let (column_name, column_counter) := entry in
  if 0 <? bundle_value_len column_counter then
    let head :=
      [NEWLINE ++ "🔍 ANÁLISIS DE '" ++ PyStr.upper column_name ++ "':";
       "Valores únicos encontrados: " ++ PyStr.str_of_nat (bundle_value_len column_counter);
       PyStr.repeat_str "-" 60] in
    top_values <- match column_counter with
                  | BCounter c => ret (most_common (Some 20) c)
                  | BList _ => raise AttributeError
                  end ;;
    let body :=
      map (fun iv =>
             let '(i, (value, count)) := iv in
             PyStr.pad_left 3 (PyStr.str_of_nat i) ++ ". "
             ++ PyStr.pad_right 45 (display_value value) ++ " "
             ++ PyStr.pad_left 4 (PyStr.str_of_nat count)
             ++ " (" ++ percentage_text w 5 count total_rows ++ "%)")
          (enumerate1 top_values) in
    ret (head +++ body +++ [PyStr.repeat_str "-" 60])
  else ret [].

Definition general_section (w : World) (counter : Counter) (total_rows : nat)
  : list string :=
  let all_categories := most_common None counter in
  match all_categories with
  | [] => ["No se encontraron categorías generales para mostrar."]
  | _ =>
      let total_top_50 :=
        if 50 <=? List.length all_categories
        then counter_total (firstn 50 all_categories)
        else counter_total all_categories in
      let coverage := percentage_text w 0 total_top_50 total_rows in
      ["Cobertura de top 50 categorías generales: " ++ coverage ++ "%";
        "";
        "📊 TODAS LAS CATEGORÍAS GENERALES ENCONTRADAS:";
        PyStr.repeat_str "-" 100]
       +++ map (fun ic =>
                 let '(i, (category, count)) := ic in
                 PyStr.pad_left 2 (PyStr.str_of_nat i) ++ ". "
                 ++ PyStr.pad_right 50 category ++ " "
                 ++ PyStr.pad_left 4 (PyStr.str_of_nat count)
                 ++ " (" ++ percentage_text w 4 count total_rows ++ "%)")
              (enumerate1 all_categories)
       +++ [PyStr.repeat_str "-" 100;
            "Cobertura total de categorías generales: " ++ coverage ++ "%"]
  end.

Definition generate_report (w : World) (counter : Counter) (total_rows files_processed : nat)
           (detailed_analysis : Bundle) : Exc string :=
  let total_categories := List.length counter in
  let report0 :=
    [PyStr.repeat_str "=" 100;
      "ANÁLISIS ESPECIALIZADO DE CATEGORÍAS Y SUBTIPOS";
      PyStr.repeat_str "=" 100;
      "Archivos procesados: " ++ PyStr.str_of_nat files_processed;
      "Filas totales analizadas: " ++ format_thousands total_rows;
      "Categorías generales únicas encontradas: " ++ format_thousands total_categories]
     +++ general_section w counter total_rows in
  report1 <-
    match detailed_analysis with
    | [] => ret report0
    | _ =>
        sections <- map_exc (detail_section w total_rows) detailed_analysis ;;
        ret (report0
             +++ [""; PyStr.repeat_str "=" 100;
                  "ANÁLISIS DETALLADO DE CATEGORÍAS Y SUBTIPOS";
                  PyStr.repeat_str "=" 100]
             +++ concat sections)
    end ;;
  ret (PyStr.join NEWLINE (report1 +++ [PyStr.repeat_str "=" 100])).

(** * Definitions used by the statements *)

(** ** The layers of the date parser, in the words of the specification *)

(** Layer 1: the date-and-time pattern, first match, parsed strictly. *)
Definition datetime_layer (text : string) : option DateTime :=
  match regex_search DATE_WITH_TIME_REGEX text with
  | Some m =>
      match strptime_datetime (substring 0 10 m ++ " " ++ substring 11 2 m ++ ":"
                               ++ substring 14 2 m ++ ":" ++ substring 17 2 m) with
      | inr d => Some d
      | inl _ => None
      end
  | None => None
  end.

(** Layer 2: the date-only pattern, first match, parsed strictly. *)
Definition date_only_layer (text : string) : option DateTime :=
  match regex_search DATE_ONLY_REGEX text with
  | Some m =>
      match strptime_date (substring 0 10 m) with
      | inr d => Some d
      | inl _ => None
      end
  | None => None
  end.

(** Layer 3: the lenient coercion; a raise counts as not-a-date. *)
Definition coercion_layer (w : World) (text : string) : option Timestamp :=
  match pd_to_datetime w text with
  | inr r => r
  | inl _ => None
  end.

(** Missing input is not-a-date; otherwise the first layer that yields a
    date-time decides. *)
Definition parse_layers (w : World) (value : Cell) : option Timestamp :=
  if isna value then None
  else
    match datetime_layer (py_str value) with
    | Some d => Some (Naive d)
    | None =>
        match date_only_layer (py_str value) with
        | Some d => Some (Naive d)
        | None => coercion_layer w (py_str value)
        end
    end.

(** ** The date range *)

Definition range_active (self : Analyzer) : bool :=
  match start_date self, end_date self with
  | None, None => false
  | _, _ => true
  end.

(** A range whose start is not after its end. *)
Definition range_ordered (self : Analyzer) : Prop :=
  match start_date self, end_date self with
  | Some s, Some e => dt_le s e = true
  | _, _ => True
  end.

(** Inside the range, on each bound that is present; NaT is outside. *)
Definition within_range (self : Analyzer) (d : option DateTime) : bool :=
  match d with
  | None => false
  | Some d =>
      match start_date self with Some s => dt_ge d s | None => true end
      && match end_date self with Some e => dt_le d e | None => true end
  end.

(** The frame with the date column parsed, as the filter compares it. *)
Definition parsed_frame (w : World) (df : DataFrame) (date_column : string) : DataFrame :=
  if is_datetime64 (dtype_of df date_column) then df
  else assign_datetimes df date_column
                        (map (parse_layers w) (column_values df date_column)).

(** The parsed date of a row of the parsed frame. *)
Definition row_date (w : World) (df : DataFrame) (date_column : string)
           (row : list Cell) : option DateTime :=
  cell_datetime (cell_at (parsed_frame w df date_column) date_column row).

(** Every row has a cell for every column. *)
Definition well_formed (df : DataFrame) : Prop :=
  Forall (fun row => List.length row = List.length (df_header df)) (df_rows df).

(** The date-time of a parsed value that has no time zone; NaT otherwise. *)
Definition naive_date (v : option Timestamp) : option DateTime :=
  match v with Some (Naive d) => Some d | _ => None end.

(** The date the filter sees in a row: the cell of a datetime64 column as it
    is, the parsed cell otherwise. *)
Definition date_of_row (w : World) (df : DataFrame) (date_column : string)
           (row : list Cell) : option DateTime :=
  if is_datetime64 (dtype_of df date_column)
  then cell_datetime (cell_at df date_column row)
  else naive_date (parse_layers w (cell_at df date_column row)).

(** A row after the assignment of the parsed dates to the date column. *)
Definition parsed_row (w : World) (df : DataFrame) (date_column : string)
           (row : list Cell) : list Cell :=
  if is_datetime64 (dtype_of df date_column) then row
  else
    match index_of date_column (columns df) with
    | Some i => set_nth i (cell_of_date (parse_layers w (cell_at df date_column row))) row
    | None => row
    end.

(** The frame the category analysis of a file works on: the sheet as read,
    then filtered by date, when neither is empty. *)
Definition loaded_frame (w : World) (self : Analyzer) (file_path : string)
  : option DataFrame :=
  match pd_read_excel w file_path with
  | inr df =>
      if df_empty df then None
      else
        match filter_by_date_range w self df with
        | inr df' => if df_empty df' then None else Some df'
        | inl _ => None
        end
  | inl _ => None
  end.

(** ** Combined routes *)

Definition is_general_column (col : string) : bool :=
  (PyStr.lower col =? "categoria_general")%string.

Definition is_especifica_column (col : string) : bool :=
  negb (is_general_column col)
  && PyStr.contains "categoria_especifica" (PyStr.lower col).

Definition is_subtipo_column (col : string) : bool :=
  negb (is_general_column col)
  && negb (PyStr.contains "categoria_especifica" (PyStr.lower col))
  && PyStr.contains "subtipo_categoria" (PyStr.lower col).

(** The last column whose lowered name is [categoria_general]. *)
Definition general_column (cols : list string) : option string :=
  fold_left (fun g col => if is_general_column col then Some col else g) cols None.

(** The records the rows of a frame add, in row order. *)
Definition route_records (df : DataFrame) (general : string)
           (especifica_cols subtipo_cols : list string)
           (installer_column : option string) : list RouteRecord :=
  flat_map (fun row =>
              match route_of_row df general especifica_cols subtipo_cols
                                 installer_column row with
              | Some r => [r]
              | None => []
              end)
           (df_rows df).

(** A part in which no pipe follows a space. *)
Definition separator_free (part : string) : Prop :=
  PyStr.contains " |" part = false.

(** ** Counting *)

(** The trimmed texts of the non-empty cells of a column. *)
Definition trimmed_values (df : DataFrame) (col : string) : list string :=
  map (fun v => PyStr.strip (py_str v)) (dropna (column_values df col)).

(** The sum of the counts of all entries with the given key. *)
Definition key_sum (key : string) (c : Counter) : nat :=
  fold_right (fun kv acc => if (fst kv =? key)%string then snd kv + acc else acc) 0 c.

Definition counters_agree (c1 c2 : Counter) : Prop :=
  forall key, counter_get key c1 = counter_get key c2.

(** ** Outcomes of the merge *)

(** Two runs agree: both raise, or both return with equal general maps and
    equal row counts. *)
Definition same_outcome (r1 r2 : Exc Result) : Prop :=
  match r1, r2 with
  | inr (c1, n1, _), inr (c2, n2, _) => counters_agree c1 c2 /\ n1 = n2
  | inl _, inl _ => True
  | _, _ => False
  end.

(** The list stored under a key of a bundle; empty when there is none. *)
Definition detail_list (key : string) (b : Bundle) : list DetailRecord :=
  match dict_get key b with
  | Some (BList l) => l
  | _ => []
  end.

(** The bundle one file contributes. *)
Definition file_bundle (w : World) (self : Analyzer) (file_path : string) : Bundle :=
  match analyze_excel_file w self file_path with
  | inr (_, _, b) => b
  | inl _ => []
  end.

Definition is_list_value (v : BundleValue) : bool :=
  match v with BList _ => true | BCounter _ => false end.

(** The kind of value a bundle holds under a key. *)
Definition kind_at (key : string) (b : Bundle) : option bool :=
  option_map is_list_value (dict_get key b).

(** The list a bundle value contributes to a merged list. *)
Definition list_of_value (v : BundleValue) : list DetailRecord :=
  match v with BList l => l | BCounter _ => [] end.

(** The value under every key of [b] is of the kind [total] already holds
    under that key, if it holds one. *)
Definition compatible_with (total b : Bundle) : bool :=
  forallb (fun kv => match kind_at (fst kv) total with
                     | None => true
                     | Some x => Bool.eqb x (is_list_value (snd kv))
                     end)
          b.

Definition keys {V} (d : list (string * V)) : list string := map fst d.

(** ** Sums over the installer breakdown *)

Definition agent_of (r : InstallerRecord) : string := agente_instalador (ir_route r).

Definition frecuencia_sum (agent : string) (rows : list InstallerRecord) : nat :=
  fold_right (fun r acc => if (agent_of r =? agent)%string then Frecuencia r + acc else acc)
             0 rows.

Definition porcentaje_sum (agent : string) (rows : list InstallerRecord) : Q :=
  fold_right (fun r acc => if (agent_of r =? agent)%string
                           then (Porcentaje_Agente r + acc)%Q else acc)
             0%Q rows.

Definition count_agent (agent : string) (records : list RouteRecord) : nat :=
  List.length (filter (fun r => (agente_instalador r =? agent)%string) records).

(** The row of the breakdown for one group, with the total of its agent
    taken over all groups. *)
Definition breakdown_row (groups : list (RouteRecord * nat)) (g : RouteRecord * nat)
  : InstallerRecord :=
  mkInstaller (fst g) (snd g)
              (float_mul
                 (float_div
                    (float_of_int (Z.of_nat (snd g)))
                    (float_of_int
                       (Z.of_nat (total_agente groups (agente_instalador (fst g))))))
                 100).

(** Every group stands for a record and counts at least one row. *)
Definition groups_from (records : list RouteRecord) (groups : list (RouteRecord * nat))
  : Prop :=
  Forall (fun g => (exists r, In r records
                              /\ agente_instalador r = agente_instalador (fst g))
                   /\ 0 < snd g)
         groups.

(** The relative error of one rounding to float64: 2^-53. *)
Definition unit_roundoff : Q := 1 # 9007199254740992.

(** The tolerance within which the percentages of an agent add up to 100:
    three hundredths of a millionth of a millionth. *)
Definition percentage_tolerance : Q := 3 # 100000000000000.

(** ** Sample inputs *)

(** A stand-in for the floating-point formatting: tenths of a percent,
    truncated. *)
Definition sample_format_percentage (width count total : nat) : string :=
  let tenths := count * 1000 / total in
  PyStr.pad_left width (PyStr.str_of_nat (tenths / 10) ++ "."
                        ++ PyStr.str_of_nat (tenths mod 10)).

(** A world whose file system is a fixed table of sheets. *)
Definition world_of (files : list (string * DataFrame)) : World :=
  mkWorld (fun _ => ret None)
          (fun path => match dict_get path files with
                       | Some df => ret df
                       | None => raise OSError
                       end)
          sample_format_percentage.

Definition calls_sheet : DataFrame :=
  mkDF [mkCol "categoria_general" DObject; mkCol "categoria_especifica" DObject;
        mkCol "subtipo_categoria" DObject; mkCol "agente_instalador" DObject]
       [[CStr "Red"; CStr "Slow"; CNull; CStr "Ana"];
        [CStr "Red"; CNull; CStr "Cut"; CStr "Ana"];
        [CStr "Billing, Support"; CNull; CNull; CNull];
        [CStr "Red"; CStr "Slow"; CNull; CStr " "];
        [CStr "A | B"; CStr "C"; CNull; CStr "Bob"]].

(** A sheet with a date column and no column that can hold categories. *)
Definition dated_sheet : DataFrame :=
  mkDF [mkCol "fecha" DObject; mkCol "x" DInt]
       [[CStr "2025-01-10"; CInt 1];
        [CStr "2025-01-20 08:30:00"; CInt 2];
        [CStr "sin fecha"; CInt 3];
        [CStr "2025-02-01"; CInt 4]].

(** A sheet whose only column carries the name of a bundle key. *)
Definition clash_sheet : DataFrame :=
  mkDF [mkCol "categoria_combinada_detalle" DObject] [[CStr "x"]].

Definition more_calls_sheet : DataFrame :=
  mkDF [mkCol "categoria_general" DObject; mkCol "categoria_especifica" DObject]
       [[CStr "Wifi"; CStr "Down"]; [CStr "Red"; CStr "Slow"]].

(** A sheet of a hundred rows, none of whose columns can hold categories. *)
Definition hundred_rows_sheet : DataFrame :=
  mkDF [mkCol "x" DInt] (map (fun i => [CInt (Z.of_nat i)]) (seq 0 100)).

Definition sample_world : World :=
  world_of [("calls.xlsx", calls_sheet); ("dated.xlsx", dated_sheet);
            ("clash.xlsx", clash_sheet); ("more.xlsx", more_calls_sheet);
            ("hundred.xlsx", hundred_rows_sheet)].

(** A sheet with a date that [pandas.to_datetime] reads with its time
    zone, a text without a date, and a date outside January 2025. *)
Definition zoned_sheet : DataFrame :=
  mkDF [mkCol "fecha" DObject; mkCol "x" DInt]
       [[CStr "15/01/2025 10:00 UTC"; CInt 1];
        [CStr "sin fecha"; CInt 2];
        [CStr "2030-01-01"; CInt 3]].

Definition zoned_world : World :=
  mkWorld (fun text =>
             if (text =? "15/01/2025 10:00 UTC")%string
             then ret (Some (Aware (mkDateTime 2025 1 15 10 0 0) 0))
             else ret None)
          (fun path => if (path =? "zoned.xlsx")%string then ret zoned_sheet
                       else raise OSError)
          sample_format_percentage.

(** Three calls of one installer, each with a route of its own. *)
Definition thirds_details : list RouteRecord :=
  [mkRoute "Red" "Slow" "" "Red | Slow" "Ana";
   mkRoute "Red" "Cut" "" "Red | Cut" "Ana";
   mkRoute "Wifi" "Down" "" "Wifi | Down" "Ana"].

Definition no_filter : Analyzer := mkAnalyzer None None.

Definition january : Analyzer :=
  mkAnalyzer (Some (mkDateTime 2025 1 10 0 0 0)) (Some (mkDateTime 2025 1 20 8 30 0)).

From Stdlib Require Import Sorted Permutation OrdersEx.

(** * Further definitions *)

(** [all(p(ch) for ch in s)] *)
Fixpoint string_forall (p : ascii -> bool) (s : string) : bool :=
  match s with
  | EmptyString => true
  | String c s' => p c && string_forall p s'
  end.

Definition starts_with_space (s : string) : bool :=
  match s with
  | EmptyString => false
  | String c _ => PyStr.is_space c
  end.

(** [get_top_categories]: the [top_n] most frequent categories. *)
Definition get_top_categories (counter : Counter) (top_n : nat) : list (string * nat) :=
  most_common (Some top_n) counter.

(** A lowercase letter or a digit. *)
Definition is_lower_alnum (c : ascii) : bool :=
  PyStr.is_digit c || PyStr.is_lower c.

(** ** Texts of date-times *)

(** The character of a decimal digit. *)
Definition digit_char (k : nat) : ascii := ascii_of_nat (48 + k).

Definition two_digits (n : nat) : string :=
  String (digit_char (n / 10)) (String (digit_char (n mod 10)) EmptyString).

Definition four_digits (n : nat) : string :=
  String (digit_char (n / 1000))
         (String (digit_char (n / 100 mod 10))
                 (String (digit_char (n / 10 mod 10))
                         (String (digit_char (n mod 10)) EmptyString))).

(** [YYYY-MM-DD] followed by a separator and the time, with a separator
    between its fields. *)
Definition timestamp_text (d : DateTime) (s1 s2 s3 : ascii) : string :=
  four_digits (dt_year d) ++ "-" ++ two_digits (dt_month d) ++ "-"
  ++ two_digits (dt_day d) ++ String s1 (two_digits (dt_hour d))
  ++ String s2 (two_digits (dt_minute d))
  ++ String s3 (two_digits (dt_second d)).

(** [YYYY-MM-DD] *)
Definition date_text (d : DateTime) : string :=
  four_digits (dt_year d) ++ "-" ++ two_digits (dt_month d) ++ "-"
  ++ two_digits (dt_day d).

(** A date-time of the calendar, with a year of four digits. *)
Definition valid_datetime (d : DateTime) : bool :=
  (1 <=? dt_year d) && (dt_year d <? 100 * 100)
  && (1 <=? dt_month d) && (dt_month d <=? 12)
  && (1 <=? dt_day d) && (dt_day d <=? days_in_month (dt_year d) (dt_month d))
  && (dt_hour d <=? 23) && (dt_minute d <=? 59) && (dt_second d <=? 59).

(** The same day at midnight. *)
Definition midnight (d : DateTime) : DateTime :=
  mkDateTime (dt_year d) (dt_month d) (dt_day d) 0 0 0.

(** No digit occurs in the text. *)
Definition digit_free (s : string) : bool :=
  string_forall (fun c => negb (PyStr.is_digit c)) s.

(** ** Rankings *)

(** [x] ranks no lower than [y]. *)
Definition count_ge (x y : string * nat) : Prop := snd y <= snd x.

(** The entries with the given count, in their order. *)
Definition with_count (n : nat) (items : list (string * nat)) : list (string * nat) :=
  filter (fun kv => snd kv =? n) items.

(** ** Bundles *)

(** Some value of the bundle is a list that is not empty. *)
Definition holds_detail_list (b : Bundle) : bool :=
  existsb (fun kv => is_list_value (snd kv) && (0 <? bundle_value_len (snd kv))) b.

Definition is_empty {A} (l : list A) : bool :=
  match l with [] => true | _ :: _ => false end.

(** ** The order of the installer breakdown *)

(** The two records agree on every field. *)
Definition route_eqb (a b : RouteRecord) : bool :=
  (agente_instalador a =? agente_instalador b)%string
  && (categoria_general a =? categoria_general b)%string
  && (categoria_especifica a =? categoria_especifica b)%string
  && (subtipo a =? subtipo b)%string
  && (ruta_completa a =? ruta_completa b)%string.

(** [x] may stand before [y] in the breakdown: its agent sorts first, or
    the agents are the same and its frequency is no lower. *)
Definition breakdown_le (x y : InstallerRecord) : Prop :=
  match String.compare (agent_of x) (agent_of y) with
  | Lt => True
  | Eq => Frecuencia y <= Frecuencia x
  | Gt => False
  end.

(** The rows counted by the groups that stand for the record. *)
Definition group_count (r : RouteRecord) (groups : list (RouteRecord * nat)) : nat :=
  fold_right (fun g acc => if route_eqb r (fst g) then snd g + acc else acc) 0 groups.

(** The key of the first group sorts strictly before the key of the second. *)
Definition key_lt (g h : RouteRecord * nat) : Prop :=
  keys_compare (group_key (fst g)) (group_key (fst h)) = Lt.

(** ** What one file contributes to a run *)

(** The general map one file contributes. *)
Definition file_counter (w : World) (self : Analyzer) (file_path : string) : Counter :=
  match analyze_excel_file w self file_path with
  | inr (c, _, _) => c
  | inl _ => []
  end.

(** The number of rows one file contributes. *)
Definition file_rows (w : World) (self : Analyzer) (file_path : string) : nat :=
  match analyze_excel_file w self file_path with
  | inr (_, n, _) => n
  | inl _ => 0
  end.

(** ** Comma lists *)

(** No comma occurs in the text. *)
Definition comma_free (s : string) : bool :=
  string_forall (fun c => negb (Ascii.eqb c ",")) s.

(** ** Date columns found by name *)

(** The first two searches of [identify_date_column]: the exact names,
    then the first column whose normalised name holds a date keyword. *)
Definition named_date_column (df : DataFrame) : option string :=
  match first_exact_date_column (columns df) date_column_names with
  | Some c => Some c
  | None =>
      find (fun col => any_keyword ["fecha"; "date"; "dia"; "time"; "archivo"]
                                   (normalize_column_name col))
           (columns df)
  end.

(** One turn of the loop of [analyze_multiple_files] over [file_paths]:
    the file is analysed and its result merged into the totals. *)
Definition merge_file (w : World) (self : Analyzer) (total : Result)
           (file_path : string) : Exc Result :=
  file_result <- analyze_excel_file w self file_path ;;
  merge_result total file_result.

(** * Properties *)

(** ** The date parser *)

Lemma parse_datetime_value_layers (w : World) (value : Cell) :
  parse_datetime_value w value = inr (parse_layers w value).
Proof.
  unfold parse_datetime_value, parse_layers, datetime_layer, date_only_layer,
    coercion_layer.
  destruct (isna value); [reflexivity|].
  destruct (regex_search DATE_WITH_TIME_REGEX (py_str value)) as [m1|];
    [destruct (strptime_datetime _) as [e1|d1]; [|reflexivity] |];
    simpl;
    (destruct (regex_search DATE_ONLY_REGEX (py_str value)) as [m2|];
     [destruct (strptime_date _) as [e2|d2]; [|reflexivity] |];
     simpl;
     destruct (pd_to_datetime w (py_str value)) as [e3|r3]; reflexivity).
Qed.

(** C8. [parse_datetime_value] never raises: on every input it returns, and
    what it returns is not-a-date for a missing value and otherwise the
    answer of the first of the three layers (date-and-time pattern, date-only
    pattern, lenient coercion) that yields a date-time, not-a-date when none
    does. *)
Theorem parse_datetime_value_never_raises :
  forall (w : World) (value : Cell),
    parse_datetime_value w value = inr (parse_layers w value)
    /\ (value = CNull -> parse_layers w value = None)
    /\ (datetime_layer (py_str value) = None ->
        date_only_layer (py_str value) = None ->
        coercion_layer w (py_str value) = None ->
        parse_layers w value = None).
Proof.
  intros w value. split; [apply parse_datetime_value_layers|]. split.
  - intros ->. reflexivity.
  - intros H1 H2 H3. unfold parse_layers.
    destruct (isna value); [reflexivity|]. now rewrite H1, H2, H3.
Qed.

Lemma parse_datetime_value_never_raises_witness :
  parse_datetime_value sample_world (CStr "sin fecha") = inr None
  /\ parse_layers sample_world (CStr "sin fecha") = None.
Proof.
  destruct (parse_datetime_value_never_raises sample_world (CStr "sin fecha"))
    as [Hret [_ Hnone]].
  split; [exact Hret | apply Hnone; reflexivity].
Defined.

(** ** Lists and lookups *)

Lemma index_of_Some (name : string) (names : list string) (i : nat) :
  index_of name names = Some i ->
  i < List.length names /\ nth i names "" = name.
Proof.
  revert i. induction names as [|n rest IH]; intros i H; simpl in H; [discriminate|].
  destruct (String.eqb_spec n name) as [->|Hne].
  - injection H as <-. simpl. split; [lia | reflexivity].
  - destruct (index_of name rest) as [j|]; [|discriminate].
    injection H as <-. destruct (IH j eq_refl) as [Hlt Hnth].
    simpl. split; [lia | exact Hnth].
Qed.

Lemma index_of_In (name : string) (names : list string) :
  In name names -> exists i, index_of name names = Some i.
Proof.
  induction names as [|n rest IH]; intros Hin; [contradiction|].
  simpl. destruct (String.eqb_spec n name) as [->|Hne]; [now exists 0|].
  destruct Hin as [->|Hin]; [contradiction|].
  destruct (IH Hin) as [i ->]. now exists (S i).
Qed.

Lemma nth_set_nth {A} (i : nat) (x d : A) (l : list A) :
  i < List.length l -> nth i (set_nth i x l) d = x.
Proof.
  revert i. induction l as [|y l IH]; intros i Hlt; simpl in Hlt; [lia|].
  destruct i; simpl; [reflexivity | apply IH; lia].
Qed.

Lemma map_set_nth {A B} (f : A -> B) (i : nat) (x : A) (l : list A) :
  map f (set_nth i x l) = set_nth i (f x) (map f l).
Proof.
  revert i. induction l as [|y l IH]; intros i; destruct i; simpl;
    try reflexivity. now rewrite IH.
Qed.

Lemma set_nth_same {A} (i : nat) (d : A) (l : list A) :
  set_nth i (nth i l d) l = l.
Proof.
  revert i. induction l as [|y l IH]; intros i; destruct i; simpl;
    try reflexivity. now rewrite IH.
Qed.

Lemma filter_map_comm {A B} (f : A -> B) (p : B -> bool) (l : list A) :
  filter p (map f l) = map f (filter (fun x => p (f x)) l).
Proof.
  induction l as [|x l IH]; simpl; [reflexivity|].
  destruct (p (f x)); simpl; now rewrite IH.
Qed.

Lemma filter_twice {A} (p q : A -> bool) (l : list A) :
  filter q (filter p l) = filter (fun x => p x && q x) l.
Proof.
  induction l as [|x l IH]; simpl; [reflexivity|].
  destruct (p x); simpl; [destruct (q x); now rewrite IH | exact IH].
Qed.

Lemma combine_map_r {A B} (g : A -> B) (l : list A) :
  combine l (map g l) = map (fun x => (x, g x)) l.
Proof. induction l as [|x l IH]; simpl; [reflexivity | now rewrite IH]. Qed.

(** ** The date-range filter *)

Lemma map_exc_parse (w : World) (cells : list Cell) :
  map_exc (parse_datetime_value w) cells = inr (map (parse_layers w) cells).
Proof.
  induction cells as [|v cells IH]; simpl; [reflexivity|].
  rewrite parse_datetime_value_layers. simpl. now rewrite IH.
Qed.

Lemma first_exact_date_column_In (cols names : list string) (c : string) :
  first_exact_date_column cols names = Some c -> In c cols.
Proof.
  induction names as [|n names IH]; simpl; [discriminate|].
  destruct (find _ cols) as [o|] eqn:Hf.
  - intros [= <-]. now apply find_some in Hf.
  - exact IH.
Qed.

Lemma identify_date_column_In (df : DataFrame) (c : string) :
  identify_date_column df = Some c -> In c (columns df).
Proof.
  unfold identify_date_column.
  destruct (first_exact_date_column _ _) as [c1|] eqn:H1.
  - intros [= <-]. eapply first_exact_date_column_In; eauto.
  - destruct (find _ (columns df)) as [c2|] eqn:H2.
    + intros [= <-]. now apply find_some in H2.
    + intros H3. now apply find_some in H3.
Qed.

Lemma columns_assign_datetimes (df : DataFrame) (c : string)
      (values : list (option Timestamp)) :
  columns (assign_datetimes df c values) = columns df.
Proof.
  unfold assign_datetimes. destruct (index_of c (columns df)) as [i|] eqn:Hi;
    [|reflexivity].
  destruct values as [|v values]; [reflexivity|].
  unfold columns at 1. simpl. rewrite map_set_nth. simpl.
  apply index_of_Some in Hi. destruct Hi as [_ Hnth].
  fold (columns df). rewrite <- Hnth at 1. apply set_nth_same.
Qed.

Lemma rows_parsed_frame (w : World) (df : DataFrame) (c : string) :
  df_rows (parsed_frame w df c) = map (parsed_row w df c) (df_rows df).
Proof.
  unfold parsed_frame, parsed_row.
  destruct (is_datetime64 (dtype_of df c)).
  - now rewrite map_id.
  - unfold assign_datetimes, column_values.
    destruct (index_of c (columns df)) as [i|]; [|now rewrite map_id].
    destruct (df_rows df) as [|row rows] eqn:Hrows; cbn [map]; [exact Hrows|].
    cbn [df_rows].
    change (parse_layers w (cell_at df c row)
              :: map (parse_layers w) (map (cell_at df c) rows))
      with (map (fun r => parse_layers w (cell_at df c r)) (row :: rows))
      || rewrite map_map.
    rewrite <- (map_cons (fun r => parse_layers w (cell_at df c r)) row rows).
    rewrite combine_map_r, map_map. reflexivity.
Qed.

Lemma columns_parsed_frame (w : World) (df : DataFrame) (c : string) :
  columns (parsed_frame w df c) = columns df.
Proof.
  unfold parsed_frame. destruct (is_datetime64 _); [reflexivity|].
  apply columns_assign_datetimes.
Qed.

Lemma cell_datetime_of_date (v : option Timestamp) :
  cell_datetime (cell_of_date v) = naive_date v.
Proof. now destruct v as [[d|d o]|]. Qed.

(** In the parsed frame the date cell of a row holds the parsed date. *)
Lemma row_date_parsed_row (w : World) (df : DataFrame) (c : string) (row : list Cell) :
  In c (columns df) ->
  List.length row = List.length (df_header df) ->
  row_date w df c (parsed_row w df c row) = date_of_row w df c row.
Proof.
  intros Hin Hlen. unfold row_date, cell_at. rewrite columns_parsed_frame.
  unfold parsed_row, date_of_row, cell_at.
  destruct (is_datetime64 (dtype_of df c)).
  - reflexivity.
  - destruct (index_of_In _ _ Hin) as [i Hi]. rewrite Hi.
    pose proof (index_of_Some _ _ _ Hi) as [Hlt _].
    unfold columns in Hlt. rewrite length_map in Hlt.
    rewrite nth_set_nth by lia. apply cell_datetime_of_date.
Qed.

Lemma filter_by_date_range_inactive (w : World) (self : Analyzer) (df : DataFrame) :
  range_active self = false -> filter_by_date_range w self df = inr df.
Proof.
  unfold range_active, filter_by_date_range.
  destruct (start_date self), (end_date self); (discriminate || reflexivity).
Qed.

Lemma filter_by_date_range_no_column (w : World) (self : Analyzer) (df : DataFrame) :
  identify_date_column df = None -> filter_by_date_range w self df = inr df.
Proof.
  intros H. unfold filter_by_date_range. rewrite H.
  destruct (start_date self), (end_date self); reflexivity.
Qed.

(** A comparison that does not raise on a frame does not raise on a
    selection of its rows. *)
Lemma comparison_raises_select (p : list Cell -> bool) (df : DataFrame) (c : string) :
  comparison_raises df c = false ->
  comparison_raises (select_rows p df) c = false.
Proof.
  unfold comparison_raises, select_rows, dtype_of, column_values, cell_at, columns.
  cbn [df_header df_rows].
  destruct (match find (fun c0 => (col_name c0 =? c)%string) (df_header df) with
            | Some c0 => col_dtype c0
            | None => DObject
            end); try discriminate; intros H;
    (destruct (existsb cell_aware (map _ (filter p (df_rows df)))) eqn:Hex;
     [|reflexivity]);
    apply existsb_exists in Hex; destruct Hex as [v [Hv Haware]];
    apply in_map_iff in Hv; destruct Hv as [row [Hrow Hin]];
    apply filter_In in Hin; destruct Hin as [Hin _];
    rewrite <- H; symmetry; apply existsb_exists; exists v;
    (split; [apply in_map_iff; now exists row | exact Haware]).
Qed.

(** With a date column and a bound, the filter parses the column and then
    either selects the rows inside the range or, when the comparison with
    the bound raises, gives back the frame with the parsed column and all
    its rows. *)
Lemma filter_by_date_range_active (w : World) (self : Analyzer) (df : DataFrame)
      (c : string) :
  identify_date_column df = Some c ->
  range_active self = true ->
  filter_by_date_range w self df
  = inr (if comparison_raises (parsed_frame w df c) c
         then parsed_frame w df c
         else select_rows (fun row => within_range self (row_date w df c row))
                          (parsed_frame w df c)).
Proof.
  intros Hc Hact. unfold filter_by_date_range. rewrite Hc.
  assert (Hparsed :
            (if is_datetime64 (dtype_of df c) then ret df
             else parsed <- map_exc (parse_datetime_value w) (column_values df c) ;;
                  ret (assign_datetimes df c parsed))
            = inr (parsed_frame w df c)).
  { unfold parsed_frame. destruct (is_datetime64 _); [reflexivity|].
    now rewrite map_exc_parse. }
  unfold range_active in Hact.
  destruct (start_date self) as [s|] eqn:Hs, (end_date self) as [e|] eqn:He;
    try discriminate; rewrite Hparsed; unfold select_where; cbn [bind ret];
    destruct (comparison_raises (parsed_frame w df c) c) eqn:Hraise;
    cbn [bind try_except ret raise]; try reflexivity.
  - rewrite (comparison_raises_select _ _ _ Hraise). cbn [bind try_except ret].
    f_equal. unfold select_rows. cbn [df_header df_rows]. f_equal.
    rewrite filter_twice. apply filter_ext. intros row.
    unfold within_range, row_date, cell_ge, cell_le, cell_at, columns.
    cbn [df_header]. rewrite Hs, He.
    destruct (cell_datetime _); reflexivity.
  - f_equal. unfold select_rows. f_equal. apply filter_ext. intros row.
    unfold within_range, row_date, cell_ge. rewrite Hs, He.
    destruct (cell_datetime _); [now rewrite andb_true_r | reflexivity].
  - f_equal. unfold select_rows. f_equal. apply filter_ext. intros row.
    unfold within_range, row_date, cell_le. rewrite Hs, He.
    destruct (cell_datetime _); reflexivity.
Qed.

Lemma filter_by_date_range_returns (w : World) (self : Analyzer) (df : DataFrame) :
  exists df', filter_by_date_range w self df = inr df'.
Proof.
  destruct (range_active self) eqn:Hact.
  - destruct (identify_date_column df) as [c|] eqn:Hc.
    + eexists. apply (filter_by_date_range_active w self df c Hc Hact).
    + eexists. apply (filter_by_date_range_no_column w self df Hc).
  - eexists. apply (filter_by_date_range_inactive w self df Hact).
Qed.

Lemma lex_compare_refl (a : list nat) : lex_compare a a = Eq.
Proof.
  induction a as [|x a IH]; simpl; [reflexivity|].
  now rewrite Nat.compare_refl.
Qed.

Lemma dt_le_refl (d : DateTime) : dt_le d d = true.
Proof. unfold dt_le, dt_compare. now rewrite lex_compare_refl. Qed.

(** Both bounds are inclusive. *)
Lemma within_range_bounds (self : Analyzer) (d : DateTime) :
  range_ordered self ->
  start_date self = Some d \/ end_date self = Some d ->
  within_range self (Some d) = true.
Proof.
  unfold range_ordered, within_range, dt_ge. intros Hord [H|H]; rewrite H in *.
  - rewrite dt_le_refl. destruct (end_date self); [now rewrite Hord | reflexivity].
  - rewrite dt_le_refl. destruct (start_date self); [now rewrite Hord | reflexivity].
Qed.

(** C4 as stated fails: a date that [pandas.to_datetime] reads with its
    time zone makes the comparison with the bound raise, and the [except]
    branch gives the frame back with all its rows; the row without a date
    is among them, though both bounds are active. *)
Lemma filter_by_date_range_drops_nat_fails :
  ~ (forall (w : World) (self : Analyzer) (df df' : DataFrame) (c : string)
            (row : list Cell),
        identify_date_column df = Some c ->
        range_active self = true ->
        filter_by_date_range w self df = inr df' ->
        In row (df_rows df) ->
        parse_layers w (cell_at df c row) = None ->
        ~ In (parsed_row w df c row) (df_rows df')).
Proof.
  intros H.
  apply (H zoned_world january zoned_sheet
           (parsed_frame zoned_world zoned_sheet "fecha") "fecha"
           [CStr "sin fecha"; CInt 2] eq_refl eq_refl eq_refl).
  - simpl. auto.
  - reflexivity.
  - vm_compute. auto.
Qed.

(** C4, amended. Without a date column the frame comes back unchanged.
    With a date column identified and an active range, the filter parses
    the column and compares it with the bounds.  When no date of the
    column carries a time zone, it returns (for a sheet whose rows are
    complete) the rows whose date is inside the range, each with its date
    cell parsed, in their order: a row dated exactly [start_date] is kept
    and a row dated exactly [end_date] is kept (for a range whose start is
    not after its end), and no row whose date is not-a-date is kept.  When
    a date carries a time zone the comparison raises and the frame comes
    back with the parsed column and all its rows. *)
Theorem filter_by_date_range_inclusive :
  forall (w : World) (self : Analyzer) (df : DataFrame),
    (identify_date_column df = None -> filter_by_date_range w self df = inr df)
    /\ (forall c,
          identify_date_column df = Some c ->
          range_active self = true ->
          (comparison_raises (parsed_frame w df c) c = true ->
           filter_by_date_range w self df = inr (parsed_frame w df c)
           /\ df_rows (parsed_frame w df c) = map (parsed_row w df c) (df_rows df))
          /\ (comparison_raises (parsed_frame w df c) c = false ->
              well_formed df ->
              exists df',
                filter_by_date_range w self df = inr df'
                /\ df_rows df'
                   = map (parsed_row w df c)
                         (filter (fun row => within_range self (date_of_row w df c row))
                                 (df_rows df))
                /\ (range_ordered self ->
                    forall row d,
                      In row (df_rows df) ->
                      date_of_row w df c row = Some d ->
                      start_date self = Some d \/ end_date self = Some d ->
                      In (parsed_row w df c row) (df_rows df'))
                /\ (forall row',
                      In row' (df_rows df') ->
                      exists row d,
                        In row (df_rows df) /\ row' = parsed_row w df c row
                        /\ date_of_row w df c row = Some d))).
Proof.
  intros w self df. split; [apply filter_by_date_range_no_column|].
  intros c Hc Hact.
  pose proof (filter_by_date_range_active w self df c Hc Hact) as Hrun.
  split.
  { intros Hraise. rewrite Hraise in Hrun. split; [exact Hrun|].
    apply rows_parsed_frame. }
  intros Hraise Hwf. rewrite Hraise in Hrun.
  pose proof (identify_date_column_In _ _ Hc) as Hin.
  assert (Hrows :
            df_rows (select_rows (fun row => within_range self (row_date w df c row))
                                 (parsed_frame w df c))
            = map (parsed_row w df c)
                  (filter (fun row => within_range self (date_of_row w df c row))
                          (df_rows df))).
  { unfold select_rows. simpl. rewrite rows_parsed_frame, filter_map_comm.
    f_equal. apply filter_ext_in. intros row Hrow.
    rewrite row_date_parsed_row; [reflexivity | exact Hin |].
    unfold well_formed in Hwf. rewrite Forall_forall in Hwf. now apply Hwf. }
  eexists. split; [exact Hrun|].
  split; [exact Hrows|]. rewrite Hrows. split.
  - intros Hord row d Hrow Hd Hbound. apply in_map. apply filter_In.
    split; [exact Hrow|]. rewrite Hd. now apply within_range_bounds.
  - intros row' Hrow'. apply in_map_iff in Hrow'.
    destruct Hrow' as [row [<- Hf]]. apply filter_In in Hf.
    destruct Hf as [Hrow Hwithin].
    destruct (date_of_row w df c row) as [d|] eqn:Hd; [|discriminate].
    now exists row, d.
Qed.

Lemma filter_by_date_range_inclusive_witness :
  (exists df',
      filter_by_date_range sample_world january dated_sheet = inr df'
      /\ In [CDate (mkDateTime 2025 1 10 0 0 0); CInt 1] (df_rows df')
      /\ In [CDate (mkDateTime 2025 1 20 8 30 0); CInt 2] (df_rows df')
      /\ List.length (df_rows df') = 2)
  /\ filter_by_date_range zoned_world january zoned_sheet
     = inr (mkDF [mkCol "fecha" DObject; mkCol "x" DInt]
                 [[CDateTz (mkDateTime 2025 1 15 10 0 0) 0; CInt 1];
                  [CNull; CInt 2];
                  [CDate (mkDateTime 2030 1 1 0 0 0); CInt 3]]).
Proof.
  split.
  - destruct (filter_by_date_range_inclusive sample_world january dated_sheet) as [_ H].
    destruct (H "fecha" eq_refl eq_refl) as [_ H'].
    destruct (H' eq_refl) as [df' [Hret [Hrows [Hkeep _]]]].
    { repeat constructor. }
    exists df'. split; [exact Hret|]. split; [|split].
    + apply (Hkeep eq_refl [CStr "2025-01-10"; CInt 1] (mkDateTime 2025 1 10 0 0 0));
        [simpl; auto | reflexivity | left; reflexivity].
    + apply (Hkeep eq_refl [CStr "2025-01-20 08:30:00"; CInt 2]
                   (mkDateTime 2025 1 20 8 30 0));
        [simpl; auto | reflexivity | right; reflexivity].
    + rewrite Hrows. reflexivity.
  - destruct (filter_by_date_range_inclusive zoned_world january zoned_sheet) as [_ H].
    destruct (H "fecha" eq_refl eq_refl) as [H' _].
    destruct (H' eq_refl) as [Hret _].
    rewrite Hret. reflexivity.
Defined.

(** ** Counters *)

Lemma counter_get_add (key k : string) (n : nat) (c : Counter) :
  counter_get key (counter_add k n c)
  = counter_get key c + (if (k =? key)%string then n else 0).
Proof.
  induction c as [|[k' m] c IH]; simpl.
  - destruct (k =? key)%string; lia.
  - destruct (String.eqb_spec k' k) as [->|Hne]; simpl.
    + destruct (k =? key)%string; lia.
    + destruct (String.eqb_spec k' key) as [->|Hne'].
      * destruct (String.eqb_spec k key) as [->|_]; [contradiction | lia].
      * exact IH.
Qed.

Lemma counter_total_add (k : string) (n : nat) (c : Counter) :
  counter_total (counter_add k n c) = counter_total c + n.
Proof.
  induction c as [|[k' m] c IH]; simpl; [lia|].
  destruct (k' =? k)%string; simpl; [lia | rewrite IH; lia].
Qed.

Lemma counter_get_fold_items (key : string) (items : list string) (c : Counter) :
  counter_get key (fold_left (fun c item => counter_add item 1 c) items c)
  = counter_get key c + count_occ string_dec items key.
Proof.
  revert c. induction items as [|x items IH]; intros c; simpl; [lia|].
  rewrite IH, counter_get_add.
  destruct (string_dec x key) as [Heq|Hne'];
    destruct (String.eqb_spec x key) as [Heq'|Hne]; try contradiction; lia.
Qed.

Lemma counter_get_counter_of (key : string) (items : list string) :
  counter_get key (counter_of items) = count_occ string_dec items key.
Proof. unfold counter_of. now rewrite counter_get_fold_items. Qed.

Lemma counter_total_fold_items (items : list string) (c : Counter) :
  counter_total (fold_left (fun c item => counter_add item 1 c) items c)
  = counter_total c + List.length items.
Proof.
  revert c. induction items as [|x items IH]; intros c; simpl; [lia|].
  rewrite IH, counter_total_add. lia.
Qed.

Lemma counter_total_counter_of (items : list string) :
  counter_total (counter_of items) = List.length items.
Proof. unfold counter_of. now rewrite counter_total_fold_items. Qed.

(** ** One file *)

Lemma analyze_excel_file_body_loaded (w : World) (self : Analyzer) (path : string)
      (df : DataFrame) :
  loaded_frame w self path = Some df ->
  analyze_excel_file_body w self path
  = match identify_category_column df with
    | None => ret ([], len_df df, [])
    | Some category_column =>
        match dropna (column_values df category_column) with
        | [] => ret ([], len_df df, [])
        | _ => ret (count_stripped (dropna (column_values df category_column)),
                    len_df df, analyze_detailed_categories df)
        end
    end.
Proof.
  unfold loaded_frame, analyze_excel_file_body.
  destruct (pd_read_excel w path) as [e|df0]; [discriminate|]. simpl.
  destruct (df_empty df0); [discriminate|].
  destruct (filter_by_date_range w self df0) as [e|df1]; [discriminate|]. simpl.
  destruct (df_empty df1); [discriminate|].
  intros [= ->].
  destruct (identify_category_column df) as [cat|]; [|reflexivity].
  destruct (dropna (column_values df cat)); reflexivity.
Qed.

Lemma loaded_frame_unfiltered (w : World) (self : Analyzer) (path : string)
      (df : DataFrame) :
  range_active self = false ->
  pd_read_excel w path = inr df ->
  df_empty df = false ->
  loaded_frame w self path = Some df.
Proof.
  intros Hact Hread Hne. unfold loaded_frame.
  rewrite Hread, Hne, filter_by_date_range_inactive by exact Hact.
  now rewrite Hne.
Qed.

Lemma analyze_excel_file_returns (w : World) (self : Analyzer) (path : string) :
  exists r, analyze_excel_file w self path = inr r.
Proof.
  unfold analyze_excel_file.
  destruct (analyze_excel_file_body w self path) as [e|r]; simpl; eauto.
Qed.

(** A cell with a comma is tallied whole; [split_comma_categories] would
    have made two categories of it. *)
Lemma comma_values_are_counted_whole :
  count_stripped [CStr "Billing, Support"] = [("Billing, Support", 1)]
  /\ split_comma_categories [CStr "Billing, Support"] = ["Billing"; "Support"].
Proof. split; reflexivity. Qed.

(** C1. When the category column of a file is identified, the general map
    that [analyze_excel_file] returns counts, under every key, the non-empty
    cells of that column whose whole trimmed text is the key: a cell such as
    "Billing, Support" adds one to that one key and to no other, and the
    counts add up to the number of non-empty cells. *)
Theorem general_categories_are_not_split :
  forall (w : World) (self : Analyzer) (path : string) (df : DataFrame) (cat : string),
    loaded_frame w self path = Some df ->
    identify_category_column df = Some cat ->
    exists counter bundle,
      analyze_excel_file w self path = inr (counter, len_df df, bundle)
      /\ (forall key,
            counter_get key counter = count_occ string_dec (trimmed_values df cat) key)
      /\ counter_total counter = List.length (dropna (column_values df cat)).
Proof.
  intros w self path df cat Hload Hcat.
  unfold analyze_excel_file.
  rewrite (analyze_excel_file_body_loaded _ _ _ _ Hload), Hcat.
  unfold trimmed_values.
  destruct (dropna (column_values df cat)) as [|v vs] eqn:Hraw.
  - exists [], []. simpl. repeat split; reflexivity.
  - exists (count_stripped (v :: vs)), (analyze_detailed_categories df).
    split; [reflexivity|]. unfold count_stripped. split.
    + intros key. apply counter_get_counter_of.
    + now rewrite counter_total_counter_of, length_map.
Qed.

Lemma general_categories_are_not_split_witness :
  exists counter bundle,
    analyze_excel_file sample_world no_filter "calls.xlsx" = inr (counter, 5, bundle)
    /\ counter_get "Billing, Support" counter = 1
    /\ counter_get "Billing" counter = 0
    /\ counter_get "Support" counter = 0
    /\ counter_total counter = 5.
Proof.
  destruct (general_categories_are_not_split
              sample_world no_filter "calls.xlsx" calls_sheet "categoria_general"
              eq_refl eq_refl)
    as [counter [bundle [Hret [Hget Htotal]]]].
  exists counter, bundle. split; [exact Hret|].
  rewrite !Hget, Htotal. repeat split; reflexivity.
Defined.

(** C7 as stated fails: with a date range configured the row count returned
    for a file without a category column is the number of rows the filter
    left, not the number of rows of the file. *)
Lemma unresolved_category_full_count_fails :
  ~ (forall (w : World) (self : Analyzer) (path : string) (df : DataFrame),
        pd_read_excel w path = inr df ->
        df_empty df = false ->
        identify_category_column df = None ->
        analyze_excel_file w self path = inr ([], len_df df, [])).
Proof.
  intros H.
  specialize (H sample_world january "dated.xlsx" dated_sheet eq_refl eq_refl eq_refl).
  vm_compute in H. discriminate H.
Qed.

(** C7, amended. A file whose frame (the sheet read and filtered by date,
    not empty) has no column that [identify_category_column] accepts yields
    the empty general map, the empty bundle and the row count of that frame;
    when no date range is configured the frame is the sheet itself, so the
    count is the full row count of the file. *)
Theorem unresolved_category_keeps_row_count :
  forall (w : World) (self : Analyzer) (path : string) (df : DataFrame),
    (loaded_frame w self path = Some df ->
     identify_category_column df = None ->
     analyze_excel_file w self path = inr ([], len_df df, []))
    /\ (range_active self = false ->
        pd_read_excel w path = inr df ->
        df_empty df = false ->
        identify_category_column df = None ->
        analyze_excel_file w self path = inr ([], len_df df, [])).
Proof.
  intros w self path df.
  assert (Hmain : loaded_frame w self path = Some df ->
                  identify_category_column df = None ->
                  analyze_excel_file w self path = inr ([], len_df df, [])).
  { intros Hload Hcat. unfold analyze_excel_file.
    now rewrite (analyze_excel_file_body_loaded _ _ _ _ Hload), Hcat. }
  split; [exact Hmain|].
  intros Hact Hread Hne Hcat. apply Hmain; [|exact Hcat].
  now apply loaded_frame_unfiltered.
Qed.

Lemma unresolved_category_keeps_row_count_witness :
  analyze_excel_file sample_world no_filter "dated.xlsx" = inr ([], 4, [])
  /\ analyze_excel_file sample_world january "dated.xlsx" = inr ([], 2, []).
Proof.
  split.
  - apply (proj2 (unresolved_category_keeps_row_count
                    sample_world no_filter "dated.xlsx" dated_sheet));
      reflexivity.
  - apply (proj1 (unresolved_category_keeps_row_count
                    sample_world january "dated.xlsx"
                    (mkDF [mkCol "fecha" DDatetime; mkCol "x" DInt]
                          [[CDate (mkDateTime 2025 1 10 0 0 0); CInt 1];
                           [CDate (mkDateTime 2025 1 20 8 30 0); CInt 2]])));
      reflexivity.
Defined.

(** The scenario of the specification: a hundred rows, no category column. *)
Lemma unresolved_category_hundred_rows :
  identify_category_column hundred_rows_sheet = None
  /\ analyze_excel_file sample_world no_filter "hundred.xlsx" = inr ([], 100, []).
Proof. split; vm_compute; reflexivity. Qed.

(** ** Several files *)

Lemma fold_exc_app {S A} (f : S -> A -> Exc S) (l1 l2 : list A) (s : S) :
  fold_exc f (l1 ++ l2) s = (s' <- fold_exc f l1 s ;; fold_exc f l2 s').
Proof.
  revert s. induction l1 as [|x l1 IH]; intros s; simpl; [reflexivity|].
  destruct (f s x) as [e|s1]; simpl; [reflexivity | apply IH].
Qed.

Lemma merge_result_empty (total : Result) :
  merge_result total empty_result = inr total.
Proof.
  destruct total as [[c n] b]. simpl. unfold ret. now rewrite Nat.add_0_r.
Qed.

(** ** Splitting a joined route *)

Lemma length_drop (n : nat) (s : string) :
  String.length (PyStr.drop n s) = String.length s - n.
Proof.
  revert s. induction n as [|n IH]; intros s; simpl; [lia|].
  destruct s; simpl; [reflexivity | apply IH].
Qed.

Lemma split_go_fuel (sep s : string) (cur : list ascii) (f1 f2 : nat) :
  0 < String.length sep ->
  String.length s < f1 -> String.length s < f2 ->
  PyStr.split_go f1 sep s cur = PyStr.split_go f2 sep s cur.
Proof.
  intros Hsep. revert s cur f2.
  induction f1 as [|f1 IH]; intros s cur f2 H1 H2; [lia|].
  destruct f2 as [|f2]; [lia|].
  destruct s as [|c s]; [reflexivity|].
  cbn [PyStr.split_go].
  destruct (String.prefix sep (String c s)).
  - f_equal. apply IH; rewrite length_drop; cbn [String.length] in *; lia.
  - apply IH; cbn [String.length] in *; lia.
Qed.

Lemma string_snoc (l : list ascii) (c : ascii) (s : string) :
  string_of_list_ascii (l ++ [c]) ++ s = string_of_list_ascii l ++ String c s.
Proof. induction l as [|a l IH]; simpl; [reflexivity | now rewrite IH]. Qed.

Lemma append_empty_r (s : string) : s ++ "" = s.
Proof. induction s as [|c s IH]; simpl; [reflexivity | now rewrite IH]. Qed.

Lemma length_append (s t : string) :
  String.length (s ++ t) = String.length s + String.length t.
Proof. induction s as [|c s IH]; simpl; [reflexivity | now rewrite IH]. Qed.

Lemma separator_free_tail (c : ascii) (p : string) :
  separator_free (String c p) -> separator_free p.
Proof.
  unfold separator_free. cbn [PyStr.contains]. intros H.
  now apply orb_false_elim in H.
Qed.

Lemma prefix_cons (a b : ascii) (s t : string) :
  String.prefix (String a s) (String b t) = (Ascii.eqb a b && String.prefix s t).
Proof.
  cbn [String.prefix]. destruct (ascii_dec a b) as [->|Hne].
  - now rewrite Ascii.eqb_refl.
  - apply Ascii.eqb_neq in Hne. now rewrite Hne.
Qed.

Lemma prefix_empty (t : string) : String.prefix "" t = true.
Proof. now destruct t. Qed.

(** Inside a separator-free part, and across its end, the separator does
    not start. *)
Lemma prefix_sep_part (c : ascii) (p rest : string) :
  separator_free (String c p) ->
  String.prefix " | " (String c (p ++ " | " ++ rest)) = false.
Proof.
  unfold separator_free. cbn [PyStr.contains]. intros H.
  apply orb_false_elim in H. destruct H as [H _].
  rewrite prefix_cons in *.
  destruct (Ascii.eqb " " c); [|reflexivity]. cbn [andb] in *.
  destruct p as [|c' p]; cbn [append].
  - reflexivity.
  - rewrite prefix_cons in *. rewrite prefix_empty, andb_true_r in H.
    now rewrite H.
Qed.

Lemma prefix_sep_last (c : ascii) (p : string) :
  separator_free (String c p) ->
  String.prefix " | " (String c p) = false.
Proof.
  unfold separator_free. cbn [PyStr.contains]. intros H.
  apply orb_false_elim in H. destruct H as [H _].
  rewrite prefix_cons in *.
  destruct (Ascii.eqb " " c); [|reflexivity]. cbn [andb] in *.
  destruct p as [|c' p]; [reflexivity|].
  rewrite prefix_cons in *. rewrite prefix_empty, andb_true_r in H.
  now rewrite H.
Qed.

Lemma split_go_last (p : string) (cur : list ascii) (fuel : nat) :
  separator_free p ->
  String.length p < fuel ->
  PyStr.split_go fuel " | " p cur = [string_of_list_ascii (rev cur) ++ p].
Proof.
  revert cur fuel. induction p as [|c p IH]; intros cur fuel Hfree Hfuel;
    (destruct fuel as [|fuel]; [simpl in Hfuel; lia|]).
  - cbn [PyStr.split_go]. now rewrite append_empty_r.
  - cbn [PyStr.split_go]. rewrite prefix_sep_last by exact Hfree.
    rewrite IH; [| eapply separator_free_tail; eauto | simpl in Hfuel; lia].
    cbn [rev]. now rewrite string_snoc.
Qed.

Lemma split_go_part (p rest : string) (cur : list ascii) (fuel : nat) :
  separator_free p ->
  String.length (p ++ " | " ++ rest) < fuel ->
  PyStr.split_go fuel " | " (p ++ " | " ++ rest) cur
  = (string_of_list_ascii (rev cur) ++ p) :: PyStr.split rest " | ".
Proof.
  revert cur fuel. induction p as [|c p IH]; intros cur fuel Hfree Hfuel;
    (destruct fuel as [|fuel]; [simpl in Hfuel; lia|]).
  - rewrite append_empty_r. simpl in Hfuel.
    change ("" ++ " | " ++ rest) with (String " " (String "|" (String " " rest))).
    cbn [PyStr.split_go].
    replace (String.prefix " | " (String " " (String "|" (String " " rest))))
      with true by (now rewrite !prefix_cons, prefix_empty).
    f_equal. cbn [String.length PyStr.drop]. unfold PyStr.split.
    apply split_go_fuel; simpl; lia.
  - change (String c p ++ " | " ++ rest) with (String c (p ++ " | " ++ rest)).
    cbn [PyStr.split_go]. rewrite prefix_sep_part by exact Hfree.
    rewrite IH; [| eapply separator_free_tail; eauto
                 | simpl in Hfuel; unfold append in *; lia].
    cbn [rev]. now rewrite string_snoc.
Qed.

(** Joining separator-free parts and splitting again gives the parts back. *)
Lemma split_join (parts : list string) :
  parts <> [] ->
  Forall separator_free parts ->
  PyStr.split (PyStr.join ROUTE_SEP parts) ROUTE_SEP = parts.
Proof.
  unfold ROUTE_SEP. induction parts as [|p parts IH]; intros Hne Hfree;
    [contradiction|].
  inversion Hfree as [|? ? Hp Hrest]; subst.
  destruct parts as [|q parts].
  - simpl. unfold PyStr.split. rewrite split_go_last; [reflexivity | exact Hp | lia].
  - change (PyStr.join " | " (p :: q :: parts))
      with (p ++ " | " ++ PyStr.join " | " (q :: parts)).
    unfold PyStr.split at 1. rewrite split_go_part; [| exact Hp | lia].
    simpl rev. simpl string_of_list_ascii. simpl append at 1.
    f_equal. apply IH; [discriminate | exact Hrest].
Qed.

(** ** Combined routes *)

Lemma classify_columns_from (cols : list string) (g0 : option string)
      (e0 s0 : list string) :
  fold_left
    (fun acc col =>
       let '(general, especifica_cols, subtipo_cols) := acc in
       let col_lower := PyStr.lower col in
       if (col_lower =? "categoria_general")%string
       then (Some col, especifica_cols, subtipo_cols)
       else if PyStr.contains "categoria_especifica" col_lower
       then (general, (especifica_cols ++ [col])%list, subtipo_cols)
       else if PyStr.contains "subtipo_categoria" col_lower
       then (general, especifica_cols, (subtipo_cols ++ [col])%list)
       else acc)
    cols (g0, e0, s0)
  = (fold_left (fun g col => if is_general_column col then Some col else g) cols g0,
     (e0 ++ filter is_especifica_column cols)%list,
     (s0 ++ filter is_subtipo_column cols)%list).
Proof.
  revert g0 e0 s0. induction cols as [|col cols IH]; intros g0 e0 s0.
  - simpl. now rewrite !app_nil_r.
  - cbn [fold_left filter].
    unfold is_especifica_column, is_subtipo_column.
    destruct (is_general_column col) eqn:Hgen; cbn [negb andb];
      unfold is_general_column in Hgen; rewrite Hgen.
    + now rewrite IH.
    + destruct (PyStr.contains "categoria_especifica" (PyStr.lower col));
        cbn [negb andb].
      * rewrite IH. now rewrite <- app_assoc.
      * destruct (PyStr.contains "subtipo_categoria" (PyStr.lower col));
          rewrite IH; [now rewrite <- app_assoc | reflexivity].
Qed.

Lemma classify_columns_spec (cols : list string) :
  classify_columns cols
  = (general_column cols, filter is_especifica_column cols,
     filter is_subtipo_column cols).
Proof. unfold classify_columns. now rewrite classify_columns_from. Qed.

Lemma general_column_from (cols : list string) (g0 : option string) (g : string) :
  fold_left (fun g col => if is_general_column col then Some col else g) cols g0
  = Some g ->
  g0 = Some g \/ (In g cols /\ is_general_column g = true).
Proof.
  revert g0. induction cols as [|col cols IH]; intros g0 H; simpl in H; [now left|].
  destruct (IH _ H) as [H0|[Hin Hg]].
  - destruct (is_general_column col) eqn:Hcol.
    + injection H0 as ->. right. split; [now left | exact Hcol].
    + now left.
  - right. split; [now right | exact Hg].
Qed.

Lemma general_column_is_general (cols : list string) (g : string) :
  general_column cols = Some g -> In g cols /\ is_general_column g = true.
Proof.
  intros H. apply general_column_from in H. destruct H as [H|H]; [discriminate | exact H].
Qed.

Lemma general_column_not_empty (cols : list string) (g : string) :
  general_column cols = Some g -> (g =? "")%string = false.
Proof.
  intros H. apply general_column_is_general in H. destruct H as [_ H].
  destruct g; [discriminate H | reflexivity].
Qed.

Lemma combined_fold (df : DataFrame) (g : string) (esp sub : list string)
      (ic : option string) (rows : list (list Cell)) (c0 : Counter)
      (l0 : list RouteRecord) :
  fold_left
    (fun acc row =>
       match route_of_row df g esp sub ic row with
       | Some r => (counter_add (ruta_completa r) 1 (fst acc), (snd acc ++ [r])%list)
       | None => acc
       end)
    rows (c0, l0)
  = (fold_left (fun c item => counter_add item 1 c)
               (map ruta_completa
                    (flat_map (fun row => match route_of_row df g esp sub ic row with
                                          | Some r => [r]
                                          | None => []
                                          end) rows))
               c0,
     (l0 ++ flat_map (fun row => match route_of_row df g esp sub ic row with
                                 | Some r => [r]
                                 | None => []
                                 end) rows)%list).
Proof.
  revert c0 l0. induction rows as [|row rows IH]; intros c0 l0.
  - simpl. now rewrite app_nil_r.
  - cbn [fold_left flat_map].
    destruct (route_of_row df g esp sub ic row) as [r|].
    + rewrite IH. cbn [fst snd app map fold_left]. now rewrite <- app_assoc.
    + apply IH.
Qed.

(** The records of [analyze_combined_categories] are the records of the
    rows, in row order, and the route map tallies their routes. *)
Lemma analyze_combined_categories_records (df : DataFrame) (g : string) :
  general_column (columns df) = Some g ->
  analyze_combined_categories df
  = (counter_of (map ruta_completa
                     (route_records df g (filter is_especifica_column (columns df))
                                    (filter is_subtipo_column (columns df))
                                    (identify_installer_column df))),
     route_records df g (filter is_especifica_column (columns df))
                   (filter is_subtipo_column (columns df))
                   (identify_installer_column df)).
Proof.
  intros Hg. unfold analyze_combined_categories.
  rewrite classify_columns_spec, Hg, (general_column_not_empty _ _ Hg).
  rewrite combined_fold. reflexivity.
Qed.

Lemma analyze_combined_categories_no_general (df : DataFrame) :
  general_column (columns df) = None ->
  analyze_combined_categories df = ([], []).
Proof.
  intros Hg. unfold analyze_combined_categories.
  now rewrite classify_columns_spec, Hg.
Qed.

Lemma route_records_In (df : DataFrame) (g : string) (esp sub : list string)
      (ic : option string) (r : RouteRecord) :
  In r (route_records df g esp sub ic) <->
  exists row, In row (df_rows df) /\ route_of_row df g esp sub ic row = Some r.
Proof.
  unfold route_records. rewrite in_flat_map. split.
  - intros [row [Hrow Hr]]. exists row. split; [exact Hrow|].
    destruct (route_of_row df g esp sub ic row) as [r'|]; [|contradiction].
    destruct Hr as [->|[]]. reflexivity.
  - intros [row [Hrow Hr]]. exists row. split; [exact Hrow|].
    rewrite Hr. now left.
Qed.

Lemma route_of_row_Some (df : DataFrame) (g : string) (esp sub : list string)
      (ic : option string) (row : list Cell) (r : RouteRecord) :
  route_of_row df g esp sub ic row = Some r ->
  isna (cell_at df g row) = false
  /\ 1 < List.length (combined_parts df g esp sub row)
  /\ r = record_of_parts (combined_parts df g esp sub row)
                         (installer_of_row df ic row).
Proof.
  unfold route_of_row. destruct (isna (cell_at df g row)); [discriminate|].
  destruct (1 <? List.length (combined_parts df g esp sub row)) eqn:Hlen;
    [|discriminate].
  intros [= <-]. apply Nat.ltb_lt in Hlen. auto.
Qed.

(** C2 as stated fails: a part that contains the separator splits into more
    pieces than the route was built from. *)
Lemma route_split_recovers_parts_fails :
  ~ (forall (df : DataFrame) (g : string) (esp sub : list string)
            (ic : option string) (row : list Cell) (r : RouteRecord),
        route_of_row df g esp sub ic row = Some r ->
        PyStr.split (ruta_completa r) ROUTE_SEP = combined_parts df g esp sub row).
Proof.
  intros H.
  specialize (H calls_sheet "categoria_general" ["categoria_especifica"]
                ["subtipo_categoria"] (Some "agente_instalador")
                [CStr "A | B"; CStr "C"; CNull; CStr "Bob"]
                (mkRoute "A | B" "C" "" "A | B | C" "Bob") eq_refl).
  vm_compute in H. discriminate H.
Qed.

(** C2, amended. Every record that [analyze_combined_categories] emits comes
    from a row with a non-empty general cell and at least one part beyond
    the general category; its route is the parts of that row (general,
    first specific value if any, first subtype value if any) joined in order
    with " | "; and splitting the route on " | " gives these parts back
    whenever in no part a pipe follows a space. *)
Theorem route_split_recovers_parts :
  forall (df : DataFrame) (g : string) (r : RouteRecord),
    general_column (columns df) = Some g ->
    In r (snd (analyze_combined_categories df)) ->
    exists row,
      In row (df_rows df)
      /\ isna (cell_at df g row) = false
      /\ 1 < List.length (combined_parts df g (filter is_especifica_column (columns df))
                                         (filter is_subtipo_column (columns df)) row)
      /\ ruta_completa r
         = PyStr.join ROUTE_SEP
             (combined_parts df g (filter is_especifica_column (columns df))
                             (filter is_subtipo_column (columns df)) row)
      /\ (Forall separator_free
                 (combined_parts df g (filter is_especifica_column (columns df))
                                 (filter is_subtipo_column (columns df)) row) ->
          PyStr.split (ruta_completa r) ROUTE_SEP
          = combined_parts df g (filter is_especifica_column (columns df))
                           (filter is_subtipo_column (columns df)) row).
Proof.
  intros df g r Hg Hin.
  rewrite (analyze_combined_categories_records _ _ Hg) in Hin. cbn [snd] in Hin.
  apply route_records_In in Hin. destruct Hin as [row [Hrow Hr]].
  apply route_of_row_Some in Hr. destruct Hr as [Hna [Hlen ->]].
  exists row. repeat split; try assumption.
  intros Hfree. cbn [record_of_parts ruta_completa].
  apply split_join; [|exact Hfree].
  intros Hnil. rewrite Hnil in Hlen. simpl in Hlen. lia.
Qed.

Lemma route_split_recovers_parts_witness :
  exists row,
    In row (df_rows calls_sheet)
    /\ PyStr.split "Red | Slow" ROUTE_SEP = ["Red"; "Slow"]
    /\ combined_parts calls_sheet "categoria_general" ["categoria_especifica"]
                      ["subtipo_categoria"] row = ["Red"; "Slow"].
Proof.
  destruct (route_split_recovers_parts
              calls_sheet "categoria_general"
              (mkRoute "Red" "Slow" "" "Red | Slow" "Ana") eq_refl)
    as [row [Hrow [Hna [Hlen [Hroute Hsplit]]]]].
  { vm_compute. auto. }
  exists row. split; [exact Hrow|].
  cbn [ruta_completa] in Hroute, Hsplit.
  assert (Hparts : combined_parts calls_sheet "categoria_general"
                     (filter is_especifica_column (columns calls_sheet))
                     (filter is_subtipo_column (columns calls_sheet)) row
                   = ["Red"; "Slow"]).
  { destruct Hrow as [<-|[<-|[<-|[<-|[<-|[]]]]]]; vm_compute in Hroute;
      try discriminate Hroute; reflexivity. }
  split; [|exact Hparts].
  rewrite Hsplit; [exact Hparts|].
  rewrite Hparts. repeat constructor.
Defined.

Lemma first_present_all_null (df : DataFrame) (cols : list string) (row : list Cell) :
  (forall c, In c cols -> isna (cell_at df c row) = true) ->
  first_present df cols row = [].
Proof.
  induction cols as [|c cols IH]; intros H; simpl; [reflexivity|].
  rewrite (H c) by now left. apply IH. intros c' Hc'. apply H. now right.
Qed.

Lemma first_present_some (df : DataFrame) (cols : list string) (row : list Cell) :
  (exists c, In c cols /\ isna (cell_at df c row) = false) ->
  exists c, In c cols /\ isna (cell_at df c row) = false
            /\ first_present df cols row = [PyStr.strip (py_str (cell_at df c row))].
Proof.
  induction cols as [|c cols IH]; intros [c0 [Hin Hc0]]; [contradiction|].
  simpl. destruct (isna (cell_at df c row)) eqn:Hc.
  - destruct Hin as [->|Hin]; [congruence|].
    destruct IH as [c1 [Hin1 [Hc1 Hfp]]]; [now exists c0|].
    exists c1. repeat split; [now right | exact Hc1 | exact Hfp].
  - exists c. repeat split; [now left | exact Hc].
Qed.

(** C10. A row with a non-empty general cell, every column whose name
    contains "categoria_especifica" empty and some column whose name contains
    "subtipo_categoria" not empty adds a record whose [categoria_especifica]
    field holds the trimmed subtype value and whose [subtipo] field is the
    empty string: the fields are filled by position in the list of parts. *)
Theorem subtype_fills_specific_field :
  forall (df : DataFrame) (g : string) (row : list Cell),
    general_column (columns df) = Some g ->
    In row (df_rows df) ->
    isna (cell_at df g row) = false ->
    (forall c, In c (columns df) ->
               PyStr.contains "categoria_especifica" (PyStr.lower c) = true ->
               isna (cell_at df c row) = true) ->
    (exists c, In c (columns df)
               /\ PyStr.contains "subtipo_categoria" (PyStr.lower c) = true
               /\ isna (cell_at df c row) = false) ->
    exists r c,
      In r (snd (analyze_combined_categories df))
      /\ In c (columns df)
      /\ PyStr.contains "subtipo_categoria" (PyStr.lower c) = true
      /\ isna (cell_at df c row) = false
      /\ categoria_general r = PyStr.strip (py_str (cell_at df g row))
      /\ categoria_especifica r = PyStr.strip (py_str (cell_at df c row))
      /\ subtipo r = ""
      /\ ruta_completa r
         = PyStr.strip (py_str (cell_at df g row)) ++ " | "
           ++ PyStr.strip (py_str (cell_at df c row)).
Proof.
  intros df g row Hg Hrow Hna Hesp [c0 [Hc0in [Hc0sub Hc0na]]].
  assert (Hfp_esp : first_present df (filter is_especifica_column (columns df)) row = []).
  { apply first_present_all_null. intros c Hc. apply filter_In in Hc.
    destruct Hc as [Hin Hc]. unfold is_especifica_column in Hc.
    apply andb_true_iff in Hc. destruct Hc as [_ Hc]. now apply Hesp. }
  destruct (first_present_some df (filter is_subtipo_column (columns df)) row)
    as [c [Hcin [Hcna Hfp_sub]]].
  { exists c0. split; [|exact Hc0na]. apply filter_In. split; [exact Hc0in|].
    unfold is_subtipo_column. rewrite Hc0sub, andb_true_r.
    apply andb_true_iff. split.
    - unfold is_general_column.
      destruct (String.eqb_spec (PyStr.lower c0) "categoria_general") as [Heq|]; [|reflexivity].
      rewrite Heq in Hc0sub. vm_compute in Hc0sub. discriminate Hc0sub.
    - destruct (PyStr.contains "categoria_especifica" (PyStr.lower c0)) eqn:He;
        [|reflexivity].
      rewrite (Hesp c0 Hc0in He) in Hc0na. discriminate Hc0na. }
  apply filter_In in Hcin. destruct Hcin as [Hcin Hcsub].
  unfold is_subtipo_column in Hcsub. apply andb_true_iff in Hcsub.
  destruct Hcsub as [_ Hcsub].
  exists (record_of_parts
            [PyStr.strip (py_str (cell_at df g row));
             PyStr.strip (py_str (cell_at df c row))]
            (installer_of_row df (identify_installer_column df) row)), c.
  split.
  - rewrite (analyze_combined_categories_records _ _ Hg). cbn [snd].
    apply route_records_In. exists row. split; [exact Hrow|].
    unfold route_of_row, combined_parts. rewrite Hna, Hfp_esp, Hfp_sub.
    reflexivity.
  - repeat split; try assumption.
Qed.

Lemma subtype_fills_specific_field_witness :
  exists r,
    In r (snd (analyze_combined_categories calls_sheet))
    /\ categoria_general r = "Red"
    /\ categoria_especifica r = "Cut"
    /\ subtipo r = ""
    /\ ruta_completa r = "Red | Cut".
Proof.
  destruct (subtype_fills_specific_field
              calls_sheet "categoria_general"
              [CStr "Red"; CNull; CStr "Cut"; CStr "Ana"] eq_refl)
    as [r [c [Hin [Hc [Hsub [Hna [Hgen [Hesp [Hsubtipo Hruta]]]]]]]]].
  - simpl. auto.
  - reflexivity.
  - intros c [<-|[<-|[<-|[<-|[]]]]]; intros H; vm_compute in H;
      try discriminate H; reflexivity.
  - exists "subtipo_categoria". repeat split; simpl; auto.
  - exists r. split; [exact Hin|].
    assert (Hcell : PyStr.strip (py_str (cell_at calls_sheet c
                      [CStr "Red"; CNull; CStr "Cut"; CStr "Ana"])) = "Cut").
    { destruct Hc as [<-|[<-|[<-|[<-|[]]]]]; vm_compute in Hsub, Hna;
        try discriminate; reflexivity. }
    rewrite Hcell in Hesp, Hruta.
    repeat split; assumption.
Defined.

(** ** float64 rounding *)

Lemma round_half_even_error (s : Q) :
  (Qabs (inject_Z (round_half_even s) - s) <= 1 # 2)%Q.
Proof.
  unfold round_half_even.
  pose proof (Qfloor_le s) as Hlo. pose proof (Qlt_floor s) as Hhi.
  rewrite inject_Z_plus in Hhi. change (inject_Z 1) with 1%Q in Hhi.
  apply Qabs_Qle_condition.
  destruct (Qcompare_spec (s - inject_Z (Qfloor s)) (1 # 2)) as [He|Hl|Hg].
  - destruct (Z.even (Qfloor s)).
    + split; lra.
    + rewrite inject_Z_plus. change (inject_Z 1) with 1%Q. split; lra.
  - split; lra.
  - rewrite inject_Z_plus. change (inject_Z 1) with 1%Q. split; lra.
Qed.

Lemma round_half_even_comp (s s' : Q) :
  (s == s')%Q -> round_half_even s = round_half_even s'.
Proof.
  intros H. unfold round_half_even.
  rewrite (Qfloor_comp _ _ H).
  assert (Hc : ((s - inject_Z (Qfloor s') ?= 1 # 2)
                = (s' - inject_Z (Qfloor s') ?= 1 # 2))%Q).
  { apply Qcompare_comp; [now rewrite H | reflexivity]. }
  now rewrite Hc.
Qed.

Lemma round_half_even_Z (z : Z) : round_half_even (inject_Z z) = z.
Proof.
  unfold round_half_even. rewrite Qfloor_Z.
  assert (H : ((inject_Z z - inject_Z z ?= 1 # 2) = Lt)%Q).
  { apply Qlt_alt. setoid_replace (inject_Z z - inject_Z z)%Q with 0%Q by ring.
    reflexivity. }
  now rewrite H.
Qed.

Lemma two_not_zero : ~ (2 == 0)%Q.
Proof. intro H. discriminate H. Qed.

Lemma Qpower_two_pos (z : Z) : (0 < 2 ^ z)%Q.
Proof. apply Qpower_0_lt. reflexivity. Qed.

Lemma Qpower_two_succ (z : Z) : (2 ^ (z + 1) == 2 * 2 ^ z)%Q.
Proof. rewrite Qpower_plus by apply two_not_zero. rewrite Qpower_1_r. ring. Qed.

Lemma Qpower_two_log2 (n : Z) :
  (0 < n)%Z ->
  (2 ^ Z.log2 n <= inject_Z n /\ inject_Z n < 2 * 2 ^ Z.log2 n)%Q.
Proof.
  intros Hn. destruct (Z.log2_spec n Hn) as [Hlo Hhi].
  pose proof (Z.log2_nonneg n) as H0.
  rewrite <- Qpower_two_succ.
  change 2%Q with (inject_Z 2).
  rewrite <- !Zpower_Qpower by lia.
  rewrite <- Z.add_1_r in Hhi.
  split; [now rewrite <- Zle_Qle | now rewrite <- Zlt_Qlt].
Qed.

(** The binade of a positive number holds it. *)
Lemma binade_spec (q : Q) :
  (0 < q)%Q -> (2 ^ binade q <= q /\ q < 2 ^ (binade q + 1))%Q.
Proof.
  intros Hq. unfold binade.
  destruct q as [n d]. cbn [Qnum Qden].
  assert (Hn : (0 < n)%Z).
  { unfold Qlt in Hq. cbn in Hq. lia. }
  destruct (Qpower_two_log2 n Hn) as [Hn1 Hn2].
  destruct (Qpower_two_log2 (Zpos d) eq_refl) as [Hd1 Hd2].
  set (a := Z.log2 n) in *. set (b := Z.log2 (Z.pos d)) in *.
  pose proof (Qpower_two_pos a) as Ha. pose proof (Qpower_two_pos b) as Hb.
  assert (Hqd : (n # d == inject_Z n / inject_Z (Z.pos d))%Q) by apply Qmake_Qdiv.
  assert (HD : (0 < inject_Z (Z.pos d))%Q) by (rewrite <- (Zlt_Qlt 0); lia).
  assert (Hup : (n # d < 2 ^ (a - b + 1))%Q).
  { rewrite Qpower_two_succ, Qpower_minus by apply two_not_zero.
    rewrite Hqd. apply Qlt_shift_div_r; [exact HD|].
    assert (E : (2 * (2 ^ a / 2 ^ b) * inject_Z (Z.pos d)
                 == 2 * 2 ^ a * (inject_Z (Z.pos d) / 2 ^ b))%Q)
      by (field; lra).
    rewrite E.
    assert (H1 : (1 <= inject_Z (Z.pos d) / 2 ^ b)%Q)
      by (apply Qle_shift_div_l; [exact Hb | lra]).
    nra. }
  assert (Hlow : (2 ^ (a - b - 1) <= n # d)%Q).
  { rewrite Qpower_minus, Qpower_minus by apply two_not_zero.
    rewrite Qpower_1_r, Hqd.
    apply Qle_shift_div_l; [exact HD|].
    assert (E : (2 ^ a / 2 ^ b / 2 * inject_Z (Z.pos d)
                 == 2 ^ a * (inject_Z (Z.pos d) / (2 * 2 ^ b)))%Q)
      by (field; lra).
    rewrite E.
    assert (H1 : (inject_Z (Z.pos d) / (2 * 2 ^ b) <= 1)%Q)
      by (apply Qle_shift_div_r; lra).
    assert (H2 : (0 <= inject_Z (Z.pos d) / (2 * 2 ^ b))%Q).
    { apply Qle_shift_div_l; lra. }
    nra. }
  destruct (Qle_bool (2 ^ (a - b)) (n # d)) eqn:Htest.
  - apply Qle_bool_iff in Htest. split; [exact Htest | exact Hup].
  - split; [exact Hlow|].
    replace (a - b - 1 + 1)%Z with (a - b)%Z by lia.
    apply Qnot_le_lt. intro Hc. apply Qle_bool_iff in Hc.
    rewrite Hc in Htest. discriminate Htest.
Qed.

Lemma binade_lower (q : Q) (k : Z) :
  (0 < q)%Q -> (2 ^ k <= q)%Q -> (k <= binade q)%Z.
Proof.
  intros Hq Hk. destruct (binade_spec q Hq) as [_ Hhi].
  assert (H : (2 ^ k < 2 ^ (binade q + 1))%Q) by lra.
  apply Qpower_lt_compat_l_inv in H; [lia | reflexivity].
Qed.

Lemma binade_upper (q : Q) (k : Z) :
  (0 < q)%Q -> (q < 2 ^ k)%Q -> (binade q < k)%Z.
Proof.
  intros Hq Hk. destruct (binade_spec q Hq) as [Hlo _].
  assert (H : (2 ^ binade q < 2 ^ k)%Q) by lra.
  apply Qpower_lt_compat_l_inv in H; [lia | reflexivity].
Qed.

Lemma float64_positive (q : Q) : (0 < q)%Q -> float64 q = float64_pos q.
Proof.
  intros Hq. unfold float64.
  assert (H : (q ?= 0)%Q = Gt) by now apply Qgt_alt.
  now rewrite H.
Qed.

(** A number in the normal range is rounded with a relative error of at
    most 2^-53. *)
Lemma float64_relative_error (q : Q) :
  (0 < q)%Q -> (-1022 <= binade q)%Z ->
  (Qabs (float64 q - q) <= unit_roundoff * q)%Q.
Proof.
  intros Hq Hnormal. rewrite (float64_positive q Hq).
  unfold float64_pos, ulp. rewrite Z.max_l by lia.
  destruct (binade_spec q Hq) as [Hlo _].
  set (e := binade q) in *.
  pose proof (Qpower_two_pos (e - 52)) as HU.
  set (U := (2 ^ (e - 52))%Q) in *.
  pose proof (round_half_even_error (q / U)) as Hr.
  set (r := inject_Z (round_half_even (q / U))) in *.
  assert (HUe : (U == 2 ^ e * (1 # 4503599627370496))%Q).
  { unfold U. replace (e - 52)%Z with (e + -52)%Z by lia.
    rewrite Qpower_plus by apply two_not_zero. reflexivity. }
  assert (E : (r * U - q == (r - q / U) * U)%Q) by (field; intro H0; lra).
  rewrite E, Qabs_Qmult, (Qabs_pos U) by lra.
  unfold unit_roundoff.
  assert (H1 : (Qabs (r - q / U) * U <= (1 # 2) * U)%Q).
  { apply Qmult_le_compat_r; [exact Hr | lra]. }
  apply Qle_trans with ((1 # 2) * U)%Q; [exact H1|].
  rewrite HUe. lra.
Qed.

(** An integer below 2^53 is a float64. *)
Lemma float64_exact_int (z : Z) :
  (0 < z < 2 ^ 53)%Z -> (float_of_int z == inject_Z z)%Q.
Proof.
  intros [Hz0 Hz1]. unfold float_of_int.
  assert (Hq : (0 < inject_Z z)%Q) by (rewrite <- (Zlt_Qlt 0); lia).
  rewrite (float64_positive _ Hq). unfold float64_pos, ulp.
  assert (Hlo : (0 <= binade (inject_Z z))%Z).
  { apply binade_lower; [exact Hq|].
    change (2 ^ 0)%Q with (inject_Z 1). rewrite <- Zle_Qle. lia. }
  assert (Hhi : (binade (inject_Z z) < 53)%Z).
  { apply binade_upper; [exact Hq|].
    change 2%Q with (inject_Z 2). rewrite <- Zpower_Qpower by lia.
    now rewrite <- Zlt_Qlt. }
  set (e := binade (inject_Z z)) in *.
  rewrite Z.max_l by lia.
  assert (HU : (2 ^ (e - 52) == / inject_Z (2 ^ (52 - e)))%Q).
  { replace (e - 52)%Z with (- (52 - e))%Z by lia.
    rewrite Qpower_opp. change 2%Q with (inject_Z 2).
    now rewrite <- Zpower_Qpower by lia. }
  assert (HP : (0 < inject_Z (2 ^ (52 - e)))%Q).
  { rewrite <- (Zlt_Qlt 0). apply Z.pow_pos_nonneg; lia. }
  assert (Hs : (inject_Z z / 2 ^ (e - 52) == inject_Z (z * 2 ^ (52 - e)))%Q).
  { rewrite HU, inject_Z_mult. field. lra. }
  rewrite (round_half_even_comp _ _ Hs), round_half_even_Z.
  rewrite HU, inject_Z_mult. field. lra.
Qed.

(** The percentage of one group: two roundings, each with a relative
    error of at most 2^-53. *)
Lemma percentage_row_error (k total : nat) :
  1 <= k -> k <= total -> (Z.of_nat total < 2 ^ 53)%Z ->
  (Qabs (float_mul (float_div (float_of_int (Z.of_nat k))
                              (float_of_int (Z.of_nat total))) 100
         - inject_Z (Z.of_nat k) / inject_Z (Z.of_nat total) * 100)
   <= (2 * unit_roundoff + unit_roundoff * unit_roundoff)
      * (inject_Z (Z.of_nat k) / inject_Z (Z.of_nat total) * 100))%Q.
Proof.
  intros Hk Hkt Ht.
  assert (Ha : (float_of_int (Z.of_nat k) == inject_Z (Z.of_nat k))%Q)
    by (apply float64_exact_int; lia).
  assert (Hb : (float_of_int (Z.of_nat total) == inject_Z (Z.of_nat total))%Q)
    by (apply float64_exact_int; lia).
  assert (HK : (1 <= inject_Z (Z.of_nat k))%Q)
    by (change 1%Q with (inject_Z 1); rewrite <- Zle_Qle; lia).
  assert (HT : (inject_Z (Z.of_nat total) < 9007199254740992)%Q)
    by (change 9007199254740992%Q with (inject_Z (2 ^ 53)); rewrite <- Zlt_Qlt; lia).
  assert (HKT : (inject_Z (Z.of_nat k) <= inject_Z (Z.of_nat total))%Q)
    by (rewrite <- Zle_Qle; lia).
  unfold float_mul, float_div.
  set (K := inject_Z (Z.of_nat k)) in *. set (T := inject_Z (Z.of_nat total)) in *.
  set (q1 := (float_of_int (Z.of_nat k) / float_of_int (Z.of_nat total))%Q).
  assert (Hq1 : (q1 == K / T)%Q) by (unfold q1; now rewrite Ha, Hb).
  assert (Hlow : ((1 # 9007199254740992) <= K / T)%Q)
    by (apply Qle_shift_div_l; lra).
  assert (Hq1pos : (0 < q1)%Q) by lra.
  assert (Hx : (Qabs (float64 q1 - q1) <= unit_roundoff * q1)%Q).
  { apply float64_relative_error; [exact Hq1pos|].
    apply Z.le_trans with (-53)%Z; [lia|].
    apply binade_lower; [exact Hq1pos|].
    change (2 ^ (-53))%Q with (1 # 9007199254740992)%Q. lra. }
  set (x := float64 q1) in *.
  apply Qabs_Qle_condition in Hx. unfold unit_roundoff in *.
  assert (Hq2pos : (0 < x * 100)%Q) by lra.
  assert (Hp : (Qabs (float64 (x * 100) - x * 100) <= unit_roundoff * (x * 100))%Q).
  { apply float64_relative_error; [exact Hq2pos|].
    apply Z.le_trans with (-53)%Z; [lia|].
    apply binade_lower; [exact Hq2pos|].
    change (2 ^ (-53))%Q with (1 # 9007199254740992)%Q. lra. }
  set (p := float64 (x * 100)) in *.
  apply Qabs_Qle_condition in Hp. unfold unit_roundoff in *.
  apply Qabs_Qle_condition.
  set (E := (K / T)%Q) in *. split; lra.
Qed.

Lemma length_filter_le {A} (p : A -> bool) (l : list A) :
  List.length (filter p l) <= List.length l.
Proof. induction l as [|x l IH]; simpl; [lia|]. destruct (p x); simpl; lia. Qed.



(** ** The installer breakdown *)

Lemma generate_installer_breakdown_eq (details : list RouteRecord) :
  generate_installer_breakdown details
  = let grouped :=
      group_sizes (filter (fun r => negb (agente_instalador r =? SIN_ASIGNAR)%string)
                          details) in
    sort_breakdown (map (breakdown_row grouped) grouped).
Proof.
  unfold generate_installer_breakdown.
  destruct details as [|d details]; [reflexivity|].
  destruct (filter _ (d :: details)); reflexivity.
Qed.

Lemma keys_compare_eq (a b : list string) : keys_compare a b = Eq -> a = b.
Proof.
  revert b. induction a as [|x a IH]; intros [|y b] H; simpl in H;
    try discriminate; [reflexivity|].
  destruct (String.compare x y) eqn:Hxy; try discriminate.
  apply String.compare_eq_iff in Hxy. subst. f_equal. now apply IH.
Qed.

Lemma group_key_agent (r g : RouteRecord) :
  keys_compare (group_key r) (group_key g) = Eq ->
  agente_instalador r = agente_instalador g.
Proof.
  intros H. apply keys_compare_eq in H. unfold group_key in H. now injection H.
Qed.

Lemma total_agente_cons (g : RouteRecord * nat) (groups : list (RouteRecord * nat))
      (agent : string) :
  total_agente (g :: groups) agent
  = if (agente_instalador (fst g) =? agent)%string
    then snd g + total_agente groups agent
    else total_agente groups agent.
Proof. reflexivity. Qed.

Lemma frecuencia_sum_cons (agent : string) (x : InstallerRecord)
      (rows : list InstallerRecord) :
  frecuencia_sum agent (x :: rows)
  = if (agent_of x =? agent)%string
    then Frecuencia x + frecuencia_sum agent rows
    else frecuencia_sum agent rows.
Proof. reflexivity. Qed.

Lemma porcentaje_sum_cons (agent : string) (x : InstallerRecord)
      (rows : list InstallerRecord) :
  porcentaje_sum agent (x :: rows)
  = if (agent_of x =? agent)%string
    then (Porcentaje_Agente x + porcentaje_sum agent rows)%Q
    else porcentaje_sum agent rows.
Proof. reflexivity. Qed.

Lemma total_agente_insert (r : RouteRecord) (groups : list (RouteRecord * nat))
      (agent : string) :
  total_agente (group_insert r groups) agent
  = total_agente groups agent
    + (if (agente_instalador r =? agent)%string then 1 else 0).
Proof.
  induction groups as [|[g n] groups IH]; cbn [group_insert].
  - rewrite total_agente_cons. cbn [fst snd total_agente fold_right].
    destruct (agente_instalador r =? agent)%string; lia.
  - destruct (keys_compare (group_key r) (group_key g)) eqn:Hcmp;
      rewrite !total_agente_cons; cbn [fst snd].
    + rewrite (group_key_agent _ _ Hcmp).
      destruct (agente_instalador g =? agent)%string; lia.
    + destruct (agente_instalador r =? agent)%string;
        destruct (agente_instalador g =? agent)%string; lia.
    + rewrite IH. destruct (agente_instalador g =? agent)%string; lia.
Qed.

Lemma total_agente_fold (records : list RouteRecord) (groups : list (RouteRecord * nat))
      (agent : string) :
  total_agente (fold_left (fun groups r => group_insert r groups) records groups) agent
  = total_agente groups agent + count_agent agent records.
Proof.
  revert groups. induction records as [|r records IH]; intros groups.
  - simpl. unfold count_agent. simpl. lia.
  - cbn [fold_left]. rewrite IH, total_agente_insert. unfold count_agent. simpl.
    destruct (agente_instalador r =? agent)%string; simpl; lia.
Qed.

Lemma total_agente_group_sizes (records : list RouteRecord) (agent : string) :
  total_agente (group_sizes records) agent = count_agent agent records.
Proof. unfold group_sizes. now rewrite total_agente_fold. Qed.

Lemma groups_from_weaken (r : RouteRecord) (records : list RouteRecord)
      (groups : list (RouteRecord * nat)) :
  groups_from records groups -> groups_from (r :: records) groups.
Proof.
  unfold groups_from. rewrite !Forall_forall. intros H g Hg.
  destruct (H g Hg) as [[r' [Hin Heq]] Hpos].
  split; [exists r'; split; [now right | exact Heq] | exact Hpos].
Qed.

Lemma groups_from_insert (r : RouteRecord) (records : list RouteRecord)
      (groups : list (RouteRecord * nat)) :
  groups_from records groups ->
  groups_from (r :: records) (group_insert r groups).
Proof.
  intros H. apply groups_from_weaken with (r := r) in H.
  induction groups as [|[g n] groups IH]; cbn [group_insert].
  - constructor; [|constructor]. split; [exists r; split; [now left | reflexivity] | simpl; lia].
  - inversion H as [|? ? Hg Hrest]; subst.
    destruct (keys_compare (group_key r) (group_key g)) eqn:Hcmp.
    + constructor; [|exact Hrest]. destruct Hg as [Hex _].
      split; [exact Hex | simpl; lia].
    + constructor; [|exact H].
      split; [exists r; split; [now left | reflexivity] | simpl; lia].
    + constructor; [exact Hg | now apply IH].
Qed.

Lemma groups_from_fold (records seen : list RouteRecord)
      (groups : list (RouteRecord * nat)) :
  groups_from seen groups ->
  groups_from (rev records ++ seen)
              (fold_left (fun groups r => group_insert r groups) records groups).
Proof.
  revert seen groups. induction records as [|r records IH]; intros seen groups H.
  - exact H.
  - cbn [fold_left rev]. rewrite <- app_assoc. cbn [app].
    apply IH. now apply groups_from_insert.
Qed.

Lemma groups_from_group_sizes (records : list RouteRecord) :
  groups_from records (group_sizes records).
Proof.
  unfold group_sizes.
  pose proof (groups_from_fold records [] [] (Forall_nil _)) as H.
  rewrite app_nil_r in H. unfold groups_from in *. rewrite Forall_forall in *.
  intros g Hg. destruct (H g Hg) as [[r [Hin Heq]] Hpos].
  split; [exists r; split; [now apply in_rev | exact Heq] | exact Hpos].
Qed.

(** *** Sorting keeps the rows *)

Lemma frecuencia_sum_insert (agent : string) (x : InstallerRecord)
      (rows : list InstallerRecord) :
  frecuencia_sum agent (insert_sorted x rows) = frecuencia_sum agent (x :: rows).
Proof.
  induction rows as [|y rows IH]; [reflexivity|].
  cbn [insert_sorted]. destruct (precedes y x); [|reflexivity].
  rewrite !frecuencia_sum_cons, IH, frecuencia_sum_cons.
  destruct (agent_of y =? agent)%string, (agent_of x =? agent)%string; lia.
Qed.

Lemma frecuencia_sum_sort (agent : string) (rows : list InstallerRecord) :
  frecuencia_sum agent (sort_breakdown rows) = frecuencia_sum agent rows.
Proof.
  induction rows as [|x rows IH]; [reflexivity|].
  change (sort_breakdown (x :: rows)) with (insert_sorted x (sort_breakdown rows)).
  now rewrite frecuencia_sum_insert, !frecuencia_sum_cons, IH.
Qed.

Lemma porcentaje_sum_insert (agent : string) (x : InstallerRecord)
      (rows : list InstallerRecord) :
  (porcentaje_sum agent (insert_sorted x rows) == porcentaje_sum agent (x :: rows))%Q.
Proof.
  induction rows as [|y rows IH]; [reflexivity|].
  cbn [insert_sorted]. destruct (precedes y x); [|reflexivity].
  rewrite (porcentaje_sum_cons agent y (insert_sorted x rows)).
  rewrite (porcentaje_sum_cons agent x (y :: rows)).
  rewrite (porcentaje_sum_cons agent y rows).
  rewrite porcentaje_sum_cons in IH.
  destruct (agent_of y =? agent)%string, (agent_of x =? agent)%string;
    rewrite IH; try reflexivity; ring.
Qed.

Lemma porcentaje_sum_sort (agent : string) (rows : list InstallerRecord) :
  (porcentaje_sum agent (sort_breakdown rows) == porcentaje_sum agent rows)%Q.
Proof.
  induction rows as [|x rows IH]; [reflexivity|].
  change (sort_breakdown (x :: rows)) with (insert_sorted x (sort_breakdown rows)).
  rewrite porcentaje_sum_insert, !porcentaje_sum_cons.
  destruct (agent_of x =? agent)%string; now rewrite IH.
Qed.

Lemma In_insert_sorted (x y : InstallerRecord) (rows : list InstallerRecord) :
  In y (insert_sorted x rows) <-> In y (x :: rows).
Proof.
  induction rows as [|z rows IH]; [reflexivity|].
  cbn [insert_sorted]. destruct (precedes z x); [|reflexivity].
  simpl in *. rewrite IH. tauto.
Qed.

Lemma In_sort_breakdown (y : InstallerRecord) (rows : list InstallerRecord) :
  In y (sort_breakdown rows) <-> In y rows.
Proof.
  induction rows as [|x rows IH]; [reflexivity|].
  change (sort_breakdown (x :: rows)) with (insert_sorted x (sort_breakdown rows)).
  rewrite In_insert_sorted. simpl. now rewrite IH.
Qed.

(** *** Sums over the rows of the groups *)

Lemma frecuencia_sum_rows (agent : string) (all groups : list (RouteRecord * nat)) :
  frecuencia_sum agent (map (breakdown_row all) groups) = total_agente groups agent.
Proof.
  induction groups as [|g groups IH]; [reflexivity|].
  cbn [map]. rewrite frecuencia_sum_cons, total_agente_cons, IH. reflexivity.
Qed.

Lemma total_agente_ge (groups : list (RouteRecord * nat)) (g : RouteRecord * nat) :
  In g groups -> snd g <= total_agente groups (agente_instalador (fst g)).
Proof.
  induction groups as [|h groups IH]; intros Hin; [destruct Hin|].
  rewrite total_agente_cons. destruct Hin as [->|Hin].
  - rewrite String.eqb_refl. lia.
  - specialize (IH Hin).
    destruct (agente_instalador (fst h) =? agente_instalador (fst g))%string; lia.
Qed.

Lemma porcentaje_sum_rows (agent : string) (all groups : list (RouteRecord * nat)) :
  (Z.of_nat (total_agente all agent) < 2 ^ 53)%Z ->
  Forall (fun g => agente_instalador (fst g) = agent ->
                   1 <= snd g <= total_agente all agent) groups ->
  (Qabs (porcentaje_sum agent (map (breakdown_row all) groups)
         - inject_Z (Z.of_nat (total_agente groups agent))
           / inject_Z (Z.of_nat (total_agente all agent)) * 100)
   <= (2 * unit_roundoff + unit_roundoff * unit_roundoff)
      * (inject_Z (Z.of_nat (total_agente groups agent))
         / inject_Z (Z.of_nat (total_agente all agent)) * 100))%Q.
Proof.
  intros Hsize Hgroups. induction Hgroups as [|g groups Hg _ IH].
  - change (total_agente [] agent) with 0.
    change (porcentaje_sum agent (map (breakdown_row all) [])) with 0%Q.
    change (inject_Z (Z.of_nat 0)) with 0%Q.
    set (T := inject_Z (Z.of_nat (total_agente all agent))).
    assert (E : (0 / T * 100 == 0)%Q) by (unfold Qdiv; ring).
    rewrite E. apply Qabs_Qle_condition. unfold unit_roundoff. split; lra.
  - cbn [map]. rewrite porcentaje_sum_cons, total_agente_cons.
    unfold agent_of. cbn [breakdown_row ir_route Porcentaje_Agente].
    destruct (String.eqb_spec (agente_instalador (fst g)) agent) as [Heq|Hne];
      [|exact IH].
    destruct (Hg Heq) as [Hk Hkt].
    pose proof (percentage_row_error (snd g) (total_agente all agent) Hk Hkt Hsize)
      as Hrow.
    rewrite Heq.
    set (p := float_mul _ 100) in *.
    set (rest := porcentaje_sum agent (map (breakdown_row all) groups)) in *.
    assert (Hsplit :
              (inject_Z (Z.of_nat (snd g + total_agente groups agent))
               / inject_Z (Z.of_nat (total_agente all agent)) * 100
               == inject_Z (Z.of_nat (snd g))
                  / inject_Z (Z.of_nat (total_agente all agent)) * 100
                  + inject_Z (Z.of_nat (total_agente groups agent))
                    / inject_Z (Z.of_nat (total_agente all agent)) * 100)%Q).
    { rewrite Nat2Z.inj_add, inject_Z_plus. unfold Qdiv. ring. }
    rewrite Hsplit.
    set (e1 := (inject_Z (Z.of_nat (snd g))
                / inject_Z (Z.of_nat (total_agente all agent)) * 100)%Q) in *.
    set (e2 := (inject_Z (Z.of_nat (total_agente groups agent))
                / inject_Z (Z.of_nat (total_agente all agent)) * 100)%Q) in *.
    apply Qabs_Qle_condition in Hrow. apply Qabs_Qle_condition in IH.
    apply Qabs_Qle_condition. unfold unit_roundoff in *. split; lra.
Qed.

Lemma frecuencia_sum_absent (agent : string) (rows : list InstallerRecord) :
  existsb (fun r => (agent_of r =? agent)%string) rows = false ->
  frecuencia_sum agent rows = 0 /\ porcentaje_sum agent rows = 0%Q.
Proof.
  induction rows as [|x rows IH]; intros H; [now split|].
  cbn [existsb] in H. apply orb_false_elim in H. destruct H as [Hx Hrest].
  rewrite frecuencia_sum_cons, porcentaje_sum_cons, Hx. now apply IH.
Qed.

Lemma frecuencia_sum_present (agent : string) (rows : list InstallerRecord) :
  existsb (fun r => (agent_of r =? agent)%string) rows = true ->
  Forall (fun r => 0 < Frecuencia r) rows ->
  0 < frecuencia_sum agent rows.
Proof.
  induction rows as [|x rows IH]; intros H Hpos; [discriminate|].
  inversion Hpos as [|? ? Hx Hrest]; subst.
  cbn [existsb] in H. rewrite frecuencia_sum_cons.
  destruct (agent_of x =? agent)%string; [lia|].
  apply IH; assumption.
Qed.

Lemma count_agent_filter (agent : string) (details : list RouteRecord) :
  count_agent agent
    (filter (fun r => negb (agente_instalador r =? SIN_ASIGNAR)%string) details)
  = if (agent =? SIN_ASIGNAR)%string then 0 else count_agent agent details.
Proof.
  unfold count_agent. induction details as [|r details IH].
  - simpl. now destruct (agent =? SIN_ASIGNAR)%string.
  - cbn [filter].
    destruct (String.eqb_spec (agente_instalador r) SIN_ASIGNAR) as [Hsin|Hsin];
      cbn [negb filter].
    + rewrite IH.
      destruct (String.eqb_spec agent SIN_ASIGNAR) as [Ha|Ha]; [reflexivity|].
      destruct (String.eqb_spec (agente_instalador r) agent) as [He|He];
        [congruence | reflexivity].
    + destruct (String.eqb_spec (agente_instalador r) agent) as [He|He];
        cbn [List.length]; rewrite IH.
      * destruct (String.eqb_spec agent SIN_ASIGNAR) as [Ha|Ha];
          [congruence | reflexivity].
      * reflexivity.
Qed.

(** C3. In the breakdown that [generate_installer_breakdown] returns no row
    carries the agent "Sin asignar"; for every agent the [Frecuencia] values
    of its rows add up to the number of its input records (none for the
    sentinel); and the [Porcentaje_Agente] values of its rows add up to 100
    within the tolerance of 3e-14 when the agent has rows, to nothing when
    it has none.  Every percentage is the float64 the code computes, a
    rounded quotient times 100, rounded again; the sum is taken exactly.
    The bound on the sum holds for lists of fewer than 2^53 records, whose
    counts are float64 values. *)
Theorem installer_breakdown_invariants :
  forall (details : list RouteRecord) (agent : string),
    Forall (fun r => agent_of r <> SIN_ASIGNAR) (generate_installer_breakdown details)
    /\ frecuencia_sum agent (generate_installer_breakdown details)
       = (if (agent =? SIN_ASIGNAR)%string then 0 else count_agent agent details)
    /\ ((Z.of_nat (List.length details) < 2 ^ 53)%Z ->
        if existsb (fun r => (agent_of r =? agent)%string)
                   (generate_installer_breakdown details)
        then (Qabs (porcentaje_sum agent (generate_installer_breakdown details) - 100)
              <= percentage_tolerance)%Q
        else (porcentaje_sum agent (generate_installer_breakdown details) == 0)%Q).
Proof.
  intros details agent. rewrite generate_installer_breakdown_eq. cbv zeta.
  set (kept := filter (fun r => negb (agente_instalador r =? SIN_ASIGNAR)%string) details).
  set (grouped := group_sizes kept).
  pose proof (groups_from_group_sizes kept) as Hfrom. fold grouped in Hfrom.
  unfold groups_from in Hfrom. rewrite Forall_forall in Hfrom.
  assert (Hfreq : frecuencia_sum agent (sort_breakdown (map (breakdown_row grouped) grouped))
                  = count_agent agent kept).
  { rewrite frecuencia_sum_sort, frecuencia_sum_rows.
    apply total_agente_group_sizes. }
  split; [|split].
  - apply Forall_forall. intros row Hrow.
    apply In_sort_breakdown, in_map_iff in Hrow. destruct Hrow as [g [<- Hg]].
    destruct (Hfrom g Hg) as [[r [Hr Heq]] _].
    unfold agent_of. cbn [breakdown_row ir_route]. rewrite <- Heq.
    apply filter_In in Hr. destruct Hr as [_ Hr].
    apply negb_true_iff, String.eqb_neq in Hr. exact Hr.
  - rewrite Hfreq. apply count_agent_filter.
  - intros Hsize.
    destruct (existsb _ (sort_breakdown (map (breakdown_row grouped) grouped)))
      eqn:Hex.
    + rewrite porcentaje_sum_sort.
      assert (Hpos : 0 < total_agente grouped agent).
      { rewrite <- frecuencia_sum_rows with (all := grouped).
        rewrite <- frecuencia_sum_sort.
        apply frecuencia_sum_present; [exact Hex|].
        apply Forall_forall. intros row Hrow.
        apply In_sort_breakdown, in_map_iff in Hrow. destruct Hrow as [g [<- Hg]].
        cbn [breakdown_row Frecuencia]. now destruct (Hfrom g Hg). }
      assert (Htotal : (Z.of_nat (total_agente grouped agent) < 2 ^ 53)%Z).
      { unfold grouped. rewrite total_agente_group_sizes. unfold count_agent.
        pose proof (length_filter_le
                      (fun r => (agente_instalador r =? agent)%string) kept).
        pose proof (length_filter_le
                      (fun r => negb (agente_instalador r =? SIN_ASIGNAR)%string)
                      details).
        fold kept in H0. lia. }
      assert (Hgroups :
                Forall (fun g => agente_instalador (fst g) = agent ->
                                 1 <= snd g <= total_agente grouped agent) grouped).
      { apply Forall_forall. intros g Hg Hagent. split.
        - destruct (Hfrom g Hg) as [_ Hg1]. lia.
        - rewrite <- Hagent. now apply total_agente_ge. }
      pose proof (porcentaje_sum_rows agent grouped grouped Htotal Hgroups) as Hsum.
      assert (Hone : (inject_Z (Z.of_nat (total_agente grouped agent))
                      / inject_Z (Z.of_nat (total_agente grouped agent)) * 100
                      == 100)%Q).
      { field. intros H0.
        assert (Hz : (inject_Z (Z.of_nat (total_agente grouped agent)) == inject_Z 0)%Q)
          by exact H0.
        rewrite inject_Z_injective in Hz. lia. }
      rewrite Hone in Hsum.
      apply Qabs_Qle_condition in Hsum. apply Qabs_Qle_condition.
      unfold unit_roundoff, percentage_tolerance in *. split; lra.
    + apply frecuencia_sum_absent in Hex. destruct Hex as [_ ->]. reflexivity.
Qed.

(** Three routes of one installer: each percentage is the float64 nearest
    to a third of a hundred, and their sum is not 100 but within the
    tolerance of it. *)
Lemma installer_breakdown_invariants_witness :
  (Qabs (porcentaje_sum "Ana" (generate_installer_breakdown thirds_details) - 100)
   <= percentage_tolerance)%Q
  /\ ~ (porcentaje_sum "Ana" (generate_installer_breakdown thirds_details) == 100)%Q.
Proof.
  split.
  - exact (proj2 (proj2 (installer_breakdown_invariants thirds_details "Ana")) eq_refl).
  - vm_compute. discriminate.
Defined.

(** The breakdown of the sample sheet: two rows for Ana, one for Bob, none
    for the unassigned call. *)
Lemma installer_breakdown_sample :
  let out := generate_installer_breakdown (snd (analyze_combined_categories calls_sheet)) in
  map agent_of out = ["Ana"; "Ana"; "Bob"]
  /\ frecuencia_sum "Ana" out = 2
  /\ (porcentaje_sum "Ana" out == 100)%Q
  /\ (porcentaje_sum "Bob" out == 100)%Q.
Proof. vm_compute. repeat split; reflexivity. Qed.

(** ** Dicts *)

Section Dicts.

Context {V : Type}.

Lemma dict_get_set_same (k : string) (v : V) (d : list (string * V)) :
  dict_get k (dict_set k v d) = Some v.
Proof.
  induction d as [|[k' v'] d IH]; simpl.
  - now rewrite String.eqb_refl.
  - destruct (String.eqb_spec k' k) as [->|Hne]; simpl.
    + now rewrite String.eqb_refl.
    + apply String.eqb_neq in Hne. now rewrite Hne.
Qed.

Lemma dict_get_set_other (k k' : string) (v : V) (d : list (string * V)) :
  k <> k' -> dict_get k' (dict_set k v d) = dict_get k' d.
Proof.
  intros Hne. induction d as [|[k0 v0] d IH]; simpl.
  - apply String.eqb_neq in Hne. now rewrite Hne.
  - destruct (String.eqb_spec k0 k) as [->|Hne0]; simpl.
    + apply String.eqb_neq in Hne. now rewrite Hne.
    + now rewrite IH.
Qed.

Lemma keys_dict_set (k k' : string) (v : V) (d : list (string * V)) :
  In k' (keys (dict_set k v d)) <-> k' = k \/ In k' (keys d).
Proof.
  unfold keys. induction d as [|[k0 v0] d IH]; simpl.
  - intuition.
  - destruct (String.eqb_spec k0 k) as [->|Hne0]; simpl; [|rewrite IH]; intuition.
Qed.

Lemma NoDup_dict_set (k : string) (v : V) (d : list (string * V)) :
  NoDup (keys d) -> NoDup (keys (dict_set k v d)).
Proof.
  unfold keys. induction d as [|[k0 v0] d IH]; intros Hnd; simpl.
  - constructor; [intros [] | constructor].
  - inversion Hnd as [|? ? Hnot Hrest]; subst.
    destruct (String.eqb_spec k0 k) as [->|Hne0]; simpl.
    + constructor; assumption.
    + constructor; [|now apply IH].
      intros Hin. apply (keys_dict_set k k0 v d) in Hin.
      destruct Hin as [Heq|Hin]; [congruence | contradiction].
Qed.

Lemma dict_get_None (k : string) (d : list (string * V)) :
  ~ In k (keys d) -> dict_get k d = None.
Proof.
  unfold keys. induction d as [|[k0 v0] d IH]; intros Hnot; simpl; [reflexivity|].
  destruct (String.eqb_spec k0 k) as [->|Hne0].
  - exfalso. apply Hnot. now left.
  - apply IH. intros Hin. apply Hnot. now right.
Qed.

Lemma dict_get_In (k : string) (v : V) (d : list (string * V)) :
  dict_get k d = Some v -> In (k, v) d.
Proof.
  induction d as [|[k0 v0] d IH]; simpl; [discriminate|].
  destruct (String.eqb_spec k0 k) as [->|Hne0].
  - intros [= ->]. now left.
  - intros H. right. now apply IH.
Qed.

Lemma In_dict_get (k : string) (v : V) (d : list (string * V)) :
  NoDup (keys d) -> In (k, v) d -> dict_get k d = Some v.
Proof.
  unfold keys. induction d as [|[k0 v0] d IH]; intros Hnd Hin; [contradiction|].
  inversion Hnd as [|? ? Hnot Hrest]; subst. simpl.
  destruct Hin as [[= -> ->]|Hin].
  - now rewrite String.eqb_refl.
  - destruct (String.eqb_spec k0 k) as [->|Hne0].
    + exfalso. apply Hnot. apply in_map_iff. now exists (k, v).
    + now apply IH.
Qed.

End Dicts.

(** ** Counters under [update] *)

Lemma counter_get_update (key : string) (t c : Counter) :
  counter_get key (counter_update t c) = counter_get key t + key_sum key c.
Proof.
  unfold counter_update. revert t. induction c as [|[k n] c IH]; intros t; simpl.
  - lia.
  - rewrite IH, counter_get_add. destruct (k =? key)%string; lia.
Qed.

(** ** Merging one bundle into the running total *)

Lemma kind_at_set (k k' : string) (v : BundleValue) (d : Bundle) :
  kind_at k' (dict_set k v d)
  = if (k =? k')%string then Some (is_list_value v) else kind_at k' d.
Proof.
  unfold kind_at. destruct (String.eqb_spec k k') as [->|Hne].
  - now rewrite dict_get_set_same.
  - now rewrite dict_get_set_other.
Qed.

Lemma detail_list_set (k key : string) (v : BundleValue) (d : Bundle) :
  detail_list key (dict_set k v d)
  = if (k =? key)%string then list_of_value v else detail_list key d.
Proof.
  unfold detail_list. destruct (String.eqb_spec k key) as [->|Hne].
  - rewrite dict_get_set_same. now destruct v.
  - now rewrite dict_get_set_other.
Qed.

Lemma kind_at_cons (k k' : string) (v : BundleValue) (b : Bundle) :
  kind_at k' ((k, v) :: b)
  = if (k =? k')%string then Some (is_list_value v) else kind_at k' b.
Proof. unfold kind_at. simpl. now destruct (k =? k')%string. Qed.

Lemma detail_list_cons (k key : string) (v : BundleValue) (b : Bundle) :
  detail_list key ((k, v) :: b)
  = if (k =? key)%string then list_of_value v else detail_list key b.
Proof.
  unfold detail_list. simpl. destruct (k =? key)%string; [now destruct v | reflexivity].
Qed.

Lemma merge_entry_ok (total : Bundle) (k : string) (v : BundleValue) :
  match kind_at k total with
  | None => true
  | Some x => Bool.eqb x (is_list_value v)
  end = true ->
  exists total',
    merge_entry total (k, v) = inr total'
    /\ (forall k', kind_at k' total'
                   = if (k =? k')%string then Some (is_list_value v)
                     else kind_at k' total)
    /\ (forall key, detail_list key total'
                    = (detail_list key total
                       ++ (if (k =? key)%string then list_of_value v else []))%list).
Proof.
  unfold merge_entry. intros Hok. unfold kind_at in Hok.
  destruct v as [c|l]; destruct (dict_get k total) as [[t|t]|] eqn:Hget;
    simpl in Hok; try discriminate; eexists; (split; [reflexivity|]);
    (split; [intros k'; rewrite kind_at_set; reflexivity|]);
    intros key; rewrite detail_list_set; unfold detail_list;
    (destruct (String.eqb_spec k key) as [<-|Hne];
     [rewrite Hget; simpl; now rewrite ?app_nil_r | now rewrite app_nil_r]).
Qed.

Lemma merge_entry_clash (total : Bundle) (k : string) (v : BundleValue) :
  match kind_at k total with
  | None => true
  | Some x => Bool.eqb x (is_list_value v)
  end = false ->
  merge_entry total (k, v) = inl AttributeError.
Proof.
  unfold kind_at, merge_entry. intros Hbad.
  destruct v as [c|l]; destruct (dict_get k total) as [[t|t]|];
    simpl in Hbad; try discriminate; reflexivity.
Qed.

Lemma compatible_with_ext (total total' b : Bundle) :
  (forall kv, In kv b -> kind_at (fst kv) total' = kind_at (fst kv) total) ->
  compatible_with total' b = compatible_with total b.
Proof.
  intros H. unfold compatible_with. induction b as [|kv b IH]; [reflexivity|].
  cbn [forallb]. rewrite (H kv) by now left.
  f_equal. apply IH. intros kv' Hin. apply H. now right.
Qed.

Lemma merge_bundle_ok (b total : Bundle) :
  NoDup (keys b) ->
  compatible_with total b = true ->
  exists total',
    fold_exc merge_entry b total = inr total'
    /\ (forall k, kind_at k total'
                  = match kind_at k total with
                    | Some x => Some x
                    | None => kind_at k b
                    end)
    /\ (forall key, detail_list key total'
                    = (detail_list key total ++ detail_list key b)%list).
Proof.
  revert total. induction b as [|[k v] b IH]; intros total Hnd Hok.
  - exists total. split; [reflexivity|]. split.
    + intros k. now destruct (kind_at k total).
    + intros key. change (detail_list key []) with (@nil DetailRecord).
      now rewrite app_nil_r.
  - unfold keys in Hnd. cbn [map fst] in Hnd.
    inversion Hnd as [|? ? Hnot Hrest]; subst.
    unfold compatible_with in Hok. cbn [forallb fst snd] in Hok.
    apply andb_true_iff in Hok. destruct Hok as [Hk Hb].
    destruct (merge_entry_ok total k v Hk) as [total1 [Hm [Hkind1 Hlist1]]].
    destruct (IH total1 Hrest) as [total' [Hfold [Hkind Hlist]]].
    { fold (compatible_with total b) in Hb. rewrite <- Hb.
      apply compatible_with_ext. intros [k2 v2] Hin. cbn [fst].
      rewrite Hkind1. destruct (String.eqb_spec k k2) as [->|Hne]; [|reflexivity].
      exfalso. apply Hnot. apply in_map_iff. now exists (k2, v2). }
    exists total'. split; [cbn [fold_exc]; rewrite Hm; exact Hfold|]. split.
    + intros k'. rewrite Hkind, Hkind1, kind_at_cons.
      destruct (String.eqb_spec k k') as [<-|Hne].
      * destruct (kind_at k total) as [x|]; [|reflexivity].
        apply Bool.eqb_prop in Hk. now rewrite Hk.
      * reflexivity.
    + intros key. rewrite Hlist, Hlist1, <- app_assoc, detail_list_cons. f_equal.
      destruct (String.eqb_spec k key) as [<-|Hne].
      * unfold detail_list. rewrite (dict_get_None k b) by exact Hnot.
        now rewrite app_nil_r.
      * reflexivity.
Qed.

Lemma merge_bundle_clash (b total : Bundle) :
  NoDup (keys b) ->
  compatible_with total b = false ->
  fold_exc merge_entry b total = inl AttributeError.
Proof.
  revert total. induction b as [|[k v] b IH]; intros total Hnd Hbad;
    [discriminate|].
  unfold keys in Hnd. cbn [map fst] in Hnd.
  inversion Hnd as [|? ? Hnot Hrest]; subst.
  unfold compatible_with in Hbad. cbn [forallb fst snd] in Hbad.
  cbn [fold_exc].
  destruct (match kind_at k total with
            | None => true
            | Some x => Bool.eqb x (is_list_value v)
            end) eqn:Hk.
  - destruct (merge_entry_ok total k v Hk) as [total1 [Hm [Hkind1 _]]].
    rewrite Hm. cbn [bind]. apply IH; [exact Hrest|].
    cbn [andb] in Hbad. fold (compatible_with total b) in Hbad. rewrite <- Hbad.
    apply compatible_with_ext. intros [k2 v2] Hin. cbn [fst].
    rewrite Hkind1. destruct (String.eqb_spec k k2) as [->|Hne]; [|reflexivity].
    exfalso. apply Hnot. apply in_map_iff. now exists (k2, v2).
  - now rewrite (merge_entry_clash total k v Hk).
Qed.

(** The order of two bundles does not decide whether they clash. *)
Lemma compatible_with_sym_true (a b : Bundle) :
  NoDup (keys a) -> NoDup (keys b) ->
  compatible_with a b = true -> compatible_with b a = true.
Proof.
  intros Ha Hb Hab. unfold compatible_with in *.
  rewrite forallb_forall in *. intros [k v] Hin. cbn [fst snd].
  unfold kind_at. destruct (dict_get k b) as [v'|] eqn:Hget; [|reflexivity].
  cbn [option_map]. apply dict_get_In in Hget.
  specialize (Hab (k, v') Hget). cbn [fst snd] in Hab.
  unfold kind_at in Hab. rewrite (In_dict_get k v a Ha Hin) in Hab.
  cbn [option_map] in Hab. apply Bool.eqb_prop in Hab. rewrite Hab.
  apply Bool.eqb_reflx.
Qed.

Lemma compatible_with_sym (a b : Bundle) :
  NoDup (keys a) -> NoDup (keys b) ->
  compatible_with a b = compatible_with b a.
Proof.
  intros Ha Hb.
  destruct (compatible_with a b) eqn:Hab, (compatible_with b a) eqn:Hba;
    try reflexivity.
  - now rewrite (compatible_with_sym_true a b Ha Hb Hab) in Hba.
  - now rewrite (compatible_with_sym_true b a Hb Ha Hba) in Hab.
Qed.

(** ** The bundle of a file has one entry per key *)

Lemma fold_left_invariant {A S} (P : S -> Prop) (f : S -> A -> S)
      (l : list A) (s : S) :
  P s -> (forall s a, P s -> P (f s a)) -> P (fold_left f l s).
Proof.
  intros Hs Hstep. revert s Hs. induction l as [|a l IH]; intros s Hs; simpl;
    [exact Hs | apply IH, Hstep, Hs].
Qed.

Lemma NoDup_tally_specific_columns (df : DataFrame) :
  NoDup (keys (fst (tally_specific_columns df))).
Proof.
  unfold tally_specific_columns.
  apply (fold_left_invariant (fun st => NoDup (keys (fst st)))); [constructor|].
  intros st col Hst.
  apply (fold_left_invariant (fun st => NoDup (keys (fst st)))); [exact Hst|].
  clear st Hst. intros [d p] m Hst. cbn [fst] in *.
  destruct (existsb (String.eqb m) p); [exact Hst|].
  destruct (dropna (column_values df m)); [exact Hst|].
  cbn [fst]. now apply NoDup_dict_set.
Qed.

Lemma NoDup_analyze_detailed_categories (df : DataFrame) :
  NoDup (keys (analyze_detailed_categories df)).
Proof.
  unfold analyze_detailed_categories.
  pose proof (NoDup_tally_specific_columns df) as H0.
  destruct (analyze_combined_categories df) as [cc cd].
  assert (H1 : NoDup (keys match cc with
                           | [] => fst (tally_specific_columns df)
                           | _ :: _ => dict_set "categoria_combinada" (BCounter cc)
                                                (fst (tally_specific_columns df))
                           end)).
  { destruct cc; [exact H0 | now apply NoDup_dict_set]. }
  destruct cd as [|r cd]; [exact H1|].
  destruct (identify_installer_column df) as [ic|]; [|now apply NoDup_dict_set].
  destruct (ic =? "")%string; [now apply NoDup_dict_set|].
  destruct (generate_installer_breakdown (r :: cd));
    repeat apply NoDup_dict_set; exact H1.
Qed.

Lemma analyze_excel_file_cases (w : World) (self : Analyzer) (path : string) :
  exists c n b,
    analyze_excel_file w self path = inr (c, n, b)
    /\ (b = [] \/ exists df, b = analyze_detailed_categories df).
Proof.
  unfold analyze_excel_file, analyze_excel_file_body.
  destruct (pd_read_excel w path) as [e|df]; cbn [bind try_except ret].
  { exists [], 0, []. split; [reflexivity | now left]. }
  destruct (df_empty df).
  { exists [], 0, []. split; [reflexivity | now left]. }
  destruct (filter_by_date_range w self df) as [e|df']; cbn [bind try_except ret].
  { exists [], 0, []. split; [reflexivity | now left]. }
  destruct (df_empty df').
  { exists [], 0, []. split; [reflexivity | now left]. }
  destruct (identify_category_column df') as [cat|].
  - destruct (dropna (column_values df' cat)) as [|v vs].
    + exists [], (len_df df'), []. split; [reflexivity | now left].
    + exists (count_stripped (v :: vs)), (len_df df'), (analyze_detailed_categories df').
      split; [reflexivity | right; now exists df'].
  - exists [], (len_df df'), []. split; [reflexivity | now left].
Qed.

Lemma analyze_excel_file_NoDup (w : World) (self : Analyzer) (path : string) :
  exists c n b,
    analyze_excel_file w self path = inr (c, n, b) /\ NoDup (keys b).
Proof.
  destruct (analyze_excel_file_cases w self path) as [c [n [b [Hret Hb]]]].
  exists c, n, b. split; [exact Hret|].
  destruct Hb as [->|[df ->]]; [constructor | apply NoDup_analyze_detailed_categories].
Qed.

(** ** Two files *)

Lemma compatible_with_empty (b : Bundle) : compatible_with [] b = true.
Proof. unfold compatible_with. now apply forallb_forall. Qed.

Lemma merge_first (c : Counter) (n : nat) (b : Bundle) :
  NoDup (keys b) ->
  exists total,
    merge_result empty_result (c, n, b) = inr (counter_update [] c, n, total)
    /\ (forall k, kind_at k total = kind_at k b)
    /\ (forall key, detail_list key total = detail_list key b).
Proof.
  intros Hnd.
  destruct (merge_bundle_ok b [] Hnd (compatible_with_empty b))
    as [total [Hfold [Hkind Hlist]]].
  exists total. unfold merge_result, empty_result. rewrite Hfold.
  split; [reflexivity|]. split; [exact Hkind | exact Hlist].
Qed.

Lemma merge_pair_ok (ca cb : Counter) (na nb : nat) (ba bb : Bundle) :
  NoDup (keys ba) -> NoDup (keys bb) ->
  compatible_with ba bb = true ->
  exists b,
    (t <- merge_result empty_result (ca, na, ba) ;; merge_result t (cb, nb, bb))
    = inr (counter_update (counter_update [] ca) cb, na + nb, b)
    /\ (forall key, detail_list key b
                    = (detail_list key ba ++ detail_list key bb)%list).
Proof.
  intros Ha Hb Hab.
  destruct (merge_first ca na ba Ha) as [total [Hm [Hkind Hlist]]].
  rewrite Hm. cbn [bind].
  destruct (merge_bundle_ok bb total Hb) as [b [Hfold [_ Hlist2]]].
  { rewrite <- Hab. apply compatible_with_ext. intros kv _. apply Hkind. }
  exists b. unfold merge_result. rewrite Hfold. split; [reflexivity|].
  intros key. now rewrite Hlist2, Hlist.
Qed.

Lemma merge_pair_clash (ca cb : Counter) (na nb : nat) (ba bb : Bundle) :
  NoDup (keys ba) -> NoDup (keys bb) ->
  compatible_with ba bb = false ->
  (t <- merge_result empty_result (ca, na, ba) ;; merge_result t (cb, nb, bb))
  = inl AttributeError.
Proof.
  intros Ha Hb Hab.
  destruct (merge_first ca na ba Ha) as [total [Hm [Hkind _]]].
  rewrite Hm. cbn [bind]. unfold merge_result.
  rewrite (merge_bundle_clash bb total Hb); [reflexivity|].
  rewrite <- Hab. apply compatible_with_ext. intros kv _. apply Hkind.
Qed.

Lemma analyze_two_files (w : World) (self : Analyzer) (a b : string)
      (ra rb : Result) :
  analyze_excel_file w self a = inr ra ->
  analyze_excel_file w self b = inr rb ->
  analyze_multiple_files w self [a; b]
  = (t <- merge_result empty_result ra ;; merge_result t rb).
Proof.
  intros Ha Hb. unfold analyze_multiple_files. cbn [fold_exc].
  rewrite Ha. cbn [bind].
  destruct (merge_result empty_result ra) as [e|t]; cbn [bind]; [reflexivity|].
  rewrite Hb. cbn [bind]. now destruct (merge_result t rb).
Qed.

(** C5. For two files A and B the runs of [analyze_multiple_files] on
    [A, B] and on [B, A] end alike: both return, with general maps that hold
    the same count under every key and with equal row totals, or both raise
    (a bundle key that is a map in one file and a list in the other).  When
    the run on [A, B] returns, the list under every key of its bundle is the
    list of A followed by the list of B. *)
Theorem merge_commutes_and_lists_follow_order :
  forall (w : World) (self : Analyzer) (a b : string),
    same_outcome (analyze_multiple_files w self [a; b])
                 (analyze_multiple_files w self [b; a])
    /\ (forall c n bundle,
          analyze_multiple_files w self [a; b] = inr (c, n, bundle) ->
          forall key,
            detail_list key bundle
            = (detail_list key (file_bundle w self a)
               ++ detail_list key (file_bundle w self b))%list).
Proof.
  intros w self a b.
  destruct (analyze_excel_file_NoDup w self a) as [ca [na [ba [Hreta Hnda]]]].
  destruct (analyze_excel_file_NoDup w self b) as [cb [nb [bb [Hretb Hndb]]]].
  rewrite (analyze_two_files w self a b _ _ Hreta Hretb).
  rewrite (analyze_two_files w self b a _ _ Hretb Hreta).
  unfold file_bundle. rewrite Hreta, Hretb.
  pose proof (compatible_with_sym ba bb Hnda Hndb) as Hsym.
  destruct (compatible_with ba bb) eqn:Hab.
  - destruct (merge_pair_ok ca cb na nb ba bb Hnda Hndb Hab) as [b1 [H1 Hlist1]].
    destruct (merge_pair_ok cb ca nb na bb ba Hndb Hnda (eq_sym Hsym)) as [b2 [H2 _]].
    rewrite H1, H2. split.
    + cbn [same_outcome]. split; [|lia].
      intros key. rewrite !counter_get_update. simpl. lia.
    + intros c n bundle [= <- <- <-]. exact Hlist1.
  - rewrite (merge_pair_clash ca cb na nb ba bb Hnda Hndb Hab).
    rewrite (merge_pair_clash cb ca nb na bb ba Hndb Hnda (eq_sym Hsym)).
    split; [exact I | discriminate].
Qed.

Lemma merge_commutes_and_lists_follow_order_witness :
  exists c n bundle,
    analyze_multiple_files sample_world no_filter ["calls.xlsx"; "more.xlsx"]
    = inr (c, n, bundle)
    /\ counter_get "Red" c = 4 /\ n = 7
    /\ map (fun d => match d with
                     | RouteRow r => ruta_completa r
                     | InstallerRow r => ruta_completa (ir_route r)
                     end)
           (detail_list "categoria_combinada_detalle" bundle)
       = ["Red | Slow"; "Red | Cut"; "Red | Slow"; "A | B | C";
          "Wifi | Down"; "Red | Slow"].
Proof.
  destruct (merge_commutes_and_lists_follow_order
              sample_world no_filter "calls.xlsx" "more.xlsx") as [_ Hlists].
  destruct (analyze_multiple_files sample_world no_filter ["calls.xlsx"; "more.xlsx"])
    as [e|[[c n] bundle]] eqn:Hrun; [vm_compute in Hrun; discriminate Hrun|].
  exists c, n, bundle. split; [reflexivity|].
  rewrite (Hlists c n bundle eq_refl "categoria_combinada_detalle").
  vm_compute in Hrun. injection Hrun as <- <- _.
  repeat split; reflexivity.
Defined.

(** The two runs on a pair of sheets that disagree on the kind of a key. *)
Lemma merge_shape_clash_raises :
  analyze_multiple_files sample_world no_filter ["clash.xlsx"; "calls.xlsx"]
  = inl AttributeError
  /\ analyze_multiple_files sample_world no_filter ["calls.xlsx"; "clash.xlsx"]
     = inl AttributeError.
Proof. split; vm_compute; reflexivity. Qed.

(** ** The text report *)

Lemma display_value_short (value : string) :
  String.length value <= 45 -> display_value value = value.
Proof.
  intros H. unfold display_value.
  destruct (45 <? String.length value) eqn:Hlt; [|reflexivity].
  apply Nat.ltb_lt in Hlt. lia.
Qed.

Lemma display_value_long (value : string) :
  45 < String.length value -> display_value value = PyStr.take 45 value ++ "...".
Proof.
  intros H. unfold display_value. apply Nat.ltb_lt in H. now rewrite H.
Qed.

Lemma detail_section_counter (w : World) (total_rows : nat) (k : string) (c : Counter) :
  exists lines, detail_section w total_rows (k, BCounter c) = inr lines.
Proof.
  unfold detail_section. cbn [bundle_value_len].
  destruct (0 <? List.length c); eexists; reflexivity.
Qed.

Lemma detail_section_list (w : World) (total_rows : nat) (k : string)
      (l : list DetailRecord) :
  l <> [] -> detail_section w total_rows (k, BList l) = inl AttributeError.
Proof.
  intros Hne. unfold detail_section. cbn [bundle_value_len].
  destruct l as [|d l]; [contradiction | reflexivity].
Qed.

Lemma detail_section_outcome (w : World) (total_rows : nat) (entry : string * BundleValue) :
  (exists lines, detail_section w total_rows entry = inr lines)
  \/ detail_section w total_rows entry = inl AttributeError.
Proof.
  destruct entry as [k [c|l]].
  - left. apply detail_section_counter.
  - destruct l as [|d l]; [left; eexists; reflexivity|].
    right. now apply detail_section_list.
Qed.

Lemma map_exc_detail_sections_raise (w : World) (total_rows : nat) (bundle : Bundle)
      (k : string) (l : list DetailRecord) :
  In (k, BList l) bundle -> l <> [] ->
  map_exc (detail_section w total_rows) bundle = inl AttributeError.
Proof.
  intros Hin Hne. induction bundle as [|entry bundle IH]; [contradiction|].
  cbn [map_exc]. destruct Hin as [->|Hin].
  - now rewrite detail_section_list.
  - destruct (detail_section_outcome w total_rows entry) as [[lines ->]| ->];
      [|reflexivity].
    cbn [bind]. now rewrite IH.
Qed.

(** A bundle that holds a non-empty list makes [generate_report] raise:
    the loop over the bundle calls [most_common] on the list. *)
Lemma generate_report_raises_on_lists (w : World) (counter : Counter)
      (total_rows files_processed : nat) (bundle : Bundle)
      (k : string) (l : list DetailRecord) :
  In (k, BList l) bundle -> l <> [] ->
  generate_report w counter total_rows files_processed bundle = inl AttributeError.
Proof.
  intros Hin Hne. unfold generate_report.
  destruct bundle as [|entry bundle]; [contradiction|].
  now rewrite (map_exc_detail_sections_raise w total_rows _ k l Hin Hne).
Qed.

Lemma map_exc_detail_sections_return (w : World) (total_rows : nat) (bundle : Bundle) :
  Forall (fun entry => is_list_value (snd entry) = false) bundle ->
  exists sections, map_exc (detail_section w total_rows) bundle = inr sections.
Proof.
  induction 1 as [|[k v] bundle Hv _ IH]; [eexists; reflexivity|].
  cbn [map_exc]. destruct v as [c|l]; [|discriminate Hv].
  destruct (detail_section_counter w total_rows k c) as [lines ->].
  destruct IH as [sections ->]. eexists. reflexivity.
Qed.

(** A bundle of frequency maps only is rendered. *)
Lemma generate_report_returns_on_maps (w : World) (counter : Counter)
      (total_rows files_processed : nat) (bundle : Bundle) :
  Forall (fun entry => is_list_value (snd entry) = false) bundle ->
  exists text,
    generate_report w counter total_rows files_processed bundle = inr text.
Proof.
  intros Hmaps. unfold generate_report.
  destruct bundle as [|entry bundle]; [eexists; reflexivity|].
  destruct (map_exc_detail_sections_return w total_rows _ Hmaps) as [sections ->].
  eexists. reflexivity.
Qed.

(** C9, the failing run.  The result of analysing the sample sheet holds the
    entry "categoria_combinada_detalle" with its list of route records, and
    [generate_report] on that result raises [AttributeError] where the claim
    has it return the text of the report. *)
Theorem generate_report_raises_on_analysis_result :
  exists counter total_rows bundle,
    analyze_multiple_files sample_world no_filter ["calls.xlsx"]
    = inr (counter, total_rows, bundle)
    /\ detail_list "categoria_combinada_detalle" bundle <> []
    /\ detail_list "agente_instalador_detalle" bundle <> []
    /\ generate_report sample_world counter total_rows 1 bundle = inl AttributeError.
Proof.
  destruct (analyze_multiple_files sample_world no_filter ["calls.xlsx"])
    as [e|[[counter total_rows] bundle]] eqn:Hrun;
    [vm_compute in Hrun; discriminate Hrun|].
  exists counter, total_rows, bundle. split; [reflexivity|].
  vm_compute in Hrun. injection Hrun as <- <- <-.
  split; [discriminate|]. split; [discriminate|].
  vm_compute. reflexivity.
Qed.

(** * Further properties *)

(** ** Trimming *)

Lemma rstrip_idempotent (s : string) : PyStr.rstrip (PyStr.rstrip s) = PyStr.rstrip s.
Proof.
  induction s as [|c s IH]; [reflexivity|].
  cbn [PyStr.rstrip]. destruct (PyStr.rstrip s) as [|a r] eqn:Hr.
  - destruct (PyStr.is_space c) eqn:Hc; [reflexivity|].
    cbn [PyStr.rstrip]. now rewrite Hc.
  - change (PyStr.rstrip (String c (String a r)))
      with (match PyStr.rstrip (String a r) with
            | EmptyString => if PyStr.is_space c then EmptyString
                             else String c EmptyString
            | r' => String c r'
            end).
    now rewrite IH.
Qed.

Lemma lstrip_no_space (s : string) : starts_with_space (PyStr.lstrip s) = false.
Proof.
  induction s as [|c s IH]; [reflexivity|].
  cbn [PyStr.lstrip]. destruct (PyStr.is_space c) eqn:Hc; [exact IH|].
  simpl. exact Hc.
Qed.

Lemma lstrip_fixed (s : string) : starts_with_space s = false -> PyStr.lstrip s = s.
Proof. destruct s as [|c s]; [reflexivity|]. simpl. now intros ->. Qed.

Lemma rstrip_no_space (s : string) :
  starts_with_space s = false -> starts_with_space (PyStr.rstrip s) = false.
Proof.
  destruct s as [|c s]; [reflexivity|]. simpl. intros Hc.
  destruct (PyStr.rstrip s); [now rewrite Hc | exact Hc].
Qed.

Lemma strip_idempotent (s : string) : PyStr.strip (PyStr.strip s) = PyStr.strip s.
Proof.
  unfold PyStr.strip.
  rewrite (lstrip_fixed (PyStr.rstrip (PyStr.lstrip s))).
  - apply rstrip_idempotent.
  - apply rstrip_no_space, lstrip_no_space.
Qed.

(** ** Invariants of frequency maps *)

Lemma keys_counter_add (k key : string) (n : nat) (c : Counter) :
  In k (keys (counter_add key n c)) <-> k = key \/ In k (keys c).
Proof.
  unfold keys. induction c as [|[k0 m] c IH]; simpl.
  - intuition.
  - destruct (String.eqb_spec k0 key) as [->|Hne]; simpl; [|rewrite IH]; intuition.
Qed.

Lemma NoDup_counter_add (key : string) (n : nat) (c : Counter) :
  NoDup (keys c) -> NoDup (keys (counter_add key n c)).
Proof.
  unfold keys. induction c as [|[k0 m] c IH]; intros Hnd; simpl.
  - constructor; [intros [] | constructor].
  - inversion Hnd as [|? ? Hnot Hrest]; subst.
    destruct (String.eqb_spec k0 key) as [->|Hne]; simpl.
    + constructor; assumption.
    + constructor; [|now apply IH].
      intros Hin. apply (keys_counter_add k0 key n c) in Hin.
      destruct Hin as [Heq|Hin]; [congruence | contradiction].
Qed.

Lemma counter_of_keys (items : list string) (k : string) :
  In k (keys (counter_of items)) <-> In k items.
Proof.
  unfold counter_of.
  assert (H : forall c, In k (keys (fold_left (fun c item => counter_add item 1 c) items c))
                        <-> In k (keys c) \/ In k items).
  { induction items as [|x items IH]; intros c; simpl; [intuition|].
    rewrite IH, keys_counter_add. intuition. }
  rewrite H. simpl. intuition.
Qed.

Lemma NoDup_counter_of (items : list string) : NoDup (keys (counter_of items)).
Proof.
  unfold counter_of.
  apply (fold_left_invariant (fun c => NoDup (keys c))); [constructor|].
  intros c item Hc. now apply NoDup_counter_add.
Qed.

Lemma NoDup_counter_update (c other : Counter) :
  NoDup (keys c) -> NoDup (keys (counter_update c other)).
Proof.
  intros Hc. unfold counter_update.
  apply (fold_left_invariant (fun c => NoDup (keys c))); [exact Hc|].
  intros c' kv Hc'. now apply NoDup_counter_add.
Qed.

Lemma key_sum_absent (key : string) (c : Counter) :
  ~ In key (keys c) -> key_sum key c = 0.
Proof.
  unfold keys. induction c as [|[k m] c IH]; intros Hnot; [reflexivity|].
  simpl in *. destruct (String.eqb_spec k key) as [->|Hne].
  - exfalso. apply Hnot. now left.
  - apply IH. intros Hin. apply Hnot. now right.
Qed.

Lemma key_sum_counter_get (key : string) (c : Counter) :
  NoDup (keys c) -> key_sum key c = counter_get key c.
Proof.
  unfold keys. induction c as [|[k m] c IH]; intros Hnd; [reflexivity|].
  inversion Hnd as [|? ? Hnot Hrest]; subst. simpl.
  destruct (String.eqb_spec k key) as [->|Hne]; [|now apply IH].
  rewrite (key_sum_absent key c Hnot). lia.
Qed.

(** [Counter.update]: the keys stay unique and the count under every key
    is the sum of the two counts. *)
Theorem counter_update_adds_keywise :
  forall (c other : Counter),
    NoDup (keys c) -> NoDup (keys other) ->
    NoDup (keys (counter_update c other))
    /\ forall key,
        counter_get key (counter_update c other)
        = counter_get key c + counter_get key other.
Proof.
  intros c other Hc Ho. split; [now apply NoDup_counter_update|].
  intros key. now rewrite counter_get_update, key_sum_counter_get.
Qed.

Lemma counter_update_adds_keywise_witness :
  counter_get "A" (counter_update [("A", 1); ("B", 1)] [("C", 2); ("A", 1)]) = 2
  /\ NoDup (keys (counter_update [("A", 1); ("B", 1)] [("C", 2); ("A", 1)])).
Proof.
  assert (H1 : NoDup (keys [("A", 1); ("B", 1)])).
  { repeat constructor; simpl; intuition discriminate. }
  assert (H2 : NoDup (keys [("C", 2); ("A", 1)])).
  { repeat constructor; simpl; intuition discriminate. }
  destruct (counter_update_adds_keywise _ _ H1 H2) as [Hnd Hget].
  split; [rewrite Hget; reflexivity | exact Hnd].
Defined.

Lemma analyze_excel_file_counter_cases (w : World) (self : Analyzer) (path : string) :
  exists c n b,
    analyze_excel_file w self path = inr (c, n, b)
    /\ (c = []
        \/ exists df cat,
            loaded_frame w self path = Some df
            /\ identify_category_column df = Some cat
            /\ c = count_stripped (dropna (column_values df cat))
            /\ n = len_df df).
Proof.
  unfold analyze_excel_file, analyze_excel_file_body, loaded_frame.
  destruct (pd_read_excel w path) as [e|df]; cbn [bind try_except ret].
  { exists [], 0, []. split; [reflexivity | now left]. }
  destruct (df_empty df).
  { exists [], 0, []. split; [reflexivity | now left]. }
  destruct (filter_by_date_range w self df) as [e|df']; cbn [bind try_except ret].
  { exists [], 0, []. split; [reflexivity | now left]. }
  destruct (df_empty df').
  { exists [], 0, []. split; [reflexivity | now left]. }
  destruct (identify_category_column df') as [cat|] eqn:Hcat.
  - destruct (dropna (column_values df' cat)) as [|v vs] eqn:Hraw.
    + exists [], (len_df df'), []. split; [reflexivity | now left].
    + exists (count_stripped (v :: vs)), (len_df df'), (analyze_detailed_categories df').
      split; [reflexivity|]. right. exists df', cat.
      repeat split; [exact Hcat | now rewrite Hraw].
  - exists [], (len_df df'), []. split; [reflexivity | now left].
Qed.

(** X9 (analyze_excel_file, lines 335-391). The general map of a file is a
    well-formed frequency map: its keys are unique and trimmed, and every
    key it holds has a positive count. *)
Theorem general_map_is_well_formed :
  forall (w : World) (self : Analyzer) (path : string)
         (c : Counter) (n : nat) (b : Bundle),
    analyze_excel_file w self path = inr (c, n, b) ->
    NoDup (keys c)
    /\ forall key, In key (keys c) ->
                   PyStr.strip key = key /\ 0 < counter_get key c.
Proof.
  intros w self path c n b Hret.
  destruct (analyze_excel_file_counter_cases w self path)
    as [c' [n' [b' [Hret' Hc]]]].
  rewrite Hret in Hret'. injection Hret' as <- <- <-.
  destruct Hc as [->|[df [cat [_ [_ [-> _]]]]]].
  - split; [constructor | intros key []].
  - unfold count_stripped. split; [apply NoDup_counter_of|].
    intros key Hin. pose proof Hin as Hitems.
    apply (proj1 (counter_of_keys _ _)) in Hitems. split.
    + apply in_map_iff in Hitems. destruct Hitems as [v [<- _]].
      apply strip_idempotent.
    + rewrite counter_get_counter_of.
      apply (count_occ_In string_dec). exact Hitems.
Qed.

Lemma general_map_is_well_formed_witness :
  exists c n b,
    analyze_excel_file sample_world no_filter "calls.xlsx" = inr (c, n, b)
    /\ NoDup (keys c)
    /\ PyStr.strip "Billing, Support" = "Billing, Support".
Proof.
  destruct (analyze_excel_file sample_world no_filter "calls.xlsx")
    as [e|[[c n] b]] eqn:Hrun; [vm_compute in Hrun; discriminate Hrun|].
  destruct (general_map_is_well_formed sample_world no_filter "calls.xlsx" c n b Hrun)
    as [Hnd Hkeys].
  exists c, n, b. split; [reflexivity|]. split; [exact Hnd|].
  apply Hkeys. vm_compute in Hrun. injection Hrun as <- _ _. simpl. auto.
Defined.

(** ** The date filter keeps the shape of the frame *)

Lemma filter_length_le {A} (p : A -> bool) (l : list A) :
  List.length (filter p l) <= List.length l.
Proof. induction l as [|x l IH]; simpl; [lia|]. destruct (p x); simpl; lia. Qed.

Lemma filter_by_date_range_rows (w : World) (self : Analyzer) (df : DataFrame) :
  exists df', filter_by_date_range w self df = inr df' /\ len_df df' <= len_df df.
Proof.
  destruct (range_active self) eqn:Hact;
    [destruct (identify_date_column df) as [c|] eqn:Hc|].
  - eexists. split; [apply (filter_by_date_range_active w self df c Hc Hact)|].
    destruct (comparison_raises (parsed_frame w df c) c);
      unfold select_rows, len_df; cbn [df_rows].
    + rewrite rows_parsed_frame, length_map. lia.
    + etransitivity; [apply filter_length_le|].
      now rewrite rows_parsed_frame, length_map.
  - exists df. split; [apply (filter_by_date_range_no_column w self df Hc) | lia].
  - exists df. split; [apply (filter_by_date_range_inactive w self df Hact) | lia].
Qed.

(** X7 (filter_by_date_range, lines 295-333). [filter_by_date_range] always
    returns a frame; the frame has the column names of the sheet, in their
    order, and no more rows than the sheet. *)
Theorem filter_by_date_range_keeps_shape :
  forall (w : World) (self : Analyzer) (df : DataFrame),
    exists df',
      filter_by_date_range w self df = inr df'
      /\ columns df' = columns df
      /\ len_df df' <= len_df df.
Proof.
  intros w self df.
  destruct (range_active self) eqn:Hact.
  - destruct (identify_date_column df) as [c|] eqn:Hc.
    + eexists. split; [apply (filter_by_date_range_active w self df c Hc Hact)|].
      destruct (comparison_raises (parsed_frame w df c) c); split.
      * apply (columns_parsed_frame w df c).
      * unfold len_df. rewrite rows_parsed_frame, length_map. lia.
      * unfold select_rows, columns. cbn [df_header].
        apply (columns_parsed_frame w df c).
      * unfold select_rows, len_df. cbn [df_rows].
        etransitivity; [apply filter_length_le|].
        now rewrite rows_parsed_frame, length_map.
    + exists df. split; [apply (filter_by_date_range_no_column w self df Hc)|].
      split; [reflexivity | lia].
  - exists df. split; [apply (filter_by_date_range_inactive w self df Hact)|].
    split; [reflexivity | lia].
Qed.

Lemma length_dropna_le (df : DataFrame) (col : string) :
  List.length (dropna (column_values df col)) <= len_df df.
Proof.
  unfold dropna, column_values, len_df.
  etransitivity; [apply filter_length_le|]. now rewrite length_map.
Qed.

(** X10 (analyze_excel_file, lines 335-391). One row, at most one count: the
    counts of the general map of a file add up to no more than the row count
    returned with it, and that row count is no more than the number of rows
    of the sheet that was read. *)
Theorem counts_never_exceed_rows :
  forall (w : World) (self : Analyzer) (path : string)
         (c : Counter) (n : nat) (b : Bundle),
    analyze_excel_file w self path = inr (c, n, b) ->
    counter_total c <= n
    /\ forall sheet, pd_read_excel w path = inr sheet -> n <= len_df sheet.
Proof.
  intros w self path c n b Hret.
  assert (Hn : forall sheet, pd_read_excel w path = inr sheet -> n <= len_df sheet).
  { intros sheet Hread. revert Hret.
    unfold analyze_excel_file, analyze_excel_file_body. rewrite Hread.
    cbn [bind]. destruct (df_empty sheet).
    { cbn. intros [= <- <- <-]. lia. }
    destruct (filter_by_date_range_rows w self sheet) as [df' [-> Hlen]].
    cbn [bind]. destruct (df_empty df').
    { cbn. intros [= <- <- <-]. lia. }
    destruct (identify_category_column df') as [cat|].
    - destruct (dropna (column_values df' cat)); cbn; intros [= <- <- <-]; exact Hlen.
    - cbn. intros [= <- <- <-]. exact Hlen. }
  split; [|exact Hn].
  destruct (analyze_excel_file_counter_cases w self path)
    as [c' [n' [b' [Hret' Hc]]]].
  rewrite Hret in Hret'. injection Hret' as <- <- <-.
  destruct Hc as [->|[df [cat [_ [_ [-> ->]]]]]]; [simpl; lia|].
  unfold count_stripped. rewrite counter_total_counter_of, length_map.
  apply length_dropna_le.
Qed.

Lemma counts_never_exceed_rows_witness :
  exists c n b,
    analyze_excel_file sample_world january "dated.xlsx" = inr (c, n, b)
    /\ counter_total c <= n /\ n <= 4.
Proof.
  destruct (analyze_excel_file sample_world january "dated.xlsx")
    as [e|[[c n] b]] eqn:Hrun; [vm_compute in Hrun; discriminate Hrun|].
  destruct (counts_never_exceed_rows sample_world january "dated.xlsx" c n b Hrun)
    as [Htotal Hrows].
  exists c, n, b. split; [reflexivity|]. split; [exact Htotal|].
  apply (Hrows dated_sheet). reflexivity.
Defined.

(** ** The column matcher *)

Ltac each_ascii c :=
  destruct c as [[] [] [] [] [] [] [] []].

Lemma lower_char_alnum (c : ascii) :
  PyStr.is_alnum (PyStr.lower_char c) = true ->
  is_lower_alnum (PyStr.lower_char c) = true.
Proof. each_ascii c; vm_compute; intros H; (exact H || reflexivity). Qed.

Lemma is_lower_alnum_fixed (c : ascii) :
  is_lower_alnum c = true ->
  PyStr.lower_char c = c /\ PyStr.is_alnum c = true
  /\ (PyStr.code c =? 195) = false.
Proof.
  each_ascii c; vm_compute; intros H; try discriminate H;
    repeat split; reflexivity.
Qed.

Lemma normalize_chars (t : string) :
  string_forall is_lower_alnum
                (PyStr.filter_chars PyStr.is_alnum (PyStr.lower t)) = true.
Proof.
  induction t as [|c t IH]; [reflexivity|].
  cbn [PyStr.lower PyStr.map_chars PyStr.filter_chars].
  fold (PyStr.lower t).
  destruct (PyStr.is_alnum (PyStr.lower_char c)) eqn:Hc; [|exact IH].
  cbn [string_forall]. now rewrite (lower_char_alnum c Hc), IH.
Qed.

Lemma strip_accents_fixed (r : string) :
  string_forall is_lower_alnum r = true -> strip_accents r = r.
Proof.
  induction r as [|c r IH]; [reflexivity|].
  cbn [string_forall]. intros H. apply andb_true_iff in H. destruct H as [Hc Hr].
  cbn [strip_accents]. destruct r as [|c2 r']; [reflexivity|].
  destruct (is_lower_alnum_fixed c Hc) as [_ [_ H195]]. rewrite H195.
  now rewrite (IH Hr).
Qed.

Lemma lower_fixed (r : string) :
  string_forall is_lower_alnum r = true -> PyStr.lower r = r.
Proof.
  induction r as [|c r IH]; [reflexivity|].
  cbn [string_forall]. intros H. apply andb_true_iff in H. destruct H as [Hc Hr].
  cbn [PyStr.lower PyStr.map_chars]. fold (PyStr.lower r).
  destruct (is_lower_alnum_fixed c Hc) as [-> _]. now rewrite (IH Hr).
Qed.

Lemma filter_alnum_fixed (r : string) :
  string_forall is_lower_alnum r = true ->
  PyStr.filter_chars PyStr.is_alnum r = r.
Proof.
  induction r as [|c r IH]; [reflexivity|].
  cbn [string_forall]. intros H. apply andb_true_iff in H. destruct H as [Hc Hr].
  cbn [PyStr.filter_chars].
  destruct (is_lower_alnum_fixed c Hc) as [_ [-> _]]. now rewrite (IH Hr).
Qed.

Lemma normalize_column_name_twice (name : string) :
  normalize_column_name (normalize_column_name name) = normalize_column_name name.
Proof.
  assert (H : string_forall is_lower_alnum (normalize_column_name name) = true)
    by apply normalize_chars.
  unfold normalize_column_name at 1. cbv zeta.
  now rewrite (strip_accents_fixed _ H), (lower_fixed _ H), (filter_alnum_fixed _ H).
Qed.

(** X1 (normalize_column_name, lines 66-73). [normalize_column_name] yields
    lowercase letters and digits only, and normalising a normalised name
    changes nothing. *)
Theorem normalize_column_name_idempotent :
  forall name : string,
    string_forall is_lower_alnum (normalize_column_name name) = true
    /\ normalize_column_name (normalize_column_name name)
       = normalize_column_name name.
Proof.
  intros name.
  assert (H : string_forall is_lower_alnum (normalize_column_name name) = true)
    by apply normalize_chars.
  split; [exact H|].
  unfold normalize_column_name at 1. cbv zeta.
  now rewrite (strip_accents_fixed _ H), (lower_fixed _ H), (filter_alnum_fixed _ H).
Qed.

Lemma prefix_refl (s : string) : String.prefix s s = true.
Proof.
  induction s as [|c s IH]; [reflexivity|].
  rewrite prefix_cons, IH. now rewrite Ascii.eqb_refl.
Qed.

Lemma contains_refl (s : string) : PyStr.contains s s = true.
Proof. destruct s; cbn [PyStr.contains]; now rewrite prefix_refl. Qed.

Lemma contains_empty (s : string) : PyStr.contains "" s = true.
Proof. destruct s; reflexivity. Qed.

(** X2 (find_matching_columns, lines 75-92). [find_matching_columns] returns
    columns of the frame whose normalised name is not empty; a column with
    such a name is found under its own name; a target is found as its
    normalised form is; and a target whose normalised form is empty matches
    every column that can match at all. *)
Theorem find_matching_columns_own_name :
  forall (df : DataFrame) (target : string),
    (forall c, In c (find_matching_columns df target) ->
               In c (columns df) /\ normalize_column_name c <> "")
    /\ (forall c, In c (columns df) -> normalize_column_name c <> "" ->
                  In c (find_matching_columns df c))
    /\ find_matching_columns df (normalize_column_name target)
       = find_matching_columns df target
    /\ (normalize_column_name target = "" ->
        find_matching_columns df target
        = filter (fun c => negb (normalize_column_name c =? "")%string) (columns df)).
Proof.
  intros df target. split; [|split; [|split]].
  - intros c Hin. unfold find_matching_columns in Hin. apply filter_In in Hin.
    destruct Hin as [Hin Hm]. split; [exact Hin|].
    destruct (String.eqb_spec (normalize_column_name c) "") as [He|Hne];
      [discriminate Hm | exact Hne].
  - intros c Hin Hne. unfold find_matching_columns. apply filter_In.
    split; [exact Hin|]. apply String.eqb_neq in Hne. rewrite Hne.
    now rewrite String.eqb_refl.
  - unfold find_matching_columns.
    now rewrite (normalize_column_name_twice target).
  - intros Hempty. unfold find_matching_columns. rewrite Hempty.
    apply filter_ext. intros c.
    destruct (normalize_column_name c =? "")%string eqn:Hc; [reflexivity|].
    rewrite contains_empty. cbn [negb]. now rewrite orb_true_r.
Qed.

Lemma find_matching_columns_own_name_witness :
  In "categoria_general" (find_matching_columns calls_sheet "categoria_general")
  /\ find_matching_columns calls_sheet "---" = columns calls_sheet.
Proof.
  destruct (find_matching_columns_own_name calls_sheet "categoria_general")
    as [_ [Hown _]].
  destruct (find_matching_columns_own_name calls_sheet "---") as [_ [_ [_ Hall]]].
  split.
  - apply Hown; [simpl; auto | vm_compute; discriminate].
  - rewrite Hall by reflexivity. reflexivity.
Defined.

(** ** The column identifiers *)

Lemma find_matching_columns_In (df : DataFrame) (target c : string) :
  In c (find_matching_columns df target) -> In c (columns df).
Proof. unfold find_matching_columns. intros H. now apply filter_In in H. Qed.

Lemma first_target_match_In (df : DataFrame) (targets : list string) (c : string) :
  first_target_match df targets = Some c -> In c (columns df).
Proof.
  induction targets as [|t targets IH]; simpl; [discriminate|].
  destruct (find_matching_columns df t) as [|m ms] eqn:Hm; [exact IH|].
  intros [= <-]. apply (find_matching_columns_In df t). rewrite Hm. now left.
Qed.

(** X3 (identify_category_column, identify_installer_column,
    identify_date_column). The three identifiers name columns of the frame:
    what [identify_category_column], [identify_installer_column] and
    [identify_date_column] return is one of [df.columns]. *)
Theorem identifiers_return_columns :
  forall (df : DataFrame) (c : string),
    (identify_category_column df = Some c -> In c (columns df))
    /\ (identify_installer_column df = Some c -> In c (columns df))
    /\ (identify_date_column df = Some c -> In c (columns df)).
Proof.
  intros df c. split; [|split].
  - unfold identify_category_column.
    destruct (first_target_match df _) as [c1|] eqn:H1.
    + intros [= <-]. eapply first_target_match_In; eauto.
    + destruct (find _ (columns df)) as [c2|] eqn:H2.
      * intros [= <-]. now apply find_some in H2.
      * intros H3. now apply find_some in H3.
  - unfold identify_installer_column.
    destruct (first_target_match df _) as [c1|] eqn:H1.
    + intros [= <-]. eapply first_target_match_In; eauto.
    + intros H2. now apply find_some in H2.
  - apply identify_date_column_In.
Qed.

Lemma identifiers_return_columns_witness :
  In "categoria_general" (columns calls_sheet)
  /\ In "agente_instalador" (columns calls_sheet)
  /\ In "fecha" (columns dated_sheet).
Proof.
  destruct (identifiers_return_columns calls_sheet "categoria_general") as [Hcat _].
  destruct (identifiers_return_columns calls_sheet "agente_instalador") as [_ [Hinst _]].
  destruct (identifiers_return_columns dated_sheet "fecha") as [_ [_ Hdate]].
  split; [apply Hcat; reflexivity|].
  split; [apply Hinst; reflexivity | apply Hdate; reflexivity].
Defined.

(** X4 (identify_category_column, lines 192-210). The category column is the
    first column, in sheet order, that matches the first target,
    [categoria_general]; a column matches when its normalised name is
    contained in the normalised target. So a first column whose normalised
    name is a piece of "categoriageneral" is taken as the category column,
    whatever columns follow it. *)
Theorem first_contained_column_is_category :
  forall (df : DataFrame) (c : string),
    hd_error (columns df) = Some c ->
    normalize_column_name c <> "" ->
    PyStr.contains (normalize_column_name c) "categoriageneral" = true ->
    identify_category_column df = Some c.
Proof.
  intros df c Hhd Hne Hsub. unfold identify_category_column.
  cbn [first_target_match]. unfold find_matching_columns.
  destruct (columns df) as [|c0 rest]; [discriminate|].
  injection Hhd as ->. cbn [filter].
  change (normalize_column_name "categoria_general") with "categoriageneral".
  apply String.eqb_neq in Hne. rewrite Hne, Hsub, orb_true_r. reflexivity.
Qed.

Lemma first_contained_column_is_category_witness :
  identify_category_column
    (mkDF [mkCol "General" DObject; mkCol "categoria_general" DObject]
          [[CStr "x"; CStr "Red"]])
  = Some "General".
Proof.
  apply first_contained_column_is_category;
    [reflexivity | vm_compute; discriminate | reflexivity].
Defined.

(** ** Texts that the date parser reads *)

Lemma code_digit_char (k : nat) : k < 10 -> PyStr.code (digit_char k) = 48 + k.
Proof.
  intros Hk. unfold PyStr.code, digit_char. apply nat_ascii_embedding. lia.
Qed.

Lemma is_digit_digit_char (k : nat) : k < 10 -> PyStr.is_digit (digit_char k) = true.
Proof.
  intros Hk. unfold PyStr.is_digit. rewrite code_digit_char by exact Hk.
  apply andb_true_iff. split; apply Nat.leb_le; lia.
Qed.

Lemma nat_of_digits_two (n : nat) :
  n < 100 -> PyStr.nat_of_digits (two_digits n) = n.
Proof.
  intros Hn. unfold PyStr.nat_of_digits, two_digits.
  cbn [PyStr.nat_of_digits_acc].
  rewrite !code_digit_char.
  - pose proof (Nat.div_mod_eq n 10). lia.
  - apply Nat.mod_upper_bound. lia.
  - apply Nat.Div0.div_lt_upper_bound. lia.
Qed.

Lemma nat_of_digits_four (n : nat) :
  n < 100 * 100 -> PyStr.nat_of_digits (four_digits n) = n.
Proof.
  intros Hn. unfold PyStr.nat_of_digits, four_digits.
  cbn [PyStr.nat_of_digits_acc].
  rewrite !code_digit_char.
  - pose proof (Nat.div_mod_eq n 10).
    pose proof (Nat.div_mod_eq (n / 10) 10).
    pose proof (Nat.div_mod_eq (n / 100) 10).
    replace (n / 100) with (n / 10 / 10) in *
      by (rewrite Nat.Div0.div_div; reflexivity).
    replace (n / 1000) with (n / 10 / 10 / 10)
      by (rewrite !Nat.Div0.div_div; reflexivity).
    lia.
  - apply Nat.mod_upper_bound. lia.
  - apply Nat.mod_upper_bound. lia.
  - apply Nat.mod_upper_bound. lia.
  - apply Nat.Div0.div_lt_upper_bound. lia.
Qed.


Lemma regex_search_here (p : list CharClass) (s : string) :
  match_here p s = true -> regex_search p s = Some s.
Proof. intros H. destruct s; simpl; now rewrite H. Qed.

Lemma match_here_cons (cl : CharClass) (p : list CharClass) (c : ascii) (s : string) :
  match_here (cl :: p) (String c s) = class_matches cl c && match_here p s.
Proof. reflexivity. Qed.

Ltac digit_bound :=
  first [ apply Nat.mod_upper_bound; lia
        | apply Nat.Div0.div_lt_upper_bound; lia ].

Ltac split_valid Hv :=
  repeat (apply andb_true_iff in Hv; destruct Hv as [Hv ?]);
  repeat match goal with
         | H : (_ <=? _) = true |- _ => apply Nat.leb_le in H
         | H : (_ <? _) = true |- _ => apply Nat.ltb_lt in H
         end.

Lemma days_in_month_le (y m : nat) : days_in_month y m <= 31.
Proof.
  unfold days_in_month.
  destruct m as [|[|[|[|[|[|[|[|[|[|[|[|[|]]]]]]]]]]]]]; try lia.
  destruct (is_leap y); lia.
Qed.

Ltac match_digits :=
  rewrite !match_here_cons;
  repeat match goal with
         | H : class_matches _ _ = true |- _ => rewrite H
         end;
  repeat match goal with
         | |- context [class_matches (OneOf ?alts) ?c] =>
             change (class_matches (OneOf alts) c) with true
         end;
  cbn [class_matches match_here];
  rewrite !is_digit_digit_char by digit_bound;
  reflexivity.

Lemma make_datetime_valid (d : DateTime) :
  valid_datetime d = true ->
  make_datetime (dt_year d) (dt_month d) (dt_day d)
                (dt_hour d) (dt_minute d) (dt_second d) = inr d.
Proof.
  destruct d as [y m dd hh mi ss]. intros Hv. unfold valid_datetime in Hv.
  cbn [dt_year dt_month dt_day dt_hour dt_minute dt_second] in *.
  split_valid Hv. unfold make_datetime.
  repeat rewrite (proj2 (Nat.leb_le _ _)) by assumption. reflexivity.
Qed.

Lemma strptime_datetime_text (d : DateTime) :
  valid_datetime d = true ->
  strptime_datetime (timestamp_text d " " ":" ":") = inr d.
Proof.
  intros Hvalid. pose proof Hvalid as Hv.
  destruct d as [y m dd hh mi ss]. unfold valid_datetime in Hv.
  cbn [dt_year dt_month dt_day dt_hour dt_minute dt_second] in Hv.
  split_valid Hv.
  pose proof (days_in_month_le y m) as Hdim.
  unfold strptime_datetime, timestamp_text, four_digits, two_digits.
  cbn [dt_year dt_month dt_day dt_hour dt_minute dt_second append].
  replace (match_here _ _) with true.
  2:{ symmetry. unfold ymd_pattern. cbn [app]. match_digits. }
  cbn [String.length Nat.eqb andb substring].
  change (PyStr.nat_of_digits (String (digit_char (y / 1000)) _))
    with (PyStr.nat_of_digits (four_digits y)).
  change (PyStr.nat_of_digits (String (digit_char (m / 10)) _))
    with (PyStr.nat_of_digits (two_digits m)).
  change (PyStr.nat_of_digits (String (digit_char (dd / 10)) _))
    with (PyStr.nat_of_digits (two_digits dd)).
  change (PyStr.nat_of_digits (String (digit_char (hh / 10)) _))
    with (PyStr.nat_of_digits (two_digits hh)).
  change (PyStr.nat_of_digits (String (digit_char (mi / 10)) _))
    with (PyStr.nat_of_digits (two_digits mi)).
  change (PyStr.nat_of_digits (String (digit_char (ss / 10)) _))
    with (PyStr.nat_of_digits (two_digits ss)).
  rewrite nat_of_digits_four by assumption.
  rewrite !nat_of_digits_two by lia.
  apply (make_datetime_valid _ Hvalid).
Qed.

Lemma strptime_date_text (d : DateTime) :
  valid_datetime d = true ->
  strptime_date (date_text d) = inr (midnight d).
Proof.
  intros Hvalid. pose proof Hvalid as Hv.
  destruct d as [y m dd hh mi ss]. unfold valid_datetime in Hv.
  cbn [dt_year dt_month dt_day dt_hour dt_minute dt_second] in Hv.
  split_valid Hv.
  pose proof (days_in_month_le y m) as Hdim.
  unfold strptime_date, date_text, four_digits, two_digits.
  cbn [dt_year dt_month dt_day append].
  replace (match_here _ _) with true.
  2:{ symmetry. unfold ymd_pattern. match_digits. }
  cbn [String.length Nat.eqb andb substring].
  change (PyStr.nat_of_digits (String (digit_char (y / 1000)) _))
    with (PyStr.nat_of_digits (four_digits y)).
  change (PyStr.nat_of_digits (String (digit_char (m / 10)) _))
    with (PyStr.nat_of_digits (two_digits m)).
  change (PyStr.nat_of_digits (String (digit_char (dd / 10)) _))
    with (PyStr.nat_of_digits (two_digits dd)).
  rewrite nat_of_digits_four by assumption.
  rewrite !nat_of_digits_two by lia.
  unfold make_datetime, midnight.
  cbn [dt_year dt_month dt_day].
  repeat rewrite (proj2 (Nat.leb_le _ _)) by (assumption || lia). reflexivity.
Qed.

Lemma datetime_layer_timestamp (d : DateTime) (s1 s2 s3 : ascii) :
  valid_datetime d = true ->
  class_matches (OneOf " _T-") s1 = true ->
  class_matches (OneOf "-:") s2 = true ->
  class_matches (OneOf "-:") s3 = true ->
  datetime_layer (timestamp_text d s1 s2 s3) = Some d.
Proof.
  intros Hvalid H1 H2 H3. pose proof Hvalid as Hv.
  pose proof (strptime_datetime_text d Hvalid) as Hparse.
  destruct d as [y m dd hh mi ss]. unfold valid_datetime in Hv.
  cbn [dt_year dt_month dt_day dt_hour dt_minute dt_second] in Hv.
  split_valid Hv.
  pose proof (days_in_month_le y m) as Hdim.
  unfold datetime_layer, timestamp_text, four_digits, two_digits in *.
  cbn [dt_year dt_month dt_day dt_hour dt_minute dt_second append] in *.
  rewrite regex_search_here.
  2:{ unfold DATE_WITH_TIME_REGEX, ymd_pattern. cbn [app]. match_digits. }
  cbn [substring append]. now rewrite Hparse.
Qed.

Lemma match_here_short (p : list CharClass) (s : string) :
  String.length s < List.length p -> match_here p s = false.
Proof.
  revert s. induction p as [|cl p IH]; intros s Hlen; [simpl in Hlen; lia|].
  destruct s as [|c s]; [reflexivity|].
  rewrite match_here_cons, IH; [apply andb_false_r | simpl in Hlen; lia].
Qed.

Lemma regex_search_short (p : list CharClass) (s : string) :
  String.length s < List.length p -> regex_search p s = None.
Proof.
  induction s as [|c s IH]; intros Hlen; cbn [regex_search];
    rewrite match_here_short by exact Hlen; [reflexivity|].
  apply IH. simpl in Hlen. lia.
Qed.

(** A pattern that starts with a digit does not match inside a text without
    digits. *)
Lemma regex_search_skip (p : list CharClass) (pre s : string) :
  digit_free pre = true ->
  regex_search (Digit :: p) (pre ++ s) = regex_search (Digit :: p) s.
Proof.
  unfold digit_free.
  induction pre as [|c pre IH]; intros Hpre; [reflexivity|].
  cbn [string_forall] in Hpre. apply andb_true_iff in Hpre.
  destruct Hpre as [Hc Hpre]. apply negb_true_iff in Hc.
  cbn [append regex_search]. rewrite match_here_cons. cbn [class_matches].
  rewrite Hc. cbn [andb]. now apply IH.
Qed.

Lemma zero_pad_two (n : nat) : n < 100 -> PyStr.zero_pad 2 n = two_digits n.
Proof.
  assert (H : forallb (fun n => (PyStr.zero_pad 2 n =? two_digits n)%string)
                      (seq 0 100) = true) by (vm_compute; reflexivity).
  intros Hn. rewrite forallb_forall in H.
  apply String.eqb_eq, H, in_seq. lia.
Qed.

Lemma zero_pad_four (n : nat) : n < 100 * 100 -> PyStr.zero_pad 4 n = four_digits n.
Proof.
  assert (H : forallb (fun n => (PyStr.zero_pad 4 n =? four_digits n)%string)
                      (seq 0 (100 * 100)) = true) by (vm_compute; reflexivity).
  intros Hn. rewrite forallb_forall in H.
  apply String.eqb_eq, H, in_seq. lia.
Qed.

Lemma str_of_datetime_text (d : DateTime) :
  valid_datetime d = true ->
  str_of_datetime d = timestamp_text d " " ":" ":".
Proof.
  intros Hv. destruct d as [y m dd hh mi ss]. unfold valid_datetime in Hv.
  cbn [dt_year dt_month dt_day dt_hour dt_minute dt_second] in Hv.
  split_valid Hv.
  pose proof (days_in_month_le y m) as Hdim.
  unfold str_of_datetime, timestamp_text.
  cbn [dt_year dt_month dt_day dt_hour dt_minute dt_second].
  rewrite zero_pad_four by assumption.
  rewrite !zero_pad_two by lia.
  reflexivity.
Qed.

Lemma substring_zero_zero (s : string) : substring 0 0 s = "".
Proof. now destruct s. Qed.

Lemma datetime_layer_embedded (d : DateTime) (s1 s2 s3 : ascii) (pre post : string) :
  valid_datetime d = true ->
  class_matches (OneOf " _T-") s1 = true ->
  class_matches (OneOf "-:") s2 = true ->
  class_matches (OneOf "-:") s3 = true ->
  digit_free pre = true ->
  datetime_layer (pre ++ timestamp_text d s1 s2 s3 ++ post) = Some d.
Proof.
  intros Hvalid H1 H2 H3 Hpre. pose proof Hvalid as Hv.
  pose proof (strptime_datetime_text d Hvalid) as Hparse.
  destruct d as [y m dd hh mi ss]. unfold valid_datetime in Hv.
  cbn [dt_year dt_month dt_day dt_hour dt_minute dt_second] in Hv.
  split_valid Hv.
  pose proof (days_in_month_le y m) as Hdim.
  unfold datetime_layer.
  change DATE_WITH_TIME_REGEX
    with (Digit :: tl DATE_WITH_TIME_REGEX).
  rewrite (regex_search_skip _ pre _ Hpre).
  unfold timestamp_text, four_digits, two_digits in *.
  cbn [dt_year dt_month dt_day dt_hour dt_minute dt_second append] in *.
  rewrite regex_search_here.
  2:{ cbn [tl DATE_WITH_TIME_REGEX ymd_pattern app]. match_digits. }
  cbn [substring append]. rewrite substring_zero_zero. now rewrite Hparse.
Qed.

(** X5 (parse_datetime_value, lines 94-119). A text that holds a date-time
    of the calendar, written as [YYYY-MM-DD], one of the separators space,
    underscore, T or hyphen, and [HH MM SS] with hyphens or colons between
    them, parses to that date-time, whatever follows it and whatever
    digit-free text precedes it; the lenient coercion is not consulted. In
    particular a date-time cell parses to itself. *)
Theorem timestamps_parse_back :
  forall (w : World) (d : DateTime) (s1 s2 s3 : ascii) (pre post : string),
    valid_datetime d = true ->
    class_matches (OneOf " _T-") s1 = true ->
    class_matches (OneOf "-:") s2 = true ->
    class_matches (OneOf "-:") s3 = true ->
    digit_free pre = true ->
    parse_datetime_value w (CStr (pre ++ timestamp_text d s1 s2 s3 ++ post))
    = inr (Some (Naive d))
    /\ parse_datetime_value w (CDate d) = inr (Some (Naive d)).
Proof.
  intros w d s1 s2 s3 pre post Hvalid H1 H2 H3 Hpre.
  rewrite !parse_datetime_value_layers. unfold parse_layers.
  cbn [isna py_str]. split.
  - now rewrite datetime_layer_embedded.
  - rewrite (str_of_datetime_text d Hvalid).
    rewrite <- (append_empty_r (timestamp_text d " " ":" ":")).
    change (timestamp_text d " " ":" ":" ++ "")
      with ("" ++ timestamp_text d " " ":" ":" ++ "").
    now rewrite datetime_layer_embedded.
Qed.

Lemma timestamps_parse_back_witness :
  parse_datetime_value sample_world (CStr "llamada_2025-01-15_10-30-00.wav")
  = inr (Some (Naive (mkDateTime 2025 1 15 10 30 0))).
Proof.
  exact (proj1 (timestamps_parse_back
                  sample_world (mkDateTime 2025 1 15 10 30 0) "_" "-" "-"
                  "llamada_" ".wav" eq_refl eq_refl eq_refl eq_refl eq_refl)).
Defined.

Lemma make_datetime_invalid (y m dd hh mi ss : nat) :
  valid_datetime (mkDateTime y m dd hh mi ss) = false ->
  y < 100 * 100 ->
  make_datetime y m dd hh mi ss = inl ValueError.
Proof.
  unfold valid_datetime, make_datetime.
  cbn [dt_year dt_month dt_day dt_hour dt_minute dt_second].
  intros Hv Hy. apply Nat.ltb_lt in Hy. rewrite Hy, andb_true_r in Hv.
  now rewrite Hv.
Qed.

(** X6 (parse_datetime_value, lines 94-119). A text that ends with a date of
    the calendar written [YYYY-MM-DD], after a digit-free text, parses to
    midnight of that day. So does a date followed by a time that is not a
    time of day (hour above 23, minute or second above 59): the failed
    strict parse of the date-time is passed over and the date alone is read. *)
Theorem dates_parse_to_midnight :
  forall (w : World) (d : DateTime) (s1 s2 s3 : ascii) (pre : string),
    valid_datetime (midnight d) = true ->
    digit_free pre = true ->
    parse_datetime_value w (CStr (pre ++ date_text d)) = inr (Some (Naive (midnight d)))
    /\ (valid_datetime d = false ->
        dt_hour d < 100 -> dt_minute d < 100 -> dt_second d < 100 ->
        class_matches (OneOf " _T-") s1 = true ->
        class_matches (OneOf "-:") s2 = true ->
        class_matches (OneOf "-:") s3 = true ->
        parse_datetime_value w (CStr (timestamp_text d s1 s2 s3))
        = inr (Some (Naive (midnight d)))).
Proof.
  intros w d s1 s2 s3 pre Hmid Hpre.
  pose proof (strptime_date_text (midnight d) Hmid) as Hdate.
  pose proof Hmid as Hv.
  destruct d as [y m dd hh mi ss]. unfold valid_datetime, midnight in Hv.
  cbn [dt_year dt_month dt_day dt_hour dt_minute dt_second] in Hv.
  split_valid Hv.
  pose proof (days_in_month_le y m) as Hdim.
  rewrite !parse_datetime_value_layers. unfold parse_layers.
  cbn [isna py_str]. split.
  - unfold datetime_layer, date_only_layer.
    change DATE_WITH_TIME_REGEX with (Digit :: tl DATE_WITH_TIME_REGEX).
    change DATE_ONLY_REGEX with (Digit :: tl ymd_pattern).
    rewrite !(regex_search_skip _ pre _ Hpre).
    rewrite regex_search_short by (cbn; lia).
    unfold date_text, midnight, four_digits, two_digits in *.
    cbn [dt_year dt_month dt_day append] in *.
    rewrite regex_search_here.
    2:{ cbn [tl ymd_pattern]. match_digits. }
    cbn [substring]. now rewrite Hdate.
  - intros Hbad Hhh Hmi Hss Hs1 Hs2 Hs3.
    cbn [dt_hour dt_minute dt_second] in *.
    unfold datetime_layer, date_only_layer.
    unfold timestamp_text, date_text, midnight, four_digits, two_digits in *.
    cbn [dt_year dt_month dt_day dt_hour dt_minute dt_second append] in *.
    rewrite regex_search_here.
    2:{ unfold DATE_WITH_TIME_REGEX, ymd_pattern. cbn [app]. match_digits. }
    cbn [substring append].
    replace (strptime_datetime _) with (@inl exn DateTime ValueError).
    2:{ symmetry. unfold strptime_datetime.
        replace (match_here _ _) with true.
        2:{ symmetry. unfold ymd_pattern. cbn [app]. match_digits. }
        cbn [String.length Nat.eqb andb substring].
        change (PyStr.nat_of_digits (String (digit_char (y / 1000)) _))
          with (PyStr.nat_of_digits (four_digits y)).
        change (PyStr.nat_of_digits (String (digit_char (m / 10)) _))
          with (PyStr.nat_of_digits (two_digits m)).
        change (PyStr.nat_of_digits (String (digit_char (dd / 10)) _))
          with (PyStr.nat_of_digits (two_digits dd)).
        change (PyStr.nat_of_digits (String (digit_char (hh / 10)) _))
          with (PyStr.nat_of_digits (two_digits hh)).
        change (PyStr.nat_of_digits (String (digit_char (mi / 10)) _))
          with (PyStr.nat_of_digits (two_digits mi)).
        change (PyStr.nat_of_digits (String (digit_char (ss / 10)) _))
          with (PyStr.nat_of_digits (two_digits ss)).
        rewrite nat_of_digits_four by assumption.
        rewrite !nat_of_digits_two by lia.
        now apply make_datetime_invalid. }
    rewrite regex_search_here.
    2:{ unfold DATE_ONLY_REGEX, ymd_pattern. match_digits. }
    cbn [substring]. now rewrite Hdate.
Qed.

Lemma dates_parse_to_midnight_witness :
  parse_datetime_value sample_world (CStr "dia 2024-02-29")
  = inr (Some (Naive (mkDateTime 2024 2 29 0 0 0)))
  /\ parse_datetime_value sample_world (CStr "2025-01-15 25:00:00")
     = inr (Some (Naive (mkDateTime 2025 1 15 0 0 0))).
Proof.
  split.
  - exact (proj1 (dates_parse_to_midnight
                    sample_world (mkDateTime 2024 2 29 0 0 0) " " ":" ":" "dia "
                    eq_refl eq_refl)).
  - apply (proj2 (dates_parse_to_midnight
                    sample_world (mkDateTime 2025 1 15 25 0 0) " " ":" ":" ""
                    eq_refl eq_refl));
      (reflexivity || (simpl; lia)).
Defined.

(** ** Rankings by frequency *)

Lemma insert_by_count_perm (x : string * nat) (l : list (string * nat)) :
  Permutation (x :: l) (insert_by_count x l).
Proof.
  induction l as [|y l IH]; cbn [insert_by_count].
  - apply Permutation_refl.
  - destruct (snd x <? snd y).
    + eapply perm_trans; [apply perm_swap|]. now apply perm_skip.
    + apply Permutation_refl.
Qed.

Lemma sort_by_count_perm (c : Counter) : Permutation c (sort_by_count c).
Proof.
  induction c as [|x c IH]; cbn [sort_by_count fold_right].
  - apply perm_nil.
  - eapply perm_trans; [|apply insert_by_count_perm].
    apply perm_skip. exact IH.
Qed.

Lemma insert_by_count_sorted (x : string * nat) (l : list (string * nat)) :
  StronglySorted count_ge l -> StronglySorted count_ge (insert_by_count x l).
Proof.
  induction l as [|y l IH]; intro Hs; cbn [insert_by_count].
  - constructor; [constructor|constructor].
  - inversion Hs as [|? ? Hl Hy]; subst.
    destruct (snd x <? snd y) eqn:Hlt.
    + apply Nat.ltb_lt in Hlt.
      constructor; [now apply IH|].
      apply Forall_forall. intros z Hz.
      apply (Permutation_in _ (Permutation_sym (insert_by_count_perm x l))) in Hz.
      destruct Hz as [<-|Hz].
      * unfold count_ge. lia.
      * rewrite Forall_forall in Hy. now apply Hy.
    + apply Nat.ltb_ge in Hlt.
      constructor; [exact Hs|].
      constructor; [exact Hlt|].
      rewrite Forall_forall in Hy |- *. intros z Hz.
      specialize (Hy z Hz). unfold count_ge in *. lia.
Qed.

Lemma sort_by_count_sorted (c : Counter) : StronglySorted count_ge (sort_by_count c).
Proof.
  induction c as [|x c IH]; cbn [sort_by_count fold_right].
  - constructor.
  - now apply insert_by_count_sorted.
Qed.

Lemma with_count_insert (n : nat) (x : string * nat) (l : list (string * nat)) :
  StronglySorted count_ge l ->
  with_count n (insert_by_count x l) = with_count n (x :: l).
Proof.
  unfold with_count.
  induction l as [|y l IH]; intro Hs; cbn [insert_by_count]; [reflexivity|].
  inversion Hs as [|? ? Hl Hy]; subst.
  destruct (snd x <? snd y) eqn:Hlt; [|reflexivity].
  apply Nat.ltb_lt in Hlt.
  cbn [filter] in *. rewrite (IH Hl).
  destruct (snd x =? n) eqn:Hx; [|reflexivity].
  apply Nat.eqb_eq in Hx.
  destruct (snd y =? n) eqn:Hyn; [|reflexivity].
  apply Nat.eqb_eq in Hyn. lia.
Qed.

Lemma with_count_sort (n : nat) (c : Counter) :
  with_count n (sort_by_count c) = with_count n c.
Proof.
  induction c as [|x c IH]; [reflexivity|].
  cbn [sort_by_count fold_right].
  rewrite with_count_insert by apply sort_by_count_sorted.
  unfold with_count in *. cbn [filter]. fold (sort_by_count c). now rewrite IH.
Qed.

Lemma filter_firstn_prefix {A} (p : A -> bool) (k : nat) (l : list A) :
  filter p (firstn k l) = firstn (List.length (filter p (firstn k l))) (filter p l).
Proof.
  revert k. induction l as [|x l IH]; intro k.
  - now rewrite firstn_nil.
  - destruct k as [|k]; [reflexivity|].
    cbn [firstn filter]. destruct (p x); cbn [List.length firstn].
    + f_equal. apply IH.
    + apply IH.
Qed.

Lemma sorted_firstn_skipn (k : nat) (l : list (string * nat)) :
  StronglySorted count_ge l ->
  forall x y, In x (firstn k l) -> In y (skipn k l) -> count_ge x y.
Proof.
  revert k. induction l as [|z l IH]; intros k Hs x y Hx Hy.
  - rewrite firstn_nil in Hx. destruct Hx.
  - destruct k as [|k]; [destruct Hx|].
    inversion Hs as [|? ? Hl Hz]; subst.
    cbn [firstn skipn] in *. destruct Hx as [<-|Hx].
    + rewrite Forall_forall in Hz. apply Hz.
      rewrite <- (firstn_skipn k l). apply in_or_app. now right.
    + now apply (IH k Hl).
Qed.

Lemma sorted_firstn (k : nat) (l : list (string * nat)) :
  StronglySorted count_ge l -> StronglySorted count_ge (firstn k l).
Proof.
  revert k. induction l as [|z l IH]; intros k Hs.
  - rewrite firstn_nil. constructor.
  - destruct k as [|k]; [constructor|].
    inversion Hs as [|? ? Hl Hz]; subst. cbn [firstn].
    constructor; [now apply IH|].
    rewrite Forall_forall in Hz |- *. intros y Hy. apply Hz.
    revert Hy. clear. revert k. induction l as [|a l IH]; intros k Hy.
    + rewrite firstn_nil in Hy. destruct Hy.
    + destruct k; [destruct Hy|]. cbn [firstn] in Hy. destruct Hy as [<-|Hy].
      * now left.
      * right. now apply (IH k).
Qed.

(** X16 (get_top_categories, lines 587-597). The ranking returned for a
    frequency map has [min top_n (len counter)] entries, runs from the
    highest count down, is a part of the map's entries whose counts are no
    lower than the count of any entry left out, and lists entries of equal
    count in the order the map holds them, the earliest first. *)
Theorem get_top_categories_ranked :
  forall (counter : Counter) (top_n : nat),
    let top := get_top_categories counter top_n in
    List.length top = Nat.min top_n (List.length counter)
    /\ StronglySorted count_ge top
    /\ (exists rest,
           Permutation counter (top ++ rest)
           /\ forall x y, In x top -> In y rest -> count_ge x y)
    /\ forall n,
         with_count n top
         = firstn (List.length (with_count n top)) (with_count n counter).
Proof.
  intros counter top_n top. subst top.
  unfold get_top_categories, most_common.
  repeat split.
  - rewrite length_firstn. f_equal.
    symmetry. apply Permutation_length, sort_by_count_perm.
  - apply sorted_firstn, sort_by_count_sorted.
  - exists (skipn top_n (sort_by_count counter)). split.
    + rewrite firstn_skipn. apply sort_by_count_perm.
    + apply sorted_firstn_skipn, sort_by_count_sorted.
  - intro n. unfold with_count.
    rewrite filter_firstn_prefix at 1.
    f_equal. apply with_count_sort.
Qed.

(** ** Routes and the bundle of one frame *)

Lemma analyze_combined_categories_tally (df : DataFrame) :
  fst (analyze_combined_categories df)
  = counter_of (map ruta_completa (snd (analyze_combined_categories df))).
Proof.
  destruct (general_column (columns df)) as [g|] eqn:Hg.
  - now rewrite (analyze_combined_categories_records df g Hg).
  - now rewrite (analyze_combined_categories_no_general df Hg).
Qed.

Lemma length_route_records (df : DataFrame) (g : string) (esp sub : list string)
      (ic : option string) :
  List.length (route_records df g esp sub ic) <= len_df df.
Proof.
  unfold route_records, len_df.
  induction (df_rows df) as [|row rows IH]; [apply Nat.le_refl|].
  cbn [flat_map]. rewrite length_app. cbn [List.length].
  destruct (route_of_row df g esp sub ic row); cbn [List.length]; lia.
Qed.

Lemma installer_of_row_value (df : DataFrame) (ic : option string) (row : list Cell) :
  installer_of_row df ic row <> ""
  /\ PyStr.strip (installer_of_row df ic row) = installer_of_row df ic row
  /\ (ic = None -> installer_of_row df ic row = SIN_ASIGNAR).
Proof.
  assert (Hsin : SIN_ASIGNAR <> "" /\ PyStr.strip SIN_ASIGNAR = SIN_ASIGNAR).
  { split; [discriminate | reflexivity]. }
  unfold installer_of_row. destruct ic as [ic|].
  - destruct (negb (ic =? "")%string && existsb (String.eqb ic) (columns df)).
    + destruct (isna (cell_at df ic row)); cbn [orb].
      * split; [apply Hsin|]. split; [apply Hsin | discriminate].
      * destruct (String.eqb_spec (PyStr.strip (py_str (cell_at df ic row))) "") as [He|Hne].
        -- split; [apply Hsin|]. split; [apply Hsin | discriminate].
        -- split; [exact Hne|]. split; [apply strip_idempotent | discriminate].
    + split; [apply Hsin|]. split; [apply Hsin | discriminate].
  - split; [apply Hsin|]. split; [apply Hsin | reflexivity].
Qed.

Lemma counter_of_empty (items : list string) : counter_of items = [] <-> items = [].
Proof.
  split.
  - intros H. pose proof (counter_total_counter_of items) as Ht.
    rewrite H in Ht. cbn in Ht. destruct items; [reflexivity | discriminate Ht].
  - now intros ->.
Qed.

(** X11 (analyze_combined_categories, lines 440-513). The route map and the
    detail list of a frame describe the same records: the map holds for
    every route the number of records with that route, each route once; its
    counts add up to the number of records, which is at most the number of
    rows; the map is empty exactly when the list is. The installer of a
    record is never blank, carries no surrounding white space, and is [Sin
    asignar] when the frame has no installer column. *)
Theorem route_map_tallies_the_records :
  forall (df : DataFrame),
    let counts := fst (analyze_combined_categories df) in
    let details := snd (analyze_combined_categories df) in
    (forall route,
        counter_get route counts
        = count_occ string_dec (map ruta_completa details) route)
    /\ NoDup (keys counts)
    /\ counter_total counts = List.length details
    /\ List.length details <= len_df df
    /\ (counts = [] <-> details = [])
    /\ Forall (fun r =>
                 agente_instalador r <> ""
                 /\ PyStr.strip (agente_instalador r) = agente_instalador r
                 /\ (identify_installer_column df = None
                     -> agente_instalador r = SIN_ASIGNAR))
              details.
Proof.
  intros df counts details. subst counts details.
  rewrite analyze_combined_categories_tally.
  split; [intro route; apply counter_get_counter_of|].
  split; [apply NoDup_counter_of|].
  split; [rewrite counter_total_counter_of; apply length_map|].
  split.
  { destruct (general_column (columns df)) as [g|] eqn:Hg.
    - rewrite (analyze_combined_categories_records df g Hg). cbn [snd].
      apply length_route_records.
    - rewrite (analyze_combined_categories_no_general df Hg). apply Nat.le_0_l. }
  split.
  { rewrite counter_of_empty. split.
    - apply map_eq_nil.
    - now intros ->. }
  apply Forall_forall. intros r Hr.
  destruct (general_column (columns df)) as [g|] eqn:Hg.
  - rewrite (analyze_combined_categories_records df g Hg) in Hr. cbn [snd] in Hr.
    apply route_records_In in Hr. destruct Hr as [row [_ Hrow]].
    apply route_of_row_Some in Hrow. destruct Hrow as [_ [_ ->]].
    cbn [record_of_parts agente_instalador].
    apply installer_of_row_value.
  - rewrite (analyze_combined_categories_no_general df Hg) in Hr. destruct Hr.
Qed.

(** *** The keys of the bundle *)

Section BundleInvariant.

Variable P : string * BundleValue -> Prop.

Lemma Forall_dict_set (k : string) (v : BundleValue) (d : Bundle) :
  Forall P d -> P (k, v) -> Forall P (dict_set k v d).
Proof.
  intros Hd Hk. induction d as [|[k' v'] d IH]; cbn [dict_set].
  - now constructor.
  - inversion Hd as [|? ? Hhead Htail]; subst.
    destruct (String.eqb_spec k' k) as [->|Hne].
    + now constructor.
    + constructor; [exact Hhead | now apply IH].
Qed.

End BundleInvariant.

Lemma count_stripped_not_empty (v : Cell) (vs : list Cell) :
  0 < List.length (count_stripped (v :: vs)).
Proof.
  unfold count_stripped.
  destruct (counter_of (map (fun v0 => PyStr.strip (py_str v0)) (v :: vs))) eqn:H.
  - apply counter_of_empty in H. discriminate H.
  - cbn [List.length]. lia.
Qed.

Lemma tally_specific_columns_counters (df : DataFrame) :
  Forall (fun kv => 0 < bundle_value_len (snd kv) /\ is_list_value (snd kv) = false)
         (fst (tally_specific_columns df)).
Proof.
  unfold tally_specific_columns.
  set (Q := fun kv : string * BundleValue =>
              0 < bundle_value_len (snd kv) /\ is_list_value (snd kv) = false).
  apply (fold_left_invariant (fun st => Forall Q (fst st))); [constructor|].
  intros st col Hst.
  apply (fold_left_invariant (fun st => Forall Q (fst st))); [exact Hst|].
  clear st Hst. intros [d p] m Hst. cbn [fst] in *.
  destruct (existsb (String.eqb m) p); [exact Hst|].
  destruct (dropna (column_values df m)) as [|v vs]; [exact Hst|].
  cbn [fst]. apply Forall_dict_set; [exact Hst|].
  split; [apply count_stripped_not_empty | reflexivity].
Qed.

(** X12 (analyze_detailed_categories, lines 393-438). No value of the bundle
    of a frame is empty, and a list is held only under the keys
    [categoria_combinada_detalle] and [agente_instalador_detalle]. *)
Theorem detailed_bundle_holds_no_empty_value :
  forall (df : DataFrame),
    Forall (fun kv =>
              0 < bundle_value_len (snd kv)
              /\ (is_list_value (snd kv) = true
                  -> fst kv = "categoria_combinada_detalle"
                     \/ fst kv = "agente_instalador_detalle"))
           (analyze_detailed_categories df).
Proof.
  intro df.
  set (Q := fun kv : string * BundleValue =>
              0 < bundle_value_len (snd kv)
              /\ (is_list_value (snd kv) = true
                  -> fst kv = "categoria_combinada_detalle"
                     \/ fst kv = "agente_instalador_detalle")).
  assert (H0 : Forall Q (fst (tally_specific_columns df))).
  { eapply Forall_impl; [|apply tally_specific_columns_counters].
    intros kv [Hlen Hkind]. split; [exact Hlen|].
    intro Hl. rewrite Hl in Hkind. discriminate Hkind. }
  unfold analyze_detailed_categories.
  destruct (analyze_combined_categories df) as [cc cd].
  assert (H1 : Forall Q match cc with
                        | [] => fst (tally_specific_columns df)
                        | _ :: _ => dict_set "categoria_combinada" (BCounter cc)
                                             (fst (tally_specific_columns df))
                        end).
  { destruct cc as [|kv cc]; [exact H0|].
    apply Forall_dict_set; [exact H0|].
    split; [cbn; lia | discriminate]. }
  destruct cd as [|r cd]; [exact H1|].
  assert (H2 : Forall Q (dict_set "categoria_combinada_detalle"
                                  (BList (map RouteRow (r :: cd)))
                                  match cc with
                                  | [] => fst (tally_specific_columns df)
                                  | _ :: _ => dict_set "categoria_combinada" (BCounter cc)
                                                       (fst (tally_specific_columns df))
                                  end)).
  { apply Forall_dict_set; [exact H1|].
    split; [cbn; lia | now left]. }
  destruct (identify_installer_column df) as [ic|]; [|exact H2].
  destruct (ic =? "")%string; [exact H2|].
  destruct (generate_installer_breakdown (r :: cd)) as [|x xs]; [exact H2|].
  apply Forall_dict_set; [exact H2|].
  split; [cbn; lia | now right].
Qed.

Lemma breakdown_needs_an_agent (routes : list RouteRecord) :
  generate_installer_breakdown routes <> [] ->
  exists r, In r routes /\ agente_instalador r <> SIN_ASIGNAR.
Proof.
  unfold generate_installer_breakdown.
  destruct routes as [|r0 routes]; [now intros H|].
  destruct (filter (fun r => negb (agente_instalador r =? SIN_ASIGNAR)%string)
                   (r0 :: routes)) as [|r rs] eqn:Hf; [now intros H|].
  intros _. exists r.
  assert (Hin : In r (filter (fun r => negb (agente_instalador r =? SIN_ASIGNAR)%string)
                             (r0 :: routes))) by (rewrite Hf; now left).
  apply filter_In in Hin. destruct Hin as [Hin Hneq]. split; [exact Hin|].
  apply negb_true_iff in Hneq. now apply String.eqb_neq in Hneq.
Qed.

(** X13 (analyze_detailed_categories, lines 427-436). When the bundle of a
    frame holds an installer breakdown, the frame has an installer column,
    the breakdown is the non-empty result of [generate_installer_breakdown]
    on the route records, some record names an installer, and the bundle
    holds these records under [categoria_combinada_detalle]. *)
Theorem installer_detail_requires_installer_column :
  forall (df : DataFrame) (l : list DetailRecord),
    dict_get "agente_instalador_detalle" (analyze_detailed_categories df)
    = Some (BList l) ->
    let routes := snd (analyze_combined_categories df) in
    identify_installer_column df <> None
    /\ l = map InstallerRow (generate_installer_breakdown routes)
    /\ l <> []
    /\ (exists r, In r routes /\ agente_instalador r <> SIN_ASIGNAR)
    /\ dict_get "categoria_combinada_detalle" (analyze_detailed_categories df)
       = Some (BList (map RouteRow routes)).
Proof.
  intros df l Hl routes. subst routes.
  pose proof (tally_specific_columns_counters df) as H0.
  unfold analyze_detailed_categories in *.
  destruct (analyze_combined_categories df) as [cc cd]. cbn [snd].
  set (d1 := match cc with
             | [] => fst (tally_specific_columns df)
             | _ :: _ => dict_set "categoria_combinada" (BCounter cc)
                                  (fst (tally_specific_columns df))
             end) in *.
  assert (H1 : Forall (fun kv => is_list_value (snd kv) = false) d1).
  { assert (H0' : Forall (fun kv : string * BundleValue => is_list_value (snd kv) = false)
                         (fst (tally_specific_columns df))).
    { eapply Forall_impl; [|exact H0]. now intros kv [_ H]. }
    subst d1. destruct cc; [exact H0'|]. now apply Forall_dict_set. }
  assert (Hno : forall (d : Bundle) k v,
             Forall (fun kv => is_list_value (snd kv) = false) d ->
             dict_get k d = Some (BList v) -> False).
  { intros d k v Hd Hget. apply dict_get_In in Hget.
    rewrite Forall_forall in Hd. specialize (Hd _ Hget). discriminate Hd. }
  destruct cd as [|r cd].
  { exfalso. exact (Hno _ _ _ H1 Hl). }
  assert (Hnot2 : dict_get "agente_instalador_detalle"
                           (dict_set "categoria_combinada_detalle"
                                     (BList (map RouteRow (r :: cd))) d1)
                  = Some (BList l) -> False).
  { rewrite dict_get_set_other by discriminate. apply Hno, H1. }
  destruct (identify_installer_column df) as [ic|]; [|now exfalso].
  destruct (ic =? "")%string; [now exfalso|].
  destruct (generate_installer_breakdown (r :: cd)) as [|x xs] eqn:Hgen; [now exfalso|].
  rewrite dict_get_set_same in Hl. injection Hl as <-.
  split; [discriminate|].
  split; [reflexivity|].
  split; [discriminate|].
  split.
  - apply breakdown_needs_an_agent. rewrite Hgen. discriminate.
  - rewrite dict_get_set_other by discriminate. apply dict_get_set_same.
Qed.

Lemma installer_detail_requires_installer_column_witness :
  dict_get "agente_instalador_detalle" (analyze_detailed_categories calls_sheet)
  = Some (BList (detail_list "agente_instalador_detalle"
                             (analyze_detailed_categories calls_sheet)))
  /\ identify_installer_column calls_sheet <> None.
Proof.
  assert (H : dict_get "agente_instalador_detalle" (analyze_detailed_categories calls_sheet)
              = Some (BList (detail_list "agente_instalador_detalle"
                                         (analyze_detailed_categories calls_sheet))))
    by (vm_compute; reflexivity).
  split; [exact H|].
  exact (proj1 (installer_detail_requires_installer_column calls_sheet _ H)).
Defined.

(** ** When the text report is produced *)

Lemma detail_sections_outcome (w : World) (total_rows : nat) (bundle : Bundle) :
  if holds_detail_list bundle
  then map_exc (detail_section w total_rows) bundle = inl AttributeError
  else exists sections, map_exc (detail_section w total_rows) bundle = inr sections.
Proof.
  induction bundle as [|[k v] bundle IH]; [eexists; reflexivity|].
  cbn [holds_detail_list existsb snd]. fold (holds_detail_list bundle).
  destruct v as [c|[|d l]].
  - cbn [is_list_value andb orb].
    destruct (detail_section_counter w total_rows k c) as [lines Hlines].
    cbn [map_exc]. rewrite Hlines. cbn [bind].
    destruct (holds_detail_list bundle).
    + now rewrite IH.
    + destruct IH as [sections ->]. eexists. reflexivity.
  - cbn [is_list_value bundle_value_len List.length Nat.ltb Nat.leb andb orb].
    cbn [map_exc detail_section bundle_value_len List.length Nat.ltb Nat.leb bind ret].
    destruct (holds_detail_list bundle).
    + now rewrite IH.
    + destruct IH as [sections ->]. eexists. reflexivity.
  - cbn [is_list_value bundle_value_len List.length Nat.ltb Nat.leb andb orb].
    cbn [map_exc]. rewrite detail_section_list by discriminate. reflexivity.
Qed.

(** X17 (generate_report, lines 599-667). The report is decided by the
    bundle alone: with a non-empty list among its values the call raises
    [AttributeError], and otherwise (also for the empty bundle) it returns a
    text, whatever the frequency map and the totals are. *)
Theorem generate_report_outcome :
  forall (w : World) (counter : Counter) (total_rows files_processed : nat)
         (bundle : Bundle),
    if holds_detail_list bundle
    then generate_report w counter total_rows files_processed bundle
         = inl AttributeError
    else exists text,
        generate_report w counter total_rows files_processed bundle = inr text.
Proof.
  intros w counter total_rows files_processed bundle.
  pose proof (detail_sections_outcome w total_rows bundle) as H.
  unfold generate_report.
  destruct bundle as [|entry bundle]; [eexists; reflexivity|].
  destruct (holds_detail_list (entry :: bundle)).
  - now rewrite H.
  - destruct H as [sections ->]. eexists. reflexivity.
Qed.

Lemma holds_detail_list_false (b : Bundle) :
  Forall (fun kv => is_list_value (snd kv) = false) b -> holds_detail_list b = false.
Proof.
  induction 1 as [|kv b Hkv _ IH]; [reflexivity|].
  cbn [holds_detail_list existsb]. fold (holds_detail_list b).
  now rewrite Hkv, IH.
Qed.

Lemma holds_detail_list_true (b : Bundle) (k : string) (l : list DetailRecord) :
  In (k, BList l) b -> l <> [] -> holds_detail_list b = true.
Proof.
  intros Hin Hne. unfold holds_detail_list. apply existsb_exists.
  exists (k, BList l). split; [exact Hin|].
  destruct l; [contradiction | reflexivity].
Qed.

(** X18 (analyze_detailed_categories with generate_report, lines 427-429 and
    650-657). The bundle of a frame holds a non-empty list exactly when some
    row of the frame yields a combined route, so the text report on the
    analysis of a frame is produced exactly for frames without such rows and
    raises [AttributeError] for the others. *)
Theorem report_of_frame_fails_with_routes :
  forall (w : World) (df : DataFrame) (counter : Counter)
         (total_rows files_processed : nat),
    holds_detail_list (analyze_detailed_categories df)
    = negb (is_empty (snd (analyze_combined_categories df)))
    /\ if is_empty (snd (analyze_combined_categories df))
       then exists text,
           generate_report w counter total_rows files_processed
                           (analyze_detailed_categories df) = inr text
       else generate_report w counter total_rows files_processed
                            (analyze_detailed_categories df) = inl AttributeError.
Proof.
  intros w df counter total_rows files_processed.
  assert (Hkey : holds_detail_list (analyze_detailed_categories df)
                 = negb (is_empty (snd (analyze_combined_categories df)))).
  { pose proof (tally_specific_columns_counters df) as H0.
    assert (H0' : Forall (fun kv : string * BundleValue => is_list_value (snd kv) = false)
                         (fst (tally_specific_columns df))).
    { eapply Forall_impl; [|exact H0]. now intros kv [_ H]. }
    unfold analyze_detailed_categories.
    destruct (analyze_combined_categories df) as [cc cd]. cbn [snd].
    set (d1 := match cc with
               | [] => fst (tally_specific_columns df)
               | _ :: _ => dict_set "categoria_combinada" (BCounter cc)
                                    (fst (tally_specific_columns df))
               end).
    assert (H1 : Forall (fun kv => is_list_value (snd kv) = false) d1).
    { subst d1. destruct cc; [exact H0'|]. now apply Forall_dict_set. }
    destruct cd as [|r cd]; cbn [is_empty negb].
    { now apply holds_detail_list_false. }
    assert (H2 : holds_detail_list
                   (dict_set "categoria_combinada_detalle"
                             (BList (map RouteRow (r :: cd))) d1) = true).
    { apply (holds_detail_list_true _ "categoria_combinada_detalle"
                                    (map RouteRow (r :: cd))); [|discriminate].
      apply dict_get_In, dict_get_set_same. }
    destruct (identify_installer_column df) as [ic|]; [|exact H2].
    destruct (ic =? "")%string; [exact H2|].
    destruct (generate_installer_breakdown (r :: cd)) as [|x xs]; [exact H2|].
    apply (holds_detail_list_true _ "categoria_combinada_detalle"
                                  (map RouteRow (r :: cd))); [|discriminate].
    apply dict_get_In. rewrite dict_get_set_other by discriminate.
    apply dict_get_set_same. }
  split; [exact Hkey|].
  pose proof (detail_sections_outcome w total_rows (analyze_detailed_categories df)) as H.
  rewrite Hkey in H. unfold generate_report.
  destruct (analyze_detailed_categories df) as [|entry bundle].
  - cbn [holds_detail_list existsb] in Hkey.
    destruct (is_empty (snd (analyze_combined_categories df)));
      [eexists; reflexivity | discriminate Hkey].
  - destruct (is_empty (snd (analyze_combined_categories df))); cbn [negb] in H.
    + destruct H as [sections ->]. eexists. reflexivity.
    + now rewrite H.
Qed.

(** ** The order of the installer breakdown *)

Lemma string_compare_trans (a b c : string) :
  String.compare a b = Lt -> String.compare b c = Lt -> String.compare a c = Lt.
Proof.
  intros H1 H2.
  exact (@RelationClasses.StrictOrder_Transitive
           _ _ OrdersEx.String_as_OT.lt_strorder a b c H1 H2).
Qed.

Lemma string_compare_refl (a : string) : String.compare a a = Eq.
Proof.
  pose proof (String.compare_antisym a a) as H.
  destruct (String.compare a a); [reflexivity | discriminate H | discriminate H].
Qed.

Lemma string_compare_gt (a b : string) :
  String.compare a b = Gt -> String.compare b a = Lt.
Proof.
  intros H. rewrite String.compare_antisym, H. reflexivity.
Qed.

Lemma keys_compare_refl (a : list string) : keys_compare a a = Eq.
Proof.
  induction a as [|x a IH]; [reflexivity|].
  cbn [keys_compare]. now rewrite string_compare_refl.
Qed.

Lemma keys_compare_antisym (a b : list string) :
  keys_compare a b = CompOpp (keys_compare b a).
Proof.
  revert b. induction a as [|x a IH]; intros [|y b]; try reflexivity.
  cbn [keys_compare]. rewrite (String.compare_antisym x y).
  destruct (String.compare y x); cbn [CompOpp]; [apply IH | reflexivity | reflexivity].
Qed.

Lemma keys_compare_gt (a b : list string) :
  keys_compare a b = Gt -> keys_compare b a = Lt.
Proof.
  intros H. rewrite keys_compare_antisym, H. reflexivity.
Qed.

Lemma keys_compare_trans (a b c : list string) :
  keys_compare a b = Lt -> keys_compare b c = Lt -> keys_compare a c = Lt.
Proof.
  revert b c. induction a as [|x a IH]; intros [|y b] [|z c]; cbn [keys_compare];
    try discriminate; try reflexivity.
  destruct (String.compare x y) eqn:Hxy; [| |discriminate].
  - apply String.compare_eq_iff in Hxy. subst y.
    destruct (String.compare x z); [apply IH | reflexivity | discriminate].
  - intros _. destruct (String.compare y z) eqn:Hyz; [| |discriminate].
    + apply String.compare_eq_iff in Hyz. subst z. now rewrite Hxy.
    + now rewrite (string_compare_trans x y z Hxy Hyz).
Qed.

Lemma group_key_injective (a b : RouteRecord) : group_key a = group_key b -> a = b.
Proof.
  destruct a, b. unfold group_key. cbn. intros [= -> -> -> -> ->]. reflexivity.
Qed.

Lemma route_eqb_eq (a b : RouteRecord) : route_eqb a b = true <-> a = b.
Proof.
  unfold route_eqb. split.
  - intros H. repeat (apply andb_true_iff in H; destruct H as [H ?]).
    apply group_key_injective. unfold group_key.
    repeat match goal with
           | E : (_ =? _)%string = true |- _ => apply String.eqb_eq in E; rewrite E; clear E
           end.
    reflexivity.
  - intros ->. now rewrite !String.eqb_refl.
Qed.

Lemma route_eqb_refl (a : RouteRecord) : route_eqb a a = true.
Proof. now apply route_eqb_eq. Qed.

(** *** The groups *)

Lemma group_count_insert (r' r : RouteRecord) (groups : list (RouteRecord * nat)) :
  group_count r' (group_insert r groups)
  = group_count r' groups + (if route_eqb r' r then 1 else 0).
Proof.
  induction groups as [|[g n] groups IH]; cbn [group_insert].
  - cbn [group_count fold_right fst snd]. destruct (route_eqb r' r); lia.
  - destruct (keys_compare (group_key r) (group_key g)) eqn:Hcmp.
    + apply keys_compare_eq, group_key_injective in Hcmp. subst g.
      cbn [group_count fold_right fst snd]. destruct (route_eqb r' r); lia.
    + cbn [group_count fold_right fst snd].
      destruct (route_eqb r' r), (route_eqb r' g); lia.
    + change (group_count r' ((g, n) :: group_insert r groups))
        with (if route_eqb r' g then n + group_count r' (group_insert r groups)
              else group_count r' (group_insert r groups)).
      change (group_count r' ((g, n) :: groups))
        with (if route_eqb r' g then n + group_count r' groups
              else group_count r' groups).
      rewrite IH. destruct (route_eqb r' g); lia.
Qed.

Lemma group_count_group_sizes (r' : RouteRecord) (records : list RouteRecord) :
  group_count r' (group_sizes records)
  = List.length (filter (route_eqb r') records).
Proof.
  unfold group_sizes.
  assert (H : forall groups,
             group_count r' (fold_left (fun groups r => group_insert r groups) records groups)
             = group_count r' groups + List.length (filter (route_eqb r') records)).
  { induction records as [|r records IH]; intro groups; cbn [fold_left filter].
    - cbn [List.length]. lia.
    - rewrite IH, group_count_insert.
      destruct (route_eqb r' r); cbn [List.length]; lia. }
  now rewrite H.
Qed.

Lemma In_group_insert (r : RouteRecord) (groups : list (RouteRecord * nat))
      (h : RouteRecord * nat) :
  In h (group_insert r groups) ->
  fst h = r \/ exists h', In h' groups /\ fst h' = fst h.
Proof.
  induction groups as [|[g n] groups IH]; cbn [group_insert].
  - intros [<-|[]]. now left.
  - destruct (keys_compare (group_key r) (group_key g)) eqn:Hcmp.
    + intros [<-|Hin].
      * right. exists (g, n). split; [now left | reflexivity].
      * right. exists h. split; [now right | reflexivity].
    + intros [<-|Hin]; [now left|].
      right. exists h. split; [exact Hin | reflexivity].
    + intros [<-|Hin].
      * right. exists (g, n). split; [now left | reflexivity].
      * destruct (IH Hin) as [Hr|[h' [Hh' Heq]]]; [now left|].
        right. exists h'. split; [now right | exact Heq].
Qed.

Lemma group_insert_sorted (r : RouteRecord) (groups : list (RouteRecord * nat)) :
  StronglySorted key_lt groups -> StronglySorted key_lt (group_insert r groups).
Proof.
  induction groups as [|[g n] groups IH]; intro Hs; cbn [group_insert].
  - constructor; constructor.
  - inversion Hs as [|? ? Htail Hhead]; subst.
    destruct (keys_compare (group_key r) (group_key g)) eqn:Hcmp.
    + constructor; [exact Htail|].
      eapply Forall_impl; [|exact Hhead]. intros h Hh. exact Hh.
    + constructor; [exact Hs|].
      constructor; [exact Hcmp|].
      eapply Forall_impl; [|exact Hhead]. intros h Hh.
      unfold key_lt in *. cbn [fst] in *.
      exact (keys_compare_trans _ _ _ Hcmp Hh).
    + constructor; [now apply IH|].
      apply Forall_forall. intros h Hh.
      apply In_group_insert in Hh. destruct Hh as [Hr|[h' [Hh' Heq]]].
      * unfold key_lt. cbn [fst]. rewrite Hr. now apply keys_compare_gt.
      * rewrite Forall_forall in Hhead. specialize (Hhead h' Hh').
        unfold key_lt in *. now rewrite <- Heq.
Qed.

Lemma group_sizes_sorted (records : list RouteRecord) :
  StronglySorted key_lt (group_sizes records).
Proof.
  unfold group_sizes.
  apply (fold_left_invariant (StronglySorted key_lt)); [constructor|].
  intros groups r. apply group_insert_sorted.
Qed.

Lemma sorted_groups_NoDup (groups : list (RouteRecord * nat)) :
  StronglySorted key_lt groups -> NoDup (map fst groups).
Proof.
  induction 1 as [|g groups Hs IH Hhead]; cbn [map]; constructor; [|exact IH].
  intros Hin. apply in_map_iff in Hin. destruct Hin as [h [Heq Hh]].
  rewrite Forall_forall in Hhead. specialize (Hhead h Hh).
  unfold key_lt in Hhead. rewrite Heq, keys_compare_refl in Hhead. discriminate Hhead.
Qed.

Lemma group_count_of_group (groups : list (RouteRecord * nat)) (g : RouteRecord * nat) :
  NoDup (map fst groups) -> In g groups -> group_count (fst g) groups = snd g.
Proof.
  induction groups as [|h groups IH]; intros Hnd Hin; [destruct Hin|].
  cbn [map] in Hnd. inversion Hnd as [|? ? Hnot Hrest]; subst.
  change (group_count (fst g) (h :: groups))
    with (if route_eqb (fst g) (fst h) then snd h + group_count (fst g) groups
          else group_count (fst g) groups).
  destruct Hin as [->|Hin].
  - rewrite route_eqb_refl.
    assert (H0 : group_count (fst g) groups = 0).
    { clear - Hnot. induction groups as [|k groups IHg]; [reflexivity|].
      change (group_count (fst g) (k :: groups))
        with (if route_eqb (fst g) (fst k) then snd k + group_count (fst g) groups
              else group_count (fst g) groups).
      destruct (route_eqb (fst g) (fst k)) eqn:Heq.
      - apply route_eqb_eq in Heq. exfalso. apply Hnot. left. now symmetry.
      - apply IHg. intro Hin. apply Hnot. now right. }
    lia.
  - destruct (route_eqb (fst g) (fst h)) eqn:Heq.
    + apply route_eqb_eq in Heq. exfalso. apply Hnot. rewrite <- Heq.
      now apply in_map.
    + now apply IH.
Qed.

Lemma group_insert_keeps (r : RouteRecord) (groups : list (RouteRecord * nat))
      (x : RouteRecord) :
  x = r \/ In x (map fst groups) -> In x (map fst (group_insert r groups)).
Proof.
  induction groups as [|[g n] groups IH]; cbn [group_insert map fst].
  - intros [->|[]]. now left.
  - destruct (keys_compare (group_key r) (group_key g)) eqn:Hcmp.
    + apply keys_compare_eq, group_key_injective in Hcmp. subst g.
      cbn [map fst]. intros [->|[->|Hin]]; [now left | now left | now right].
    + cbn [map fst]. intros [->|Hin]; [now left | now right].
    + cbn [map fst]. intros [->|[->|Hin]].
      * right. apply IH. now left.
      * now left.
      * right. apply IH. now right.
Qed.

Lemma group_sizes_covers (records : list RouteRecord) (x : RouteRecord) :
  In x records -> In x (map fst (group_sizes records)).
Proof.
  unfold group_sizes.
  assert (H : forall groups,
             In x records \/ In x (map fst groups) ->
             In x (map fst (fold_left (fun groups r => group_insert r groups)
                                      records groups))).
  { induction records as [|r records IH]; intros groups Hin; cbn [fold_left].
    - destruct Hin as [[]|Hin]. exact Hin.
    - apply IH. destruct Hin as [[->|Hin]|Hin].
      + right. apply group_insert_keeps. now left.
      + now left.
      + right. apply group_insert_keeps. now right. }
  intro Hin. apply H. now left.
Qed.

(** *** The sort *)

Lemma breakdown_le_trans (x y z : InstallerRecord) :
  breakdown_le x y -> breakdown_le y z -> breakdown_le x z.
Proof.
  unfold breakdown_le.
  destruct (String.compare (agent_of x) (agent_of y)) eqn:Hxy; [| |contradiction].
  - apply String.compare_eq_iff in Hxy. rewrite Hxy.
    destruct (String.compare (agent_of y) (agent_of z)); [lia | trivial | contradiction].
  - intros _.
    destruct (String.compare (agent_of y) (agent_of z)) eqn:Hyz; [| |contradiction].
    + apply String.compare_eq_iff in Hyz. rewrite <- Hyz, Hxy. trivial.
    + now rewrite (string_compare_trans _ _ _ Hxy Hyz).
Qed.

Lemma precedes_le (x y : InstallerRecord) : precedes x y = true -> breakdown_le x y.
Proof.
  unfold precedes, breakdown_le, agent_of.
  destruct (String.compare (agente_instalador (ir_route x))
                           (agente_instalador (ir_route y)));
    [|trivial|discriminate].
  intros H. apply Nat.ltb_lt in H. lia.
Qed.

Lemma not_precedes_le (x y : InstallerRecord) : precedes y x = false -> breakdown_le x y.
Proof.
  unfold precedes, breakdown_le, agent_of.
  rewrite (String.compare_antisym (agente_instalador (ir_route y))
                                  (agente_instalador (ir_route x))).
  destruct (String.compare (agente_instalador (ir_route x))
                           (agente_instalador (ir_route y)));
    cbn [CompOpp]; [|trivial|discriminate].
  intros H. apply Nat.ltb_ge in H. exact H.
Qed.

Lemma insert_sorted_ordered (x : InstallerRecord) (rows : list InstallerRecord) :
  StronglySorted breakdown_le rows -> StronglySorted breakdown_le (insert_sorted x rows).
Proof.
  induction rows as [|y rows IH]; intro Hs; cbn [insert_sorted].
  - constructor; constructor.
  - inversion Hs as [|? ? Htail Hhead]; subst.
    destruct (precedes y x) eqn:Hp.
    + constructor; [now apply IH|].
      apply Forall_forall. intros z Hz. apply In_insert_sorted in Hz.
      destruct Hz as [<-|Hz]; [now apply precedes_le|].
      rewrite Forall_forall in Hhead. now apply Hhead.
    + apply not_precedes_le in Hp.
      constructor; [exact Hs|]. constructor; [exact Hp|].
      eapply Forall_impl; [|exact Hhead]. intros z Hz.
      exact (breakdown_le_trans _ _ _ Hp Hz).
Qed.

Lemma sort_breakdown_ordered (rows : list InstallerRecord) :
  StronglySorted breakdown_le (sort_breakdown rows).
Proof.
  induction rows as [|x rows IH]; [constructor|].
  change (sort_breakdown (x :: rows)) with (insert_sorted x (sort_breakdown rows)).
  now apply insert_sorted_ordered.
Qed.

Lemma insert_sorted_perm (x : InstallerRecord) (rows : list InstallerRecord) :
  Permutation (x :: rows) (insert_sorted x rows).
Proof.
  induction rows as [|y rows IH]; cbn [insert_sorted]; [apply Permutation_refl|].
  destruct (precedes y x); [|apply Permutation_refl].
  eapply perm_trans; [apply perm_swap|]. now apply perm_skip.
Qed.

Lemma sort_breakdown_perm (rows : list InstallerRecord) :
  Permutation rows (sort_breakdown rows).
Proof.
  induction rows as [|x rows IH]; [apply perm_nil|].
  change (sort_breakdown (x :: rows)) with (insert_sorted x (sort_breakdown rows)).
  eapply perm_trans; [|apply insert_sorted_perm]. now apply perm_skip.
Qed.

Lemma filter_filter_implied {A} (p q : A -> bool) (l : list A) :
  (forall x, p x = true -> q x = true) -> filter p (filter q l) = filter p l.
Proof.
  intro Himp. induction l as [|x l IH]; [reflexivity|].
  cbn [filter]. destruct (q x) eqn:Hq; cbn [filter].
  - now rewrite IH.
  - destruct (p x) eqn:Hp; [|exact IH].
    rewrite (Himp x Hp) in Hq. discriminate Hq.
Qed.

(** X14 (generate_installer_breakdown, lines 546-585). The rows of the
    breakdown are in order, by agent ascending and within an agent by
    frequency descending; there is one row for every distinct record; the
    frequency of a row is the number of input records equal to the row's
    record, and is not zero; and every input record that names an installer
    has its row. *)
Theorem installer_breakdown_is_ordered :
  forall (details : list RouteRecord),
    let rows := generate_installer_breakdown details in
    StronglySorted breakdown_le rows
    /\ NoDup (map ir_route rows)
    /\ Forall (fun row =>
                 Frecuencia row
                 = List.length (filter (route_eqb (ir_route row)) details)
                 /\ 0 < Frecuencia row)
              rows
    /\ Forall (fun r => agente_instalador r = SIN_ASIGNAR
                        \/ In r (map ir_route rows))
              details.
Proof.
  intros details rows. subst rows.
  rewrite generate_installer_breakdown_eq. cbv zeta.
  set (kept := filter (fun r => negb (agente_instalador r =? SIN_ASIGNAR)%string) details).
  set (grouped := group_sizes kept).
  assert (Hroutes : map ir_route (map (breakdown_row grouped) grouped) = map fst grouped).
  { rewrite map_map. apply map_ext. reflexivity. }
  assert (Hnd : NoDup (map fst grouped)).
  { apply sorted_groups_NoDup, group_sizes_sorted. }
  split; [apply sort_breakdown_ordered|].
  split.
  { eapply Permutation_NoDup.
    - apply Permutation_map, sort_breakdown_perm.
    - rewrite Hroutes. exact Hnd. }
  split.
  { apply Forall_forall. intros row Hrow.
    apply In_sort_breakdown, in_map_iff in Hrow. destruct Hrow as [g [<- Hg]].
    cbn [breakdown_row Frecuencia ir_route].
    pose proof (groups_from_group_sizes kept) as Hfrom. fold grouped in Hfrom.
    unfold groups_from in Hfrom. rewrite Forall_forall in Hfrom.
    destruct (Hfrom g Hg) as [[r [Hr Hagent]] Hpos].
    split; [|exact Hpos].
    rewrite <- (group_count_of_group grouped g Hnd Hg).
    unfold grouped. rewrite group_count_group_sizes. unfold kept.
    f_equal. apply filter_filter_implied.
    intros x Hx. apply route_eqb_eq in Hx. subst x.
    apply filter_In in Hr. destruct Hr as [_ Hr]. now rewrite <- Hagent. }
  apply Forall_forall. intros r Hr.
  destruct (String.eqb_spec (agente_instalador r) SIN_ASIGNAR) as [Heq|Hne];
    [now left|right].
  eapply Permutation_in; [apply Permutation_map, sort_breakdown_perm|].
  rewrite Hroutes. apply group_sizes_covers. unfold kept.
  apply filter_In. split; [exact Hr|].
  apply negb_true_iff. now apply String.eqb_neq.
Qed.

(** ** A run over any number of files *)

Lemma analyze_excel_file_unique_keys (w : World) (self : Analyzer) (path : string) :
  exists c n b,
    analyze_excel_file w self path = inr (c, n, b)
    /\ NoDup (keys c) /\ NoDup (keys b).
Proof.
  destruct (analyze_excel_file_counter_cases w self path) as [c [n [b [Hret Hc]]]].
  destruct (analyze_excel_file_NoDup w self path) as [c' [n' [b' [Hret' Hb]]]].
  rewrite Hret in Hret'. injection Hret' as <- <- <-.
  exists c, n, b. split; [exact Hret|]. split; [|exact Hb].
  destruct Hc as [->|[df [cat [_ [_ [-> _]]]]]]; [constructor|].
  apply NoDup_counter_of.
Qed.

Lemma merge_bundle_lists (b total total' : Bundle) :
  NoDup (keys b) ->
  fold_exc merge_entry b total = inr total' ->
  forall key, detail_list key total'
              = (detail_list key total ++ detail_list key b)%list.
Proof.
  intros Hnd Hfold.
  destruct (compatible_with total b) eqn:Hok.
  - destruct (merge_bundle_ok b total Hnd Hok) as [t [Ht [_ Hlist]]].
    rewrite Ht in Hfold. injection Hfold as <-. exact Hlist.
  - rewrite (merge_bundle_clash b total Hnd Hok) in Hfold. discriminate Hfold.
Qed.

Lemma analyze_files_from (w : World) (self : Analyzer) (files : list string) :
  forall (c0 : Counter) (n0 : nat) (b0 : Bundle) (c : Counter) (n : nat) (b : Bundle),
    NoDup (keys c0) ->
    fold_exc (fun total file_path =>
                file_result <- analyze_excel_file w self file_path ;;
                merge_result total file_result)
             files (c0, n0, b0) = inr (c, n, b) ->
    n = n0 + list_sum (map (file_rows w self) files)
    /\ NoDup (keys c)
    /\ (forall key,
           counter_get key c
           = counter_get key c0
             + list_sum (map (fun f => counter_get key (file_counter w self f)) files))
    /\ (forall key,
           detail_list key b
           = (detail_list key b0
              ++ flat_map (fun f => detail_list key (file_bundle w self f)) files)%list).
Proof.
  induction files as [|f files IH]; intros c0 n0 b0 c n b Hc0 Hrun.
  - cbn [fold_exc] in Hrun. injection Hrun as <- <- <-.
    cbn [map list_sum fold_right flat_map].
    split; [lia|]. split; [exact Hc0|]. split.
    + intro key. lia.
    + intro key. now rewrite app_nil_r.
  - cbn [fold_exc] in Hrun.
    destruct (analyze_excel_file_unique_keys w self f) as [cf [nf [bf [Hret [Hcf Hbf]]]]].
    assert (Hrows : file_rows w self f = nf) by (unfold file_rows; now rewrite Hret).
    assert (Hcounter : file_counter w self f = cf)
      by (unfold file_counter; now rewrite Hret).
    assert (Hbundle : file_bundle w self f = bf)
      by (unfold file_bundle; now rewrite Hret).
    cbn [map list_sum fold_right flat_map]. rewrite Hrows, Hcounter, Hbundle.
    rewrite Hret in Hrun. cbn [bind] in Hrun.
    unfold merge_result at 1 in Hrun.
    destruct (fold_exc merge_entry bf b0) as [e|b1] eqn:Hmerge;
      cbn [bind ret] in Hrun; [discriminate Hrun|].
    pose proof (merge_bundle_lists bf b0 b1 Hbf Hmerge) as Hlists.
    destruct (IH (counter_update c0 cf) (n0 + nf) b1 c n b
                 (NoDup_counter_update c0 cf Hc0) Hrun)
      as [Hn [Hnd [Hget Hlist]]].
    split.
    { rewrite Hn. change (fold_right Nat.add 0 (map (file_rows w self) files))
        with (list_sum (map (file_rows w self) files)). lia. }
    split; [exact Hnd|].
    split.
    + intro key. rewrite Hget, counter_get_update, (key_sum_counter_get key cf Hcf).
      change (fold_right Nat.add 0
                (map (fun f0 => counter_get key (file_counter w self f0)) files))
        with (list_sum (map (fun f0 => counter_get key (file_counter w self f0)) files)).
      lia.
    + intro key. rewrite Hlist, Hlists, <- app_assoc. reflexivity.
Qed.

(** X15 (analyze_multiple_files, lines 515-544). When a run over any list of
    files returns, the row total is the sum of the files' row counts, the
    general map holds each key once with the sum of the files' counts for
    it, and the list under every key of the bundle is the concatenation of
    the files' lists in the order of the files. *)
Theorem analyze_multiple_files_totals :
  forall (w : World) (self : Analyzer) (files : list string)
         (c : Counter) (n : nat) (b : Bundle),
    analyze_multiple_files w self files = inr (c, n, b) ->
    n = list_sum (map (file_rows w self) files)
    /\ NoDup (keys c)
    /\ (forall key,
           counter_get key c
           = list_sum (map (fun f => counter_get key (file_counter w self f)) files))
    /\ (forall key,
           detail_list key b
           = flat_map (fun f => detail_list key (file_bundle w self f)) files).
Proof.
  intros w self files c n b Hrun.
  unfold analyze_multiple_files, empty_result in Hrun.
  destruct (analyze_files_from w self files [] 0 [] c n b (NoDup_nil _) Hrun)
    as [Hn [Hnd [Hget Hlist]]].
  split; [exact Hn|]. split; [exact Hnd|]. split.
  - intro key. now rewrite Hget.
  - intro key. now rewrite Hlist.
Qed.

Lemma analyze_multiple_files_totals_witness :
  exists c n b,
    analyze_multiple_files sample_world no_filter
                           ["calls.xlsx"; "missing.xlsx"; "more.xlsx"; "dated.xlsx"]
    = inr (c, n, b)
    /\ n = 11 /\ counter_get "Red" c = 4.
Proof.
  destruct (analyze_multiple_files sample_world no_filter
                                   ["calls.xlsx"; "missing.xlsx"; "more.xlsx"; "dated.xlsx"])
    as [e|[[c n] b]] eqn:Hrun; [vm_compute in Hrun; discriminate Hrun|].
  exists c, n, b. split; [reflexivity|].
  destruct (analyze_multiple_files_totals _ _ _ c n b Hrun) as [Hn [_ [Hget _]]].
  rewrite Hn, (Hget "Red"). split; reflexivity.
Defined.

(** ** Comma lists *)

Lemma prefix_comma (c : ascii) (s : string) :
  String.prefix "," (String c s) = Ascii.eqb "," c.
Proof. now rewrite prefix_cons, prefix_empty, andb_true_r. Qed.

Lemma contains_comma (s : string) : PyStr.contains "," s = negb (comma_free s).
Proof.
  induction s as [|c s IH]; [reflexivity|].
  cbn [PyStr.contains]. rewrite prefix_comma, IH.
  unfold comma_free. cbn [string_forall].
  rewrite (Ascii.eqb_sym c ","). now rewrite negb_andb, negb_involutive.
Qed.

Lemma comma_free_lstrip (s : string) :
  comma_free s = true -> comma_free (PyStr.lstrip s) = true.
Proof.
  unfold comma_free. induction s as [|c s IH]; [reflexivity|].
  intro H. cbn [PyStr.lstrip]. destruct (PyStr.is_space c); [|exact H].
  cbn [string_forall] in H. apply andb_true_iff in H. now apply IH.
Qed.

Lemma comma_free_rstrip (s : string) :
  comma_free s = true -> comma_free (PyStr.rstrip s) = true.
Proof.
  unfold comma_free. induction s as [|c s IH]; [reflexivity|].
  intro H. cbn [string_forall] in H. apply andb_true_iff in H.
  destruct H as [Hc Hs]. specialize (IH Hs).
  cbn [PyStr.rstrip]. destruct (PyStr.rstrip s) as [|a r].
  - destruct (PyStr.is_space c); [reflexivity|].
    cbn [string_forall]. now rewrite Hc.
  - cbn [string_forall] in *. now rewrite Hc, IH.
Qed.

Lemma comma_free_strip (s : string) :
  comma_free s = true -> comma_free (PyStr.strip s) = true.
Proof. intro H. unfold PyStr.strip. now apply comma_free_rstrip, comma_free_lstrip. Qed.

Lemma comma_free_of_list (cur : list ascii) (c : ascii) :
  comma_free (string_of_list_ascii (rev cur)) = true ->
  Ascii.eqb "," c = false ->
  comma_free (string_of_list_ascii (rev (c :: cur))) = true.
Proof.
  cbn [rev]. generalize (rev cur) as l. unfold comma_free.
  induction l as [|a l IH]; intros Hl Hc; cbn [app string_of_list_ascii string_forall] in *.
  - now rewrite (Ascii.eqb_sym c ","), Hc.
  - apply andb_true_iff in Hl. destruct Hl as [Ha Hl].
    now rewrite Ha, (IH Hl Hc).
Qed.

Lemma split_go_comma_free (fuel : nat) (s : string) (cur : list ascii) :
  comma_free (string_of_list_ascii (rev cur)) = true ->
  Forall (fun part => comma_free part = true) (PyStr.split_go fuel "," s cur).
Proof.
  revert s cur. induction fuel as [|fuel IH]; intros s cur Hcur.
  - cbn [PyStr.split_go]. now constructor.
  - destruct s as [|c s]; cbn [PyStr.split_go]; [now constructor|].
    rewrite prefix_comma. destruct (Ascii.eqb "," c) eqn:Hc.
    + constructor; [exact Hcur|]. now apply IH.
    + apply IH. now apply comma_free_of_list.
Qed.

(** X19 (split_comma_categories, lines 225-247). The helper that expands
    comma lists never yields a value with a comma or with surrounding white
    space, and on a series in which no value has a comma it yields the
    trimmed texts of the non-empty cells, one per cell. *)
Theorem split_comma_categories_yields_clean_values :
  forall (categories_series : list Cell),
    Forall (fun cat => comma_free cat = true /\ PyStr.strip cat = cat)
           (split_comma_categories categories_series)
    /\ (forallb (fun v => comma_free (PyStr.strip (py_str v)))
                (dropna categories_series) = true
        -> split_comma_categories categories_series
           = map (fun v => PyStr.strip (py_str v)) (dropna categories_series)).
Proof.
  intro cells. unfold split_comma_categories. split.
  - apply Forall_forall. intros cat Hcat.
    apply in_flat_map in Hcat. destruct Hcat as [v [_ Hcat]].
    cbv zeta in Hcat. rewrite contains_comma in Hcat.
    destruct (comma_free (PyStr.strip (py_str v))) eqn:Hfree; cbn [negb] in Hcat.
    + destruct Hcat as [<-|[]]. split; [exact Hfree | apply strip_idempotent].
    + apply filter_In in Hcat. destruct Hcat as [Hcat _].
      apply in_map_iff in Hcat. destruct Hcat as [part [<- Hpart]].
      split; [|apply strip_idempotent].
      apply comma_free_strip.
      pose proof (split_go_comma_free (S (String.length (PyStr.strip (py_str v))))
                                      (PyStr.strip (py_str v)) [] eq_refl) as Hall.
      rewrite Forall_forall in Hall. now apply Hall.
  - induction (dropna cells) as [|v vs IH]; [reflexivity|].
    cbn [forallb flat_map map]. intro H. apply andb_true_iff in H.
    destruct H as [Hv Hvs]. rewrite contains_comma, Hv. cbn [negb app].
    now rewrite (IH Hvs).
Qed.

(** ** Filtering a filtered frame *)

Lemma named_date_column_identified (df : DataFrame) (c : string) :
  named_date_column df = Some c -> identify_date_column df = Some c.
Proof.
  unfold named_date_column, identify_date_column.
  destruct (first_exact_date_column (columns df) date_column_names); [trivial|].
  now intros ->.
Qed.

Lemma named_date_column_columns (df df' : DataFrame) :
  columns df' = columns df -> named_date_column df' = named_date_column df.
Proof. unfold named_date_column. now intros ->. Qed.

Lemma find_set_nth (c : string) (i : nat) (y : ColInfo) (h : list ColInfo) :
  index_of c (map col_name h) = Some i ->
  col_name y = c ->
  find (fun x => (col_name x =? c)%string) (set_nth i y h) = Some y.
Proof.
  intros Hi Hy. revert i Hi. induction h as [|x h IH]; intros i Hi; [discriminate Hi|].
  cbn [map index_of] in Hi.
  destruct (String.eqb_spec (col_name x) c) as [Hx|Hx].
  - injection Hi as <-. cbn [set_nth find]. now rewrite Hy, String.eqb_refl.
  - destruct (index_of c (map col_name h)) as [j|]; [|discriminate Hi].
    injection Hi as <-. cbn [set_nth find].
    destruct (String.eqb_spec (col_name x) c) as [Hx'|_]; [contradiction|].
    now apply IH.
Qed.

Lemma first_date_In (values : list (option Timestamp)) (base : Timestamp) :
  first_date values = Some base -> In (Some base) values.
Proof.
  induction values as [|[t|] values IH]; cbn [first_date]; intros H.
  - discriminate H.
  - injection H as ->. now left.
  - right. now apply IH.
Qed.

(** Dates without a time zone make a datetime64 column. *)
Lemma infer_dates_dtype_naive (values : list (option Timestamp)) :
  Forall (fun v => cell_aware (cell_of_date v) = false) values ->
  infer_dates_dtype values = DDatetime.
Proof.
  intros Hnaive. unfold infer_dates_dtype.
  destruct (first_date values) as [base|] eqn:Hbase; [|reflexivity].
  rewrite Forall_forall in Hnaive.
  pose proof (Hnaive _ (first_date_In _ _ Hbase)) as Hb.
  destruct base as [d|d o]; [|discriminate Hb].
  replace (forallb _ values) with true; [reflexivity|].
  symmetry. apply forallb_forall. intros [[d'|d' o']|] Hv; try reflexivity.
  specialize (Hnaive _ Hv). discriminate Hnaive.
Qed.

(** In a sheet whose rows are complete the date cell of a parsed row is
    the parsed value. *)
Lemma cell_at_parsed_row (w : World) (df : DataFrame) (c : string) (row : list Cell) :
  In c (columns df) ->
  List.length row = List.length (df_header df) ->
  is_datetime64 (dtype_of df c) = false ->
  cell_at (parsed_frame w df c) c (parsed_row w df c row)
  = cell_of_date (parse_layers w (cell_at df c row)).
Proof.
  intros Hin Hlen Hd. unfold cell_at. rewrite columns_parsed_frame.
  unfold parsed_row, cell_at. rewrite Hd.
  destruct (index_of_In _ _ Hin) as [i Hi]. rewrite Hi.
  pose proof (index_of_Some _ _ _ Hi) as [Hlt _].
  unfold columns in Hlt. rewrite length_map in Hlt.
  now rewrite nth_set_nth by lia.
Qed.

(** When the comparison with the bounds does not raise on the parsed frame
    of a sheet with rows, its date column is a datetime64 column. *)
Lemma parsed_frame_is_datetime (w : World) (df : DataFrame) (c : string) :
  In c (columns df) ->
  well_formed df ->
  df_rows df <> [] ->
  comparison_raises (parsed_frame w df c) c = false ->
  is_datetime64 (dtype_of (parsed_frame w df c) c) = true.
Proof.
  intros Hin Hwf Hrows Hraise.
  destruct (is_datetime64 (dtype_of df c)) eqn:Hd.
  { unfold parsed_frame. now rewrite Hd. }
  assert (Hnaive : Forall (fun v => cell_aware (cell_of_date v) = false)
                          (map (parse_layers w) (column_values df c))).
  { apply Forall_forall. intros v Hv. apply in_map_iff in Hv.
    destruct Hv as [cell [<- Hcell]]. unfold column_values in Hcell.
    apply in_map_iff in Hcell. destruct Hcell as [row [<- Hrow]].
    unfold well_formed in Hwf. rewrite Forall_forall in Hwf.
    rewrite <- (cell_at_parsed_row w df c row Hin (Hwf row Hrow) Hd).
    unfold comparison_raises in Hraise.
    assert (Hex : existsb cell_aware (column_values (parsed_frame w df c) c) = false).
    { destruct (dtype_of (parsed_frame w df c) c); (exact Hraise || discriminate Hraise). }
    destruct (cell_aware (cell_at (parsed_frame w df c) c (parsed_row w df c row)))
      eqn:Haware; [|reflexivity].
    rewrite <- Hex. symmetry. apply existsb_exists.
    exists (cell_at (parsed_frame w df c) c (parsed_row w df c row)).
    split; [|exact Haware].
    unfold column_values. apply in_map. rewrite rows_parsed_frame. now apply in_map. }
  unfold parsed_frame. rewrite Hd. unfold assign_datetimes, column_values.
  destruct (index_of_In _ _ Hin) as [i Hi]. rewrite Hi.
  destruct (df_rows df) as [|row rows] eqn:Hr; [contradiction|].
  cbn [map]. unfold dtype_of. cbn [df_header].
  match goal with
  | |- context [set_nth i ?y (df_header df)] =>
      rewrite (find_set_nth c i y (df_header df) Hi eq_refl)
  end.
  cbn [col_dtype].
  unfold column_values in Hnaive. rewrite Hr in Hnaive. cbn [map] in Hnaive.
  now rewrite (infer_dates_dtype_naive _ Hnaive).
Qed.

Lemma filter_idempotent {A} (p : A -> bool) (l : list A) :
  filter p (filter p l) = filter p l.
Proof.
  induction l as [|x l IH]; [reflexivity|].
  cbn [filter]. destruct (p x) eqn:Hp; [|exact IH].
  cbn [filter]. now rewrite Hp, IH.
Qed.

(** X8 (filter_by_date_range with identify_date_column, lines 249-333). When
    the date column is found by its name and no date of the column carries
    a time zone, filtering the filtered frame again gives the same frame:
    the column holds date-times by then, so nothing is parsed anew and
    every row is inside the range.  (With a date that carries a time zone
    the first call gives back all rows, and a second call may drop some.) *)
Theorem filter_by_date_range_idempotent :
  forall (w : World) (self : Analyzer) (df df' : DataFrame) (c : string),
    named_date_column df = Some c ->
    well_formed df ->
    comparison_raises (parsed_frame w df c) c = false ->
    filter_by_date_range w self df = inr df' ->
    filter_by_date_range w self df' = inr df'.
Proof.
  intros w self df df' c Hnamed Hwf Hraise Hrun.
  destruct (range_active self) eqn:Hact.
  2:{ now apply filter_by_date_range_inactive. }
  pose proof (named_date_column_identified df c Hnamed) as Hc.
  pose proof (identify_date_column_In _ _ Hc) as Hin.
  rewrite (filter_by_date_range_active w self df c Hc Hact), Hraise in Hrun.
  injection Hrun as Hdf'.
  assert (Hcols : columns df' = columns df).
  { rewrite <- Hdf'. unfold select_rows, columns. cbn [df_header].
    apply (columns_parsed_frame w df c). }
  assert (Hc' : identify_date_column df' = Some c).
  { apply named_date_column_identified.
    now rewrite (named_date_column_columns df df' Hcols). }
  assert (Hdtype : dtype_of df' c = dtype_of (parsed_frame w df c) c).
  { rewrite <- Hdf'. reflexivity. }
  assert (Hpf : parsed_frame w df' c = df').
  { unfold parsed_frame at 1.
    destruct (is_datetime64 (dtype_of df' c)) eqn:Hdt; [reflexivity|].
    destruct (df_rows df) as [|row rows] eqn:Hrows.
    - assert (Hempty : df_rows df' = []).
      { rewrite <- Hdf'. unfold select_rows. cbn [df_rows].
        now rewrite rows_parsed_frame, Hrows. }
      unfold assign_datetimes, column_values. rewrite Hempty. cbn [map].
      now destruct (index_of c (columns df')).
    - rewrite Hdtype in Hdt.
      rewrite (parsed_frame_is_datetime w df c Hin Hwf) in Hdt;
        [discriminate Hdt | now rewrite Hrows | exact Hraise]. }
  assert (Hraise' : comparison_raises df' c = false).
  { rewrite <- Hdf'. now apply comparison_raises_select. }
  rewrite (filter_by_date_range_active w self df' c Hc' Hact).
  rewrite Hpf, Hraise'. f_equal.
  assert (Hpred : forall row,
             within_range self (row_date w df' c row)
             = within_range self (row_date w df c row)).
  { intro row. unfold row_date. rewrite Hpf. unfold cell_at.
    now rewrite Hcols, (columns_parsed_frame w df c). }
  unfold select_rows at 1. rewrite (filter_ext _ _ Hpred).
  rewrite <- Hdf'. unfold select_rows. cbn [df_header df_rows].
  now rewrite filter_idempotent.
Qed.

Lemma filter_by_date_range_idempotent_witness :
  exists df',
    filter_by_date_range sample_world january dated_sheet = inr df'
    /\ filter_by_date_range sample_world january df' = inr df'
    /\ len_df df' = 2.
Proof.
  destruct (filter_by_date_range sample_world january dated_sheet) as [e|df'] eqn:Hrun;
    [vm_compute in Hrun; discriminate Hrun|].
  exists df'. split; [reflexivity|]. split.
  - apply (filter_by_date_range_idempotent sample_world january dated_sheet df' "fecha");
      [reflexivity | repeat constructor | reflexivity | exact Hrun].
  - vm_compute in Hrun. injection Hrun as <-. reflexivity.
Defined.

(** With a date that carries a time zone the filter is not idempotent: the
    first call gives back the three rows of the sheet, the date column
    parsed; the second call reads the date anew, without its time zone,
    and keeps the one row of January. *)
Lemma filter_twice_with_time_zone :
  exists df1 df2,
    filter_by_date_range zoned_world january zoned_sheet = inr df1
    /\ filter_by_date_range zoned_world january df1 = inr df2
    /\ len_df df1 = 3
    /\ df_rows df2 = [[CDate (mkDateTime 2025 1 15 10 0 0); CInt 1]].
Proof.
  eexists. eexists. split; [vm_compute; reflexivity|].
  split; [vm_compute; reflexivity|]. split; reflexivity.
Qed.

(** ** A file that fails *)

(** C6. If the processing of a file raises, [analyze_excel_file] returns the
    empty triple and the error goes no further.  In [analyze_multiple_files]
    the run then goes on with the files after the failed one, from the
    totals the files before it left; it ends as the run without the failed
    file ends; and when it returns, its row total, its general map and the
    lists of its bundle are made of what every other file of the list
    contributes, those after the failed file as those before it. *)
Theorem failed_file_is_isolated :
  forall (w : World) (self : Analyzer) (path : string) (e : exn),
    analyze_excel_file_body w self path = inl e ->
    analyze_excel_file w self path = inr empty_result
    /\ forall pre post,
        analyze_multiple_files w self (pre ++ path :: post)
        = (total <- analyze_multiple_files w self pre ;;
           fold_exc (merge_file w self) post total)
        /\ analyze_multiple_files w self (pre ++ path :: post)
           = analyze_multiple_files w self (pre ++ post)
        /\ forall c n b,
            analyze_multiple_files w self (pre ++ path :: post) = inr (c, n, b) ->
            n = list_sum (map (file_rows w self) (pre ++ post))
            /\ (forall key,
                   counter_get key c
                   = list_sum (map (fun f => counter_get key (file_counter w self f))
                                   (pre ++ post)))
            /\ (forall key,
                   detail_list key b
                   = flat_map (fun f => detail_list key (file_bundle w self f))
                              (pre ++ post)).
Proof.
  intros w self path e Hbody.
  assert (Hfile : analyze_excel_file w self path = inr empty_result).
  { unfold analyze_excel_file. now rewrite Hbody. }
  split; [exact Hfile|].
  intros pre post.
  assert (Hgo : analyze_multiple_files w self (pre ++ path :: post)
                = (total <- analyze_multiple_files w self pre ;;
                   fold_exc (merge_file w self) post total)).
  { unfold analyze_multiple_files. rewrite fold_exc_app.
    destruct (fold_exc _ pre empty_result) as [e'|total]; cbn [bind]; [reflexivity|].
    cbn [fold_exc]. rewrite Hfile. cbn [bind]. now rewrite merge_result_empty. }
  assert (Hsame : analyze_multiple_files w self (pre ++ path :: post)
                  = analyze_multiple_files w self (pre ++ post)).
  { rewrite Hgo. unfold analyze_multiple_files. now rewrite fold_exc_app. }
  split; [exact Hgo|]. split; [exact Hsame|].
  intros c n b Hrun. rewrite Hsame in Hrun.
  unfold analyze_multiple_files, empty_result in Hrun.
  destruct (analyze_files_from w self (pre ++ post) [] 0 [] c n b (NoDup_nil _) Hrun)
    as [Hn [_ [Hget Hlist]]].
  split; [exact Hn|]. split.
  - intro key. now rewrite Hget.
  - intro key. now rewrite Hlist.
Qed.

(** A missing file between two sheets: the run returns the rows and the
    counts of the two sheets, the one after the missing file included. *)
Lemma failed_file_is_isolated_witness :
  analyze_excel_file sample_world no_filter "missing.xlsx" = inr empty_result
  /\ exists c n b,
      analyze_multiple_files sample_world no_filter
                             ["dated.xlsx"; "missing.xlsx"; "calls.xlsx"]
      = inr (c, n, b)
      /\ n = 9
      /\ counter_get "Red" c = 3
      /\ List.length (detail_list "categoria_combinada_detalle" b) = 4.
Proof.
  destruct (failed_file_is_isolated sample_world no_filter "missing.xlsx" OSError eq_refl)
    as [Hfile Hrun].
  split; [exact Hfile|].
  destruct (Hrun ["dated.xlsx"] ["calls.xlsx"]) as [_ [_ Htotals]].
  destruct (analyze_multiple_files sample_world no_filter
                                   ["dated.xlsx"; "missing.xlsx"; "calls.xlsx"])
    as [e|[[c n] b]] eqn:Hret; [vm_compute in Hret; discriminate Hret|].
  exists c, n, b. split; [reflexivity|].
  destruct (Htotals c n b Hret) as [Hn [Hget Hlist]].
  rewrite Hn, (Hget "Red"), (Hlist "categoria_combinada_detalle").
  repeat split; reflexivity.
Defined.
